(** * Adaptive multi-peer media session engine

    A shallow embedding of the quality controller ([quality-manager.ts]),
    the peer mesh ([webrtc.ts]) and the bandwidth feedback loop of the room
    page ([app/room/[id]/page.tsx]).

    JavaScript numbers are IEEE 754 binary64 values and are modelled by the
    primitive floats of the kernel, so every arithmetic step below rounds
    exactly as the program does.  Timers are modelled by an explicit table
    of pending handles; time is counted in milliseconds. *)

From Stdlib Require Import ZArith Floats List Bool Sorted Lia.
From stdpp Require Import gmap strings list pretty.
Import ListNotations.

Set Warnings "-inexact-float".

(** ** JavaScript numbers *)

Definition number : Type := float.

(** [a >= b] and [a > b] on numbers: both are false as soon as one side is
    NaN. *)
Definition num_ge (a b : number) : bool := PrimFloat.leb b a.
Definition num_gt (a b : number) : bool := PrimFloat.ltb b a.

(** The [length] of an array, as a number. *)
Definition num_of_nat (n : nat) : number :=
  PrimFloat.of_uint63 (Uint63.of_Z (Z.of_nat n)).

(** Truthiness of a number: [0], [-0] and [NaN] are falsy. *)
Definition truthy (x : number) : bool :=
  negb (PrimFloat.eqb x 0%float) && PrimFloat.eqb x x.

(** [Object.is] on numbers: NaN is itself, and the two zeros differ. *)
Definition Object_is (x y : number) : bool := PrimFloat.Leibniz.eqb x y.

(** ** types/room.ts *)

(** [VideoQuality] is a union of string literals; at run time it is a
    string. *)
Definition VideoQuality : Type := string.

Record Resolution : Type := mkResolution {
  width : number;
  height : number
}.

Record QualityTier : Type := mkTier {
  name : VideoQuality;
  resolution : Resolution;
  frameRate : number;
  videoBitrate : number;
  audioBitrate : number;
  totalBandwidth : number
}.

(** ** quality-manager.ts: the tier catalog *)

Local Open Scope float_scope.

Definition tier_1080p : QualityTier :=
  {| name := "1080p";
     resolution := {| width := 1920; height := 1080 |};
     frameRate := 30;
     videoBitrate := 2000;
     audioBitrate := 328;
     totalBandwidth := 2328 |}.

Definition tier_720p : QualityTier :=
  {| name := "720p";
     resolution := {| width := 1280; height := 720 |};
     frameRate := 30;
     videoBitrate := 1200;
     audioBitrate := 256;
     totalBandwidth := 1456 |}.

Definition tier_480p : QualityTier :=
  {| name := "480p";
     resolution := {| width := 854; height := 480 |};
     frameRate := 25;
     videoBitrate := 800;
     audioBitrate := 192;
     totalBandwidth := 992 |}.

Definition tier_240p : QualityTier :=
  {| name := "240p";
     resolution := {| width := 426; height := 240 |};
     frameRate := 20;
     videoBitrate := 400;
     audioBitrate := 128;
     totalBandwidth := 528 |}.

Definition tier_144p : QualityTier :=
  {| name := "144p";
     resolution := {| width := 256; height := 144 |};
     frameRate := 15;
     videoBitrate := 150;
     audioBitrate := 96;
     totalBandwidth := 246 |}.

Definition tier_audio_only : QualityTier :=
  {| name := "audio-only";
     resolution := {| width := 0; height := 0 |};
     frameRate := 0;
     videoBitrate := 0;
     audioBitrate := 64;
     totalBandwidth := 64 |}.

Definition QUALITY_TIERS : list QualityTier :=
  [ tier_1080p; tier_720p; tier_480p; tier_240p; tier_144p; tier_audio_only ].

Local Close Scope float_scope.

(** [QUALITY_TIERS.find(t => t.name === quality)] *)
Definition find_tier (quality : VideoQuality) : option QualityTier :=
  List.find (fun t => String.eqb (name t) quality) QUALITY_TIERS.

(** ** quality-manager.ts: the QualityManager object *)

(** A timer handle.  Browsers hand out positive integers, so a stored handle
    is always truthy. *)
Definition handle : Type := positive.

Record QualityManager : Type := mkQM {
  currentTier : QualityTier;
  bandwidthHistory : list number;
  stabilizationTimer : option handle
}.

(** [constructor(initialQuality: VideoQuality = '720p')] *)
Definition new_QualityManager (initialQuality : option VideoQuality) : QualityManager :=
  let initialQuality := default "720p" initialQuality in
  {| currentTier := default (nth 1 QUALITY_TIERS tier_720p) (find_tier initialQuality);
     bandwidthHistory := [];
     stabilizationTimer := None |}.

(** [getAverageBandwidth]: [reduce] sums from the left, starting at [0]. *)
Definition getAverageBandwidth (q : QualityManager) : number :=
  match bandwidthHistory q with
  | [] => 0%float
  | h => PrimFloat.div (fold_left PrimFloat.add h 0%float) (num_of_nat (length h))
  end.

(** The safety margin applied by [getRecommendedTier]. *)
Definition bufferedBandwidth (bandwidth : number) : number :=
  PrimFloat.mul bandwidth 0.8%float.

(** [getRecommendedTier]: the [for ... of] loop returns at the first tier
    that passes the test; after the loop the last catalog entry is
    returned. *)
Definition getRecommendedTier (bandwidth : number) : QualityTier :=
  match List.find (fun tier => num_ge (bufferedBandwidth bandwidth) (totalBandwidth tier))
                  QUALITY_TIERS with
  | Some tier => tier
  | None => nth (length QUALITY_TIERS - 1) QUALITY_TIERS tier_audio_only
  end.

(** [getCurrentTier] *)
Definition getCurrentTier (q : QualityManager) : QualityTier := currentTier q.

(** The methods below return the new object together with the arguments of
    the [onQualityChange] calls they made. *)

(** [adjustQuality] *)
Definition adjustQuality (q : QualityManager) : QualityManager * list QualityTier :=
  let averageBandwidth := getAverageBandwidth q in
  let recommendedTier := getRecommendedTier averageBandwidth in
  if negb (String.eqb (name recommendedTier) (name (currentTier q)))
  then ({| currentTier := recommendedTier;
           bandwidthHistory := bandwidthHistory q;
           stabilizationTimer := stabilizationTimer q |},
        [recommendedTier])
  else (q, []).

(** [setQuality] *)
Definition setQuality (quality : VideoQuality) (q : QualityManager)
  : QualityManager * list QualityTier :=
  match find_tier quality with
  | Some tier => ({| currentTier := tier;
                     bandwidthHistory := bandwidthHistory q;
                     stabilizationTimer := stabilizationTimer q |},
                  [tier])
  | None => (q, [])
  end.

(** The sample window after [push] and the conditional [shift]. *)
Definition push_sample (history : list number) (bandwidth : number) : list number :=
  let pushed := history ++ [bandwidth] in
  if (10 <? length pushed)%nat then tail pushed else pushed.

(** ** The event loop around a QualityManager

    The only timers of a QualityManager are the ones [updateBandwidth] sets,
    and their callback is always [() => this.adjustQuality()].  A pending
    handle is stored with the earliest time at which the loop may run it. *)

(** [onQualityChange] is called from [adjustQuality], on a timer, and from
    [setQuality], on request.  Each call is recorded with its time and the
    method it came from. *)
Inductive Origin : Type := Automatic | Manual.

Record Change : Type := mkChange {
  change_time : Z;
  change_origin : Origin;
  change_tier : QualityTier
}.

Record Loop : Type := mkLoop {
  manager : QualityManager;
  timeouts : gmap handle Z;
  next_handle : handle;
  clock : Z;
  changes : list Change   (* the [onQualityChange] calls so far, oldest first *)
}.

Definition boot (initialQuality : option VideoQuality) : Loop :=
  {| manager := new_QualityManager initialQuality;
     timeouts := ∅;
     next_handle := 1%positive;
     clock := 0;
     changes := [] |}.

(** [clearTimeout] of the stored handle, when there is one. *)
Definition clear_stored (stored : option handle) (pending : gmap handle Z) : gmap handle Z :=
  match stored with
  | Some h => delete h pending
  | None => pending
  end.

(** [updateBandwidth] *)
Definition updateBandwidth (bandwidth : number) (w : Loop) : Loop :=
  let q := manager w in
  let h := next_handle w in
  {| manager := {| currentTier := currentTier q;
                   bandwidthHistory := push_sample (bandwidthHistory q) bandwidth;
                   stabilizationTimer := Some h |};
     timeouts := <[ h := (clock w + 2000)%Z ]> (clear_stored (stabilizationTimer q) (timeouts w));
     next_handle := Pos.succ h;
     clock := clock w;
     changes := changes w |}.

Definition record_changes (t : Z) (o : Origin) (tiers : list QualityTier) : list Change :=
  map (mkChange t o) tiers.

(** The loop runs the callback of handle [h]: the handle is spent, and
    [adjustQuality] runs. *)
Definition run_timeout (h : handle) (w : Loop) : Loop :=
  let '(q, emitted) := adjustQuality (manager w) in
  {| manager := q;
     timeouts := delete h (timeouts w);
     next_handle := next_handle w;
     clock := clock w;
     changes := changes w ++ record_changes (clock w) Automatic emitted |}.

Definition call_setQuality (quality : VideoQuality) (w : Loop) : Loop :=
  let '(q, emitted) := setQuality quality (manager w) in
  {| manager := q;
     timeouts := timeouts w;
     next_handle := next_handle w;
     clock := clock w;
     changes := changes w ++ record_changes (clock w) Manual emitted |}.

Inductive Action : Type :=
| UpdateBandwidth (bandwidth : number)
| SetQuality (quality : VideoQuality)
| Timeout (h : handle).

Definition at_time (t : Z) (w : Loop) : Loop :=
  {| manager := manager w; timeouts := timeouts w; next_handle := next_handle w;
     clock := t; changes := changes w |}.

(** One turn of the loop at time [t].  Time does not go back, and a timeout
    callback runs only once its delay has elapsed (possibly later). *)
Definition step (w : Loop) (ta : Z * Action) : option Loop :=
  let '(t, a) := ta in
  if (t <? clock w)%Z then None else
  let w := at_time t w in
  match a with
  | UpdateBandwidth bandwidth => Some (updateBandwidth bandwidth w)
  | SetQuality quality => Some (call_setQuality quality w)
  | Timeout h =>
      match timeouts w !! h with
      | Some due => if (due <=? t)%Z then Some (run_timeout h w) else None
      | None => None
      end
  end.

Fixpoint run (w : Loop) (trace : list (Z * Action)) : option Loop :=
  match trace with
  | [] => Some w
  | ta :: rest =>
      match step w ta with
      | Some w' => run w' rest
      | None => None
      end
  end.

(** The times of the automatic tier changes, oldest first. *)
Definition automatic_times (cs : list Change) : list Z :=
  map change_time
      (List.filter (fun c => match change_origin c with Automatic => true | Manual => false end) cs).

(** ** webrtc.ts: the WebRTCManager and the objects it drives *)

Module WebRTC.

(** A [MediaStream] is known by its identity only. *)
Definition MediaStream : Type := positive.

(** A reference to a [SimplePeer.Instance]. *)
Definition ref : Type := positive.

Record WebRTCConfig : Type := mkConfig {
  stunServers : list string;
  turnServers : option (list string);
  maxPeers : nat
}.

Record PeerConnection : Type := mkConnection {
  id : string;
  peer : ref;
  stream : option MediaStream;
  isHost : bool;
  quality : VideoQuality
}.

(** What [getUserMedia] is asked for. *)
Inductive VideoConstraints : Type :=
| NoVideo                                  (* [video: false] *)
| IdealVideo (w h rate : number).          (* [{ width: {ideal}, height: {ideal}, frameRate: {ideal} }] *)

Record MediaStreamConstraints : Type := mkConstraints {
  video : VideoConstraints;
  audio : bool
}.

(** [QualityManager.getConstraints] *)
Definition getConstraints (q : QualityManager) : MediaStreamConstraints :=
  let tier := currentTier q in
  if String.eqb (name tier) "audio-only"
  then {| video := NoVideo; audio := true |}
  else {| video := IdealVideo (width (resolution tier)) (height (resolution tier)) (frameRate tier);
          audio := true |}.

(** The state of a [SimplePeer.Instance] that the manager reads, together
    with the peer identifier its event handlers were registered with
    ([setupPeerEventHandlers] closes over [connection.id]).  The instance is
    the library's (simple-peer 9): [destroy()] only marks the instance as
    being destroyed and queues a microtask; that microtask leaves the
    instance destroyed and not connected and emits ['close'].  An instance
    that is destroyed, or being destroyed, ignores [destroy()] and never
    connects. *)
Record Instance : Type := mkInstance {
  initiator : bool;
  outgoing : option MediaStream;
  connected : bool;
  destroying : bool;
  destroyed : bool;
  handlers_id : string
}.

(** The result of [getConnectionStats]. *)
Record Stats : Type := mkStats {
  bytesReceived : number;
  bytesSent : number;
  packetsLost : number;
  jitter : number;
  rtt : number
}.

(** The overridable hooks of the manager and of its quality manager. *)
Inductive Hook : Type :=
| onLocalStreamReady (s : MediaStream)
| onPeerConnected (peerId : string)
| onPeerDisconnected (peerId : string)
| onConnectionStatsUpdate (peerId : string) (stats : Stats)
| onQualityChange (tier : QualityTier).

(** The closure of one [setInterval] in [startConnectionMonitoring]: it
    holds [peerId] and the connection found in the table at that moment. *)
Record Sampler : Type := mkSampler {
  sampler_peerId : string;
  sampler_peer : ref
}.

Record WebRTCManager : Type := mkManager {
  peers : gmap string PeerConnection;
  localStream : option MediaStream;
  qualityManager : QualityManager;
  config : WebRTCConfig;
  isInitialized : bool
}.

(** The manager together with the part of the browser it acts on. *)
Record Session : Type := mkSession {
  engine : WebRTCManager;
  instances : gmap ref Instance;
  next_instance : ref;
  intervals : gmap handle Sampler;
  next_interval : handle;
  acquisitions : list MediaStreamConstraints;   (* the [getUserMedia] calls so far *)
  emitted : list Hook;                          (* the hook calls so far *)
  microtasks : list ref                         (* the [destroy()] microtasks queued *)
}.

(** [constructor(config, audioSettings)] in a fresh browser *)
Definition new_Session (cfg : WebRTCConfig) : Session :=
  {| engine := {| peers := ∅; localStream := None;
                  qualityManager := new_QualityManager None;
                  config := cfg; isInitialized := false |};
     instances := ∅; next_instance := 1%positive;
     intervals := ∅; next_interval := 1%positive;
     acquisitions := []; emitted := []; microtasks := [] |}.

Definition with_engine (e : WebRTCManager) (s : Session) : Session :=
  {| engine := e; instances := instances s; next_instance := next_instance s;
     intervals := intervals s; next_interval := next_interval s;
     acquisitions := acquisitions s; emitted := emitted s; microtasks := microtasks s |}.

Definition with_peers (p : gmap string PeerConnection) (s : Session) : Session :=
  with_engine {| peers := p; localStream := localStream (engine s);
                 qualityManager := qualityManager (engine s);
                 config := config (engine s);
                 isInitialized := isInitialized (engine s) |} s.

Definition with_instances (i : gmap ref Instance) (s : Session) : Session :=
  {| engine := engine s; instances := i; next_instance := next_instance s;
     intervals := intervals s; next_interval := next_interval s;
     acquisitions := acquisitions s; emitted := emitted s; microtasks := microtasks s |}.

Definition with_intervals (i : gmap handle Sampler) (s : Session) : Session :=
  {| engine := engine s; instances := instances s; next_instance := next_instance s;
     intervals := i; next_interval := next_interval s;
     acquisitions := acquisitions s; emitted := emitted s; microtasks := microtasks s |}.

Definition emit (h : list Hook) (s : Session) : Session :=
  {| engine := engine s; instances := instances s; next_instance := next_instance s;
     intervals := intervals s; next_interval := next_interval s;
     acquisitions := acquisitions s; emitted := emitted s ++ h;
     microtasks := microtasks s |}.

Definition with_microtasks (queue : list ref) (s : Session) : Session :=
  {| engine := engine s; instances := instances s; next_instance := next_instance s;
     intervals := intervals s; next_interval := next_interval s;
     acquisitions := acquisitions s; emitted := emitted s; microtasks := queue |}.

(** The instance once [destroy()] has returned, and once its microtask has
    run. *)
Definition begin_destroy (i : Instance) : Instance :=
  {| initiator := initiator i; outgoing := outgoing i;
     connected := connected i; destroying := true; destroyed := false;
     handlers_id := handlers_id i |}.

Definition finish_destroy (i : Instance) : Instance :=
  {| initiator := initiator i; outgoing := outgoing i;
     connected := false; destroying := false; destroyed := true;
     handlers_id := handlers_id i |}.

(** [peer.destroy()] *)
Definition destroy (r : ref) (s : Session) : Session :=
  match instances s !! r with
  | Some i =>
      if destroyed i || destroying i then s
      else with_microtasks (microtasks s ++ [r])
             (with_instances (<[ r := begin_destroy i ]> (instances s)) s)
  | None => s
  end.

(** [removePeer] *)
Definition removePeer (peerId : string) (s : Session) : Session :=
  match peers (engine s) !! peerId with
  | Some connection =>
      let s := destroy (peer connection) s in
      with_peers (delete peerId (peers (engine s))) s
  | None => s
  end.

(** [createPeer] *)
Definition createPeer (peerId : string) (isInitiator : bool) (s : Session) : Session :=
  let s := if bool_decide (is_Some (peers (engine s) !! peerId))
           then removePeer peerId s else s in
  let r := next_instance s in
  let s := {| engine := engine s;
              instances := <[ r := {| initiator := isInitiator;
                                      outgoing := localStream (engine s);
                                      connected := false; destroying := false;
                                      destroyed := false;
                                      handlers_id := peerId |} ]> (instances s);
              next_instance := Pos.succ r;
              intervals := intervals s; next_interval := next_interval s;
              acquisitions := acquisitions s; emitted := emitted s;
              microtasks := microtasks s |} in
  let connection := {| id := peerId; peer := r; stream := None;
                       isHost := isInitiator;
                       quality := name (getCurrentTier (qualityManager (engine s))) |} in
  with_peers (<[ peerId := connection ]> (peers (engine s))) s.

(** [startConnectionMonitoring]: [setInterval(..., 5000)] *)
Definition startConnectionMonitoring (peerId : string) (s : Session) : Session :=
  match peers (engine s) !! peerId with
  | None => s
  | Some connection =>
      let h := next_interval s in
      {| engine := engine s; instances := instances s; next_instance := next_instance s;
         intervals := <[ h := {| sampler_peerId := peerId; sampler_peer := peer connection |} ]>
                        (intervals s);
         next_interval := Pos.succ h;
         acquisitions := acquisitions s; emitted := emitted s; microtasks := microtasks s |}
  end.

(** [getConnectionStats] *)
Definition getConnectionStats (_peer : ref) : Stats :=
  {| bytesReceived := 0%float; bytesSent := 0%float; packetsLost := 0%float;
     jitter := 0%float; rtt := 0%float |}.

Definition is_connected (r : ref) (s : Session) : bool :=
  match instances s !! r with
  | Some i => connected i
  | None => false
  end.

(** The callback given to [setInterval] in [startConnectionMonitoring],
    run for the pending interval [h]. *)
Definition sampler_callback (h : handle) (m : Sampler) (s : Session) : Session :=
  if negb (is_connected (sampler_peer m) s)
  then with_intervals (delete h (intervals s)) s            (* [clearInterval(interval)] *)
  else emit [onConnectionStatsUpdate (sampler_peerId m) (getConnectionStats (sampler_peer m))] s.

(** [dispose]: [destroy()] is called on every connection and the table is
    cleared.  (The calls are made in the order of the fold, which need not
    be the insertion order of the [Map].) *)
Definition dispose (s : Session) : Session :=
  let s := map_fold (fun _ connection s => destroy (peer connection) s) s (peers (engine s)) in
  with_peers ∅ s.

(** The microtask queued by [destroy()] on [r]: the instance becomes
    destroyed and not connected, and ['close'] is emitted, which runs the
    handler registered by [setupPeerEventHandlers]: [removePeer(id)], then
    [onPeerDisconnected(id)]. *)
Definition close_callback (r : ref) (s : Session) : Session :=
  match instances s !! r with
  | Some i =>
      let s := with_instances (<[ r := finish_destroy i ]> (instances s)) s in
      emit [onPeerDisconnected (handlers_id i)] (removePeer (handlers_id i) s)
  | None => s
  end.

(** The queued microtasks run in order, those they queue included, for at
    most [fuel] of them. *)
Fixpoint drain (fuel : nat) (s : Session) : Session :=
  match fuel with
  | O => s
  | S fuel =>
      match microtasks s with
      | [] => s
      | r :: rest => drain fuel (close_callback r (with_microtasks rest s))
      end
  end.

(** The end of a task: the microtask queue is emptied.  A microtask queues
    at most one other, and only when it takes an entry out of the table, so
    the queue and the table together bound the number of runs. *)
Definition settle (s : Session) : Session :=
  drain (length (microtasks s) + size (peers (engine s))) s.

(** What can happen to a session.  [CreatePeer], [RemovePeer] and [Dispose]
    are calls of the methods, made by the task that is running: the
    microtasks they queue stay queued when they return.  [PeerConnect],
    [PeerClose] and [Tick] are tasks of their own, and [Idle] is the end of
    the running task: the microtasks queued so far run first, and those the
    task queues run when it ends.  The sampler callback awaits
    [getConnectionStats], which resolves at once, so nothing runs between
    its test of [connected] and its hook call.  The hooks and handlers that
    only log ([onSignal], [onDataReceived], [onRemoteStream],
    [onPeerError]) are left out. *)
Inductive Command : Type :=
| CreatePeer (peerId : string) (isInitiator : bool)
| RemovePeer (peerId : string)
| Dispose
| PeerConnect (r : ref)     (* the library emits ['connect'] on [r] *)
| PeerClose (r : ref)       (* the library tears [r] down: it calls [destroy()] on it *)
| Tick (h : handle)         (* the loop runs the interval callback [h] *)
| Idle.                     (* the running task ends *)

Definition exec (s : Session) (c : Command) : option Session :=
  match c with
  | CreatePeer peerId isInitiator => Some (createPeer peerId isInitiator s)
  | RemovePeer peerId => Some (removePeer peerId s)
  | Dispose => Some (dispose s)
  | PeerConnect r =>
      let s := settle s in
      match instances s !! r with
      | Some i =>
          if destroyed i || destroying i || connected i then None else
          let s := with_instances
                     (<[ r := {| initiator := initiator i; outgoing := outgoing i;
                                 connected := true; destroying := false;
                                 destroyed := false;
                                 handlers_id := handlers_id i |} ]> (instances s)) s in
          (* [peer.on('connect', ...)] *)
          Some (startConnectionMonitoring (handlers_id i)
                  (emit [onPeerConnected (handlers_id i)] s))
      | None => None
      end
  | PeerClose r =>
      let s := settle s in
      match instances s !! r with
      | Some i =>
          if destroyed i || destroying i then None else Some (settle (destroy r s))
      | None => None
      end
  | Tick h =>
      let s := settle s in
      match intervals s !! h with
      | Some m => Some (sampler_callback h m s)
      | None => None
      end
  | Idle => Some (settle s)
  end.

Fixpoint execs (s : Session) (cs : list Command) : option Session :=
  match cs with
  | [] => Some s
  | c :: rest =>
      match exec s c with
      | Some s' => execs s' rest
      | None => None
      end
  end.

(** The answer of the browser to the [n]-th [getUserMedia] call: a stream,
    or the error the promise rejects with. *)
Definition Devices : Type := nat -> MediaStreamConstraints -> MediaStream + string.

Definition getUserMedia (devices : Devices) (constraints : MediaStreamConstraints)
    (s : Session) : (MediaStream + string) * Session :=
  (devices (length (acquisitions s)) constraints,
   {| engine := engine s; instances := instances s; next_instance := next_instance s;
      intervals := intervals s; next_interval := next_interval s;
      acquisitions := acquisitions s ++ [constraints]; emitted := emitted s; microtasks := microtasks s |}).

Definition with_localStream (m : MediaStream) (s : Session) : Session :=
  with_engine {| peers := peers (engine s); localStream := Some m;
                 qualityManager := qualityManager (engine s);
                 config := config (engine s);
                 isInitialized := isInitialized (engine s) |} s.

Definition with_qualityManager (q : QualityManager) (s : Session) : Session :=
  with_engine {| peers := peers (engine s); localStream := localStream (engine s);
                 qualityManager := q;
                 config := config (engine s);
                 isInitialized := isInitialized (engine s) |} s.

Definition with_isInitialized (b : bool) (s : Session) : Session :=
  with_engine {| peers := peers (engine s); localStream := localStream (engine s);
                 qualityManager := qualityManager (engine s);
                 config := config (engine s);
                 isInitialized := b |} s.

(** [this.qualityManager.setQuality(quality)] *)
Definition engine_setQuality (quality : VideoQuality) (s : Session) : Session :=
  let '(q, changed) := setQuality quality (qualityManager (engine s)) in
  emit (map onQualityChange changed) (with_qualityManager q s).

(** [setupLocalStream]: the result is the error thrown, if any. *)
Definition setupLocalStream (devices : Devices) (s : Session) : option string * Session :=
  let constraints := getConstraints (qualityManager (engine s)) in
  match getUserMedia devices constraints s with
  | (inl m, s) => (None, emit [onLocalStreamReady m] (with_localStream m s))
  | (inr _, s) =>
      (* Try audio-only fallback *)
      match getUserMedia devices {| video := NoVideo; audio := true |} s with
      | (inl m, s) =>
          (None, emit [onLocalStreamReady m]
                   (engine_setQuality "audio-only" (with_localStream m s)))
      | (inr fallbackError, s) => (Some fallbackError, s)
      end
  end.

(** [initialize] *)
Definition initialize (devices : Devices) (s : Session) : option string * Session :=
  if isInitialized (engine s) then (None, s) else
  match setupLocalStream devices s with
  | (None, s) => (None, with_isInitialized true s)
  | (Some error, s) => (Some error, s)
  end.

(** [adjustQuality(bandwidth)], as far as the quality manager is concerned:
    the rest of the method reconfigures the capture tracks. *)
Definition engine_adjustQuality (bandwidth : number) (w : Loop) : Loop :=
  updateBandwidth bandwidth w.

End WebRTC.

(** ** app/room/[id]/page.tsx: the bandwidth feedback of the room page *)

Module Room.

Record ConnectionStats : Type := mkConnectionStats {
  bandwidth : number;
  latency : number;
  quality : string
}.

(** The handler takes [stats: any] and reads two fields of it; a field that
    is absent reads as [undefined]. *)
Record Report : Type := mkReport {
  stats_bandwidth : option number;
  stats_latency : option number
}.

(** The object built by [WebRTCManager.getConnectionStats] has neither
    field. *)
Definition report_of_stats (_ : WebRTC.Stats) : Report :=
  {| stats_bandwidth := None; stats_latency := None |}.

(** [x || d] *)
Definition or_else (x : option number) (d : number) : number :=
  match x with
  | Some v => if truthy v then v else d
  | None => d
  end.

(** [x > bound], false when [x] is [undefined] *)
Definition exceeds (x : option number) (bound : number) : bool :=
  match x with
  | Some v => num_gt v bound
  | None => false
  end.

(** The value given to [setConnectionStats] by the
    [onConnectionStatsUpdate] handler the page installs. *)
Definition onConnectionStatsUpdate (_peerId : string) (stats : Report) : ConnectionStats :=
  {| bandwidth := or_else (stats_bandwidth stats) 1000%float;
     latency := or_else (stats_latency stats) 50%float;
     quality := if exceeds (stats_bandwidth stats) 1000%float then "excellent"
                else if exceeds (stats_bandwidth stats) 500%float then "good"
                else "poor" |}.

(** The page state that matters here: [connectionStats] as last set, the
    value [connectionStats.bandwidth] had at the last render (the
    dependency the effect compares with), and the arguments of the
    [webrtcManager.current.adjustQuality] calls made so far. *)
Record Page : Type := mkPage {
  connectionStats : ConnectionStats;
  rendered_bandwidth : number;
  adjustQuality_calls : list number
}.

(** The page once mounted: the effect has run on the initial bandwidth, 0,
    and called nothing. *)
Definition mounted : Page :=
  {| connectionStats := {| bandwidth := 0%float; latency := 0%float; quality := "good" |};
     rendered_bandwidth := 0%float;
     adjustQuality_calls := [] |}.

(** A render, with the effect whose dependency is
    [connectionStats.bandwidth]: the effect runs when the dependency is not
    the one of the last render, and calls [adjustQuality] for a positive
    value. *)
Definition bandwidth_effect (p : Page) : Page :=
  let current := bandwidth (connectionStats p) in
  if Object_is (rendered_bandwidth p) current then p
  else {| connectionStats := connectionStats p;
          rendered_bandwidth := current;
          adjustQuality_calls := if num_gt current 0%float
                                 then adjustQuality_calls p ++ [current]
                                 else adjustQuality_calls p |}.

(** What happens to the page: a sampler calls
    [onConnectionStatsUpdate(peerId, stats)], which only sets the state, or
    the page renders.  Several reports may arrive before the page renders;
    the render sees the state set last. *)
Inductive Event : Type :=
| Reported (peerId : string) (stats : Report)
| Rendered.

Definition react (p : Page) (e : Event) : Page :=
  match e with
  | Reported peerId stats =>
      {| connectionStats := onConnectionStatsUpdate peerId stats;
         rendered_bandwidth := rendered_bandwidth p;
         adjustQuality_calls := adjustQuality_calls p |}
  | Rendered => bandwidth_effect p
  end.

Definition reacts (p : Page) (events : list Event) : Page :=
  fold_left react events p.

(** The reports among the events, in order. *)
Definition reports_in (events : list Event) : list (string * Report) :=
  flat_map (fun e => match e with
                     | Reported peerId stats => [(peerId, stats)]
                     | Rendered => []
                     end) events.

(** The quality manager of the session after the page's [adjustQuality]
    calls. *)
Definition fed (calls : list number) (w : Loop) : Loop :=
  fold_left (fun w bandwidth => WebRTC.engine_adjustQuality bandwidth w) calls w.

(** A peer reporting [kbps]. *)
Definition reporting (kbps : number) : Report :=
  {| stats_bandwidth := Some kbps; stats_latency := None |}.

(** Worst-link aggregation, as the specification words it: the minimum over
    the latest sample of each peer. *)
Definition latest_samples (rs : list (string * Report)) : gmap string number :=
  fold_left (fun m r => <[ fst r := or_else (stats_bandwidth (snd r)) 1000%float ]> m) rs ∅.

Definition num_min (a b : number) : number := if PrimFloat.ltb a b then a else b.

Definition worst_link (latest : gmap string number) : option number :=
  map_fold (fun _ v acc => Some (from_option (num_min v) v acc)) None latest.

End Room.

(** ** quality-manager.ts: the remaining methods *)

(** [array.findIndex(test)]: the first position that passes the test, or
    [-1]. *)
Fixpoint findIndex_from {A : Type} (test : A -> bool) (l : list A) (position : Z) : Z :=
  match l with
  | [] => (-1)%Z
  | x :: rest => if test x then position else findIndex_from test rest (position + 1)%Z
  end.

Definition findIndex {A : Type} (test : A -> bool) (l : list A) : Z :=
  findIndex_from test l 0%Z.

(** [isUltraLowBandwidthMode] *)
Definition isUltraLowBandwidthMode (q : QualityManager) : bool :=
  String.eqb (name (currentTier q)) "144p".

(** [canUpgrade].  [currentIndex - 1] is a position of the catalog whenever
    [currentIndex] is positive, so [nextTier] is always found. *)
Definition canUpgrade (bandwidth : number) (q : QualityManager) : bool :=
  let currentIndex :=
    findIndex (fun t => String.eqb (name t) (name (currentTier q))) QUALITY_TIERS in
  if (currentIndex <=? 0)%Z then false else
  match QUALITY_TIERS !! Z.to_nat (currentIndex - 1) with
  | Some nextTier => num_ge (PrimFloat.mul bandwidth 1.2%float) (totalBandwidth nextTier)
  | None => false
  end.

(** [shouldDowngrade] *)
Definition shouldDowngrade (bandwidth : number) (q : QualityManager) : bool :=
  PrimFloat.ltb (PrimFloat.mul bandwidth 0.8%float) (totalBandwidth (currentTier q)).

(** The samples a trace passes to [updateBandwidth], in order. *)
Definition samples_of (trace : list (Z * Action)) : list number :=
  flat_map (fun ta => match snd ta with
                      | UpdateBandwidth bandwidth => [bandwidth]
                      | _ => []
                      end) trace.

(** [array.slice(-n)]: the last [n] elements, or all of them when there are
    fewer. *)
Definition slice_last {A : Type} (n : nat) (l : list A) : list A :=
  drop (length l - n) l.

(** ** lib/audio-processor.ts: settings, subtitles and translation

    The speech recognition object and its handlers are left out: what
    follows is the part of the AudioProcessor that holds the settings and
    the subtitles. *)

Module Audio.

(** [types/audio.ts] *)
Record AudioSettings : Type := mkAudioSettings {
  bitrate : number;
  enableSubtitles : bool;
  enableTranslation : bool;
  sourceLanguage : string;
  targetLanguage : string;
  enableNoiseReduction : bool;
  enableEchoCancellation : bool;
  enableAutoGainControl : bool
}.

(** A value found under a key of a JSON object. *)
Inductive Json : Type :=
| JNull
| JBool (b : bool)
| JNumber (n : number)
| JString (s : string)
| JOther.                      (* an array or an object *)

(** A subtitle.  [translation] is [None] while the field is absent or
    [undefined]; at run time it holds whatever [translateText] resolved
    to. *)
Record Subtitle : Type := mkSubtitle {
  id : string;
  text : string;
  language : string;
  startTime : Z;
  endTime : Z;
  confidence : number;
  translation : option Json
}.

Record MediaTrackConstraints : Type := mkTrackConstraints {
  sampleRate : number;
  channelCount : number;
  echoCancellation : bool;
  noiseSuppression : bool;
  autoGainControl : bool
}.

Record AudioProcessor : Type := mkProcessor {
  audioSettings : AudioSettings;
  subtitles : list Subtitle
}.

(** The overridable hooks. *)
Inductive Hook : Type :=
| onSubtitleUpdate (subtitle : Subtitle)
| onAudioSettingsChange (settings : AudioSettings).

Definition new_AudioProcessor (settings : AudioSettings) : AudioProcessor :=
  {| audioSettings := settings; subtitles := [] |}.

(** [getOptimalSampleRate] *)
Definition getOptimalSampleRate (a : AudioProcessor) : number :=
  if PrimFloat.leb (bitrate (audioSettings a)) 64%float then 16000%float
  else if PrimFloat.leb (bitrate (audioSettings a)) 128%float then 22050%float
  else if PrimFloat.leb (bitrate (audioSettings a)) 192%float then 32000%float
  else 44100%float.

(** [getAudioConstraints] *)
Definition getAudioConstraints (a : AudioProcessor) : MediaTrackConstraints :=
  {| sampleRate := getOptimalSampleRate a;
     channelCount := 1%float;
     echoCancellation := enableEchoCancellation (audioSettings a);
     noiseSuppression := enableNoiseReduction (audioSettings a);
     autoGainControl := enableAutoGainControl (audioSettings a) |}.

Definition with_bitrate (b : number) (s : AudioSettings) : AudioSettings :=
  {| bitrate := b;
     enableSubtitles := enableSubtitles s;
     enableTranslation := enableTranslation s;
     sourceLanguage := sourceLanguage s;
     targetLanguage := targetLanguage s;
     enableNoiseReduction := enableNoiseReduction s;
     enableEchoCancellation := enableEchoCancellation s;
     enableAutoGainControl := enableAutoGainControl s |}.

(** [adjustBitrate] *)
Definition adjustBitrate (newBitrate : number) (a : AudioProcessor)
  : AudioProcessor * list Hook :=
  if PrimFloat.ltb newBitrate 64%float || PrimFloat.ltb 328%float newBitrate
  then (a, [])
  else
    let settings := with_bitrate newBitrate (audioSettings a) in
    ({| audioSettings := settings; subtitles := subtitles a |},
     [onAudioSettingsChange settings]).

(** [enableUltraLowBandwidthMode] *)
Definition enableUltraLowBandwidthMode (a : AudioProcessor) : AudioProcessor * list Hook :=
  let settings :=
    {| bitrate := 64%float;
       enableSubtitles := enableSubtitles (audioSettings a);
       enableTranslation := enableTranslation (audioSettings a);
       sourceLanguage := sourceLanguage (audioSettings a);
       targetLanguage := targetLanguage (audioSettings a);
       enableNoiseReduction := true;
       enableEchoCancellation := true;
       enableAutoGainControl := true |} in
  ({| audioSettings := settings; subtitles := subtitles a |},
   [onAudioSettingsChange settings]).

(** [updateLanguages] *)
Definition updateLanguages (source target : string) (a : AudioProcessor) : AudioProcessor :=
  {| audioSettings :=
       {| bitrate := bitrate (audioSettings a);
          enableSubtitles := enableSubtitles (audioSettings a);
          enableTranslation := enableTranslation (audioSettings a);
          sourceLanguage := source;
          targetLanguage := target;
          enableNoiseReduction := enableNoiseReduction (audioSettings a);
          enableEchoCancellation := enableEchoCancellation (audioSettings a);
          enableAutoGainControl := enableAutoGainControl (audioSettings a) |};
     subtitles := subtitles a |}.

(** [getSubtitles] and [clearSubtitles] *)
Definition getSubtitles (a : AudioProcessor) : list Subtitle := subtitles a.

Definition clearSubtitles (a : AudioProcessor) : AudioProcessor :=
  {| audioSettings := audioSettings a; subtitles := [] |}.

(** What [fetch] and [response.json()] come to.  The body is what
    [response.json()] gives: it rejects, or it yields [null], an object, or
    another value. *)
Inductive Body : Type :=
| Unparsable
| ParsedNull
| ParsedObject (fields : gmap string Json)
| ParsedOther.

Inductive FetchOutcome : Type :=
| NetworkError
| Response (ok : bool) (body : Body).

(** [translateText]: the value the promise resolves to, [None] standing for
    [undefined].  Every failure, the [TypeError] raised by reading a field
    of [null] included, ends in the [catch], which returns [text]. *)
Definition translateText (outcome : FetchOutcome) (text : string) : option Json :=
  match outcome with
  | NetworkError => Some (JString text)
  | Response false _ => Some (JString text)
  | Response true Unparsable => Some (JString text)
  | Response true ParsedNull => Some (JString text)
  | Response true (ParsedObject data) => data !! "translation"
  | Response true ParsedOther => None
  end.

(** [text.length]: the number of UTF-16 code units of the text.  A string
    holds the UTF-8 encoding of the text: a character of one to three bytes
    is one unit, a character of four bytes is two. *)
Definition utf16_units (c : Ascii.ascii) : nat :=
  let byte := Ascii.nat_of_ascii c in
  if (byte <? 128)%nat then 1          (* a character of one byte *)
  else if (byte <? 192)%nat then 0     (* a continuation byte *)
  else if (byte <? 240)%nat then 1     (* the first of two or three bytes *)
  else 2.                              (* the first of four bytes *)

Fixpoint utf16_length (s : string) : nat :=
  match s with
  | EmptyString => 0
  | String c rest => utf16_units c + utf16_length rest
  end.

(** What one [processTranscript] call depends on: the three readings of
    [Date.now()], the recognised text and its confidence, and what the
    translation request comes to. *)
Record Transcript : Type := mkTranscript {
  now_id : Z;
  now_start : Z;
  now_end : Z;
  heard : string;
  heard_confidence : number;
  fetched : FetchOutcome
}.

(** [processTranscript].  The subtitle is built when the call is made; the
    push, the hook and the clean-up run together once the translation, if
    any, has resolved. *)
Definition processTranscript (t : Transcript) (a : AudioProcessor)
  : AudioProcessor * list Hook :=
  let subtitle :=
    {| id := pretty (now_id t);
       text := heard t;
       language := sourceLanguage (audioSettings a);
       startTime := now_start t;
       endTime := (now_end t + Z.of_nat (utf16_length (heard t)) * 100)%Z;
       confidence := heard_confidence t;
       translation := if enableTranslation (audioSettings a)
                      then translateText (fetched t) (heard t)
                      else None |} in
  let pushed := subtitles a ++ [subtitle] in
  ({| audioSettings := audioSettings a;
      subtitles := if (50 <? length pushed)%nat
                   then drop (length pushed - 50) pushed
                   else pushed |},
   [onSubtitleUpdate subtitle]).

(** The calls made on an AudioProcessor. *)
Inductive Call : Type :=
| ProcessTranscript (t : Transcript)
| AdjustBitrate (newBitrate : number)
| EnableUltraLowBandwidthMode
| UpdateLanguages (source target : string)
| ClearSubtitles.

Definition call (a : AudioProcessor) (c : Call) : AudioProcessor * list Hook :=
  match c with
  | ProcessTranscript t => processTranscript t a
  | AdjustBitrate newBitrate => adjustBitrate newBitrate a
  | EnableUltraLowBandwidthMode => enableUltraLowBandwidthMode a
  | UpdateLanguages source target => (updateLanguages source target a, [])
  | ClearSubtitles => (clearSubtitles a, [])
  end.

(** A sequence of calls: the final object and all the hook calls, in
    order. *)
Fixpoint calls (a : AudioProcessor) (cs : list Call) : AudioProcessor * list Hook :=
  match cs with
  | [] => (a, [])
  | c :: rest =>
      let '(a1, hooks1) := call a c in
      let '(a2, hooks2) := calls a1 rest in
      (a2, hooks1 ++ hooks2)
  end.

(** The subtitles passed to [onSubtitleUpdate]. *)
Definition reported (hooks : list Hook) : list Subtitle :=
  flat_map (fun h => match h with
                     | onSubtitleUpdate subtitle => [subtitle]
                     | onAudioSettingsChange _ => []
                     end) hooks.

(** The settings passed to [onAudioSettingsChange]. *)
Definition announced (hooks : list Hook) : list AudioSettings :=
  flat_map (fun h => match h with
                     | onSubtitleUpdate _ => []
                     | onAudioSettingsChange settings => [settings]
                     end) hooks.

End Audio.

(** ** app/api/audio/translate/route.ts: the POST handler *)

Module TranslateRoute.

Record TranslationRequest : Type := mkRequest {
  text : string;
  sourceLang : string;
  targetLang : string
}.

Record HttpResponse : Type := mkResponse {
  status : nat;
  body : gmap string Audio.Json
}.

(** [response.ok] *)
Definition ok (r : HttpResponse) : bool := (200 <=? status r)%nat && (status r <=? 299)%nat.

Section Handler.

(** The value left in [translation] by the look-up in [mockTranslations]
    (direct match, then partial match), for a text, a source and a target
    language.  The look-up goes through the prototype chain, so the value
    need not be a string; [None] stands for a value that [JSON.stringify]
    leaves out of an object, such as the function found under
    [constructor].  The handler is modelled for whatever this look-up
    gives. *)
Variable mock_translation : string -> string -> string -> option Audio.Json.

(** The two random draws: the confidence and the processing time. *)
Variable confidence : number.
Variable processingTime : string.

(** [POST].  [request] is [None] when [request.json()] rejects. *)
Definition POST (request : option TranslationRequest) : HttpResponse :=
  match request with
  | None =>
      {| status := 500; body := {[ "error" := Audio.JString "Translation failed" ]} |}
  | Some r =>
      if String.eqb (text r) "" || String.eqb (sourceLang r) ""
         || String.eqb (targetLang r) ""
      then {| status := 400;
              body := {[ "error" := Audio.JString
                           "Text, source language, and target language are required" ]} |}
      else
        let translation := mock_translation (text r) (sourceLang r) (targetLang r) in
        let unchanged := match translation with
                         | Some (Audio.JString s) => String.eqb s (text r)
                         | _ => false
                         end in
        let translation :=
          if unchanged && negb (String.eqb (sourceLang r) (targetLang r))
          then Some (Audio.JString ("[" ++ targetLang r ++ "] " ++ text r))
          else translation in
        let rest : gmap string Audio.Json :=
          <[ "sourceLang" := Audio.JString (sourceLang r) ]>
          (<[ "targetLang" := Audio.JString (targetLang r) ]>
          (<[ "confidence" := Audio.JNumber confidence ]>
          (<[ "processingTime" := Audio.JString processingTime ]> ∅))) in
        {| status := 200;
           body := <[ "success" := Audio.JBool true ]>
                   (<[ "originalText" := Audio.JString (text r) ]>
                   match translation with
                   | Some value => <[ "translatedText" := value ]> rest
                   | None => rest
                   end) |}
  end.

(** What the client's [fetch] of this route comes to when the request gets
    through: [response.json()] parses the object the handler sent. *)
Definition answer (request : option TranslationRequest) : Audio.FetchOutcome :=
  let r := POST request in
  Audio.Response (ok r) (Audio.ParsedObject (body r)).

End Handler.

End TranslateRoute.

(** ** webrtc.ts: messages, signals and the ultra-low bandwidth mode *)

Module Mesh.

Section Messages.

(** A message and the text [JSON.stringify] gives for it. *)
Context {Message : Type} (stringify : Message -> string).

(** [sendMessage]: the [peer.send] calls it makes, as the instance and the
    text sent. *)
Definition sendMessage (peerId : string) (message : Message) (s : WebRTC.Session)
  : list (WebRTC.ref * string) :=
  match WebRTC.peers (WebRTC.engine s) !! peerId with
  | Some connection =>
      if WebRTC.is_connected (WebRTC.peer connection) s
      then [(WebRTC.peer connection, stringify message)]
      else []
  | None => []
  end.

(** [broadcastMessage]: the [peer.send] calls of the [forEach]. *)
Definition broadcastMessage (message : Message) (s : WebRTC.Session)
  : list (WebRTC.ref * string) :=
  map_fold (fun _ connection sent =>
              if WebRTC.is_connected (WebRTC.peer connection) s
              then sent ++ [(WebRTC.peer connection, stringify message)]
              else sent)
           [] (WebRTC.peers (WebRTC.engine s)).

End Messages.

(** [handleSignal]: the instance [signal] is called on, if any. *)
Definition handleSignal (peerId : string) (s : WebRTC.Session) : option WebRTC.ref :=
  match WebRTC.peers (WebRTC.engine s) !! peerId with
  | Some connection => Some (WebRTC.peer connection)
  | None => None
  end.

(** [getCurrentQuality] *)
Definition getCurrentQuality (s : WebRTC.Session) : VideoQuality :=
  name (getCurrentTier (WebRTC.qualityManager (WebRTC.engine s))).

(** [QualityManager.getUltraLowBandwidthConstraints] *)
Record UltraLowConstraints : Type := mkUltraLow {
  width_ideal : number;
  height_ideal : number;
  frameRate_ideal : number;
  frameRate_max : number;
  facingMode : string;
  audio_sampleRate : number;
  audio_channelCount : number;
  audio_echoCancellation : bool;
  audio_noiseSuppression : bool;
  audio_autoGainControl : bool
}.

Definition getUltraLowBandwidthConstraints : UltraLowConstraints :=
  {| width_ideal := 256%float;
     height_ideal := 144%float;
     frameRate_ideal := 10%float;
     frameRate_max := 15%float;
     facingMode := "user";
     audio_sampleRate := 16000%float;
     audio_channelCount := 1%float;
     audio_echoCancellation := true;
     audio_noiseSuppression := true;
     audio_autoGainControl := true |}.

(** The WebRTCManager with its audio processor: the session, the processor,
    the hook calls of the processor, and the streams whose tracks were
    stopped. *)
Record Studio : Type := mkStudio {
  session : WebRTC.Session;
  audioProcessor : Audio.AudioProcessor;
  audio_hooks : list Audio.Hook;
  stopped : list WebRTC.MediaStream
}.

(** [constructor(config, audioSettings)] *)
Definition new_Studio (cfg : WebRTC.WebRTCConfig) (settings : Audio.AudioSettings) : Studio :=
  {| session := WebRTC.new_Session cfg;
     audioProcessor := Audio.new_AudioProcessor settings;
     audio_hooks := [];
     stopped := [] |}.

(** [connection.peer.streams = [newStream]] *)
Definition set_streams (newStream : WebRTC.MediaStream) (i : WebRTC.Instance) : WebRTC.Instance :=
  {| WebRTC.initiator := WebRTC.initiator i;
     WebRTC.outgoing := Some newStream;
     WebRTC.connected := WebRTC.connected i;
     WebRTC.destroying := WebRTC.destroying i;
     WebRTC.destroyed := WebRTC.destroyed i;
     WebRTC.handlers_id := WebRTC.handlers_id i |}.

(** The [forEach] of [enableUltraLowBandwidthMode]: every connected peer of
    the table gets the new stream. *)
Definition update_peers (newStream : WebRTC.MediaStream) (s : WebRTC.Session) : WebRTC.Session :=
  map_fold (fun _ connection s' =>
              if WebRTC.is_connected (WebRTC.peer connection) s'
              then WebRTC.with_instances
                     (alter (set_streams newStream) (WebRTC.peer connection)
                            (WebRTC.instances s')) s'
              else s')
           s (WebRTC.peers (WebRTC.engine s)).

(** [enableUltraLowBandwidthMode].  [acquired] is what
    [getUserMedia(getUltraLowBandwidthConstraints())] comes to; a rejection
    is caught and logged. *)
Definition enableUltraLowBandwidthMode (acquired : WebRTC.MediaStream + string) (st : Studio)
  : Studio :=
  match acquired with
  | inr _ => st
  | inl newStream =>
      let old := match WebRTC.localStream (WebRTC.engine (session st)) with
                 | Some m => [m]
                 | None => []
                 end in
      let s := WebRTC.with_localStream newStream (session st) in
      let s := WebRTC.engine_setQuality "144p" s in
      let s := update_peers newStream s in
      let '(a, hooks) := Audio.enableUltraLowBandwidthMode (audioProcessor st) in
      {| session := WebRTC.emit [WebRTC.onLocalStreamReady newStream] s;
         audioProcessor := a;
         audio_hooks := audio_hooks st ++ hooks;
         stopped := stopped st ++ old |}
  end.

End Mesh.

(** ** app/room/[id]/page.tsx: quality selection, subtitles and chat *)

Module Controls.

(** The page holds a QualityManager of its own, beside the one inside the
    WebRTCManager. *)
Record Page : Type := mkPage {
  qualityManager : QualityManager;
  currentQuality : VideoQuality;
  webrtcManager : Mesh.Studio
}.

Definition mounted (settings : Audio.AudioSettings) : Page :=
  {| qualityManager := new_QualityManager None;
     currentQuality := "720p";
     webrtcManager :=
       Mesh.new_Studio
         {| WebRTC.stunServers := ["stun:stun.l.google.com:19302"];
            WebRTC.turnServers := None;
            WebRTC.maxPeers := 50 |}
         settings |}.

(** [handleQualityChange] *)
Definition handleQualityChange (acquired : WebRTC.MediaStream + string)
    (quality : VideoQuality) (p : Page) : Page :=
  {| qualityManager := fst (setQuality quality (qualityManager p));
     currentQuality := quality;
     webrtcManager := if String.eqb quality "144p"
                      then Mesh.enableUltraLowBandwidthMode acquired (webrtcManager p)
                      else webrtcManager p |}.

(** The [onSubtitleUpdate] handler of the page:
    [prev => [...prev.slice(-9), subtitle]] *)
Definition onSubtitleUpdate (subtitle : Audio.Subtitle) (prev : list Audio.Subtitle)
  : list Audio.Subtitle :=
  slice_last 9 prev ++ [subtitle].

(** The page's list after the hook calls of the processor, oldest first. *)
Definition subtitles_after (hooks : list Audio.Hook) (prev : list Audio.Subtitle)
  : list Audio.Subtitle :=
  fold_left (fun l subtitle => onSubtitleUpdate subtitle l) (Audio.reported hooks) prev.

(** The subtitles the overlay renders: [subtitles.slice(-3)]. *)
Definition overlay (subtitles : list Audio.Subtitle) : list Audio.Subtitle :=
  slice_last 3 subtitles.

(** A chat message. *)
Record ChatMessage : Type := mkChatMessage {
  message_id : Z;
  sender : string;
  message_text : string;
  timestamp : Z;
  type : string
}.

Record Chat : Type := mkChat {
  chatMessages : list ChatMessage;
  adminMessages : list ChatMessage;
  newMessage : string;
  newAdminMessage : string
}.

Section Sending.

(** [String.prototype.trim] and [JSON.stringify]. *)
Variable trim : string -> string.
Variable stringify : ChatMessage -> string.

(** The user, and the two clock readings of a call: [Date.now()] and
    [new Date()]. *)
Variable userName : string.
Variable isAdmin : bool.
Variable now : Z.
Variable today : Z.

(** [sendChatMessage]: the new state and the [peer.send] calls. *)
Definition sendChatMessage (s : WebRTC.Session) (c : Chat)
  : Chat * list (WebRTC.ref * string) :=
  if String.eqb (trim (newMessage c)) "" then (c, []) else
  let message := {| message_id := now; sender := userName;
                    message_text := newMessage c; timestamp := today;
                    type := "chat" |} in
  ({| chatMessages := chatMessages c ++ [message];
      adminMessages := adminMessages c;
      newMessage := "";
      newAdminMessage := newAdminMessage c |},
   Mesh.broadcastMessage stringify message s).

(** [sendAdminMessage] *)
Definition sendAdminMessage (s : WebRTC.Session) (c : Chat)
  : Chat * list (WebRTC.ref * string) :=
  if String.eqb (trim (newAdminMessage c)) "" || negb isAdmin then (c, []) else
  let message := {| message_id := now; sender := userName;
                    message_text := newAdminMessage c; timestamp := today;
                    type := "admin" |} in
  ({| chatMessages := chatMessages c;
      adminMessages := adminMessages c ++ [message];
      newMessage := newMessage c;
      newAdminMessage := "" |},
   Mesh.broadcastMessage stringify message s).

End Sending.

End Controls.

(** ** From the sampler to the page

    The reports the page receives through [onConnectionStatsUpdate] for the
    hooks a session emitted, in order. *)
Definition reports_of (hooks : list WebRTC.Hook) : list (string * Room.Report) :=
  flat_map (fun hook => match hook with
                        | WebRTC.onConnectionStatsUpdate peerId stats =>
                            [(peerId, Room.report_of_stats stats)]
                        | _ => []
                        end) hooks.

(** ** Vocabulary of the properties *)

(** One line of the catalog table: resolution, frame rate, video, audio and
    total bandwidth. *)
Definition table_row (t : QualityTier) : number * number * number * number * number * number :=
  (width (resolution t), height (resolution t), frameRate t,
   videoBitrate t, audioBitrate t, totalBandwidth t).

(** [poorer a b]: [b] needs strictly less bandwidth than [a]. *)
Definition poorer (a b : QualityTier) : Prop :=
  PrimFloat.ltb (totalBandwidth b) (totalBandwidth a) = true.

(** The tier's requirement is at most the buffered bandwidth. *)
Definition fits (buffered : number) (t : QualityTier) : bool :=
  PrimFloat.leb (totalBandwidth t) buffered.

(** [t] is the first tier that fits, scanning the catalog from the richest
    tier down; when no tier fits, [t] is the audio-only floor. *)
Definition first_fit (buffered : number) (t : QualityTier) : Prop :=
  (exists richer rest,
      QUALITY_TIERS = richer ++ t :: rest
      /\ fits buffered t = true
      /\ Forall (fun r => fits buffered r = false) richer)
  \/ (Forall (fun r => fits buffered r = false) QUALITY_TIERS /\ t = tier_audio_only).

(** A name of the catalog. *)
Definition recognised (quality : VideoQuality) : Prop :=
  exists t, In t QUALITY_TIERS /\ name t = quality.

(** Consecutive times are at least [gap] apart. *)
Definition spaced (gap : Z) (times : list Z) : Prop :=
  StronglySorted (fun a b => (a + gap <= b)%Z) times.

(** What holds of a quality manager and its timers after any sequence of
    turns: the tier is a catalog entry, the window is bounded, the only
    pending timer is the stored one, it is due no earlier than 2000 ms after
    every automatic change made so far, and those changes are 2000 ms
    apart. *)
Record Loop_inv (w : Loop) : Prop := mkLoopInv {
  inv_tier : In (currentTier (manager w)) QUALITY_TIERS;
  inv_window : (length (bandwidthHistory (manager w)) <= 10)%nat;
  inv_sampled : forall h due,
      timeouts w !! h = Some due -> bandwidthHistory (manager w) <> [];
  inv_single : forall h due,
      timeouts w !! h = Some due -> stabilizationTimer (manager w) = Some h;
  inv_due : forall h due,
      timeouts w !! h = Some due ->
      Forall (fun c => (c + 2000 <= due)%Z) (automatic_times (changes w));
  inv_past : Forall (fun c => (change_time c <= clock w)%Z) (changes w);
  inv_spaced : spaced 2000 (automatic_times (changes w))
}.

(** What holds of a session at any point of any sequence of commands: a
    destroyed instance is not connected and no longer being destroyed; an
    instance that is neither destroyed nor being destroyed is the one the
    table holds for the identifier of its handlers; every connection of the
    table has its instance, registered under the same identifier; the
    microtask of every instance being destroyed is queued;
    references are handed out in increasing order; and the instance a
    sampler watches exists and carries the sampler's identifier. *)
Record Session_inv (s : WebRTC.Session) : Prop := mkSessionInv {
  inv_destroyed : forall r i,
      WebRTC.instances s !! r = Some i ->
      WebRTC.destroyed i = true ->
      WebRTC.connected i = false /\ WebRTC.destroying i = false;
  inv_live : forall r i,
      WebRTC.instances s !! r = Some i ->
      WebRTC.destroyed i = false -> WebRTC.destroying i = false ->
      exists c, WebRTC.peers (WebRTC.engine s) !! WebRTC.handlers_id i = Some c
                /\ WebRTC.peer c = r;
  inv_table : forall peerId c,
      WebRTC.peers (WebRTC.engine s) !! peerId = Some c ->
      exists i, WebRTC.instances s !! WebRTC.peer c = Some i
                /\ WebRTC.handlers_id i = peerId;
  inv_queue : forall r i,
      WebRTC.instances s !! r = Some i ->
      WebRTC.destroying i = true -> In r (WebRTC.microtasks s);
  inv_fresh : forall r i,
      WebRTC.instances s !! r = Some i -> (r < WebRTC.next_instance s)%positive;
  inv_sampler : forall h m,
      WebRTC.intervals s !! h = Some m ->
      exists i, WebRTC.instances s !! WebRTC.sampler_peer m = Some i
                /\ WebRTC.handlers_id i = WebRTC.sampler_peerId m
}.

(** No [onConnectionStatsUpdate] call for [peerId] among the hook calls. *)
Definition silent_for (peerId : string) (calls : list WebRTC.Hook) : Prop :=
  forall stats, ~ In (WebRTC.onConnectionStatsUpdate peerId stats) calls.

(** A bitrate the audio processor supports: a number from 64 to 328. *)
Definition supported_bitrate (b : number) : Prop :=
  PrimFloat.leb 64%float b = true /\ PrimFloat.leb b 328%float = true.

(** A call that does not pass NaN to [adjustBitrate]. *)
Definition numeric_call (c : Audio.Call) : Prop :=
  match c with
  | Audio.AdjustBitrate newBitrate => PrimFloat.eqb newBitrate newBitrate = true
  | _ => True
  end.

(** The instance [r] belongs to a connection of the table and is
    connected. *)
Definition reachable_peer (s : WebRTC.Session) (r : WebRTC.ref) : Prop :=
  exists peerId connection,
    WebRTC.peers (WebRTC.engine s) !! peerId = Some connection
    /\ WebRTC.peer connection = r
    /\ WebRTC.is_connected r s = true.

(** Every connection of the table is filed under its own identifier and has
    an instance that is not destroyed. *)
Definition table_live (s : WebRTC.Session) : Prop :=
  forall peerId connection,
    WebRTC.peers (WebRTC.engine s) !! peerId = Some connection ->
    WebRTC.id connection = peerId
    /\ exists i, WebRTC.instances s !! WebRTC.peer connection = Some i
                 /\ WebRTC.destroyed i = false.

(** A report without a bandwidth field, or a render. *)
Definition without_bandwidth (e : Room.Event) : Prop :=
  match e with
  | Room.Reported _ stats => Room.stats_bandwidth stats = None
  | Room.Rendered => True
  end.

(** The page was told of a bandwidth of 1000 and has not rendered since it
    was mounted; the page has rendered it and passed it on, once. *)
Definition awaiting_render (p : Room.Page) : Prop :=
  Room.bandwidth (Room.connectionStats p) = 1000%float
  /\ Room.rendered_bandwidth p = 0%float
  /\ Room.adjustQuality_calls p = [].

Definition passed_on (p : Room.Page) : Prop :=
  Room.bandwidth (Room.connectionStats p) = 1000%float
  /\ Room.rendered_bandwidth p = 1000%float
  /\ Room.adjustQuality_calls p = [1000%float].

(** Only [onPeerDisconnected] among the hook calls. *)
Definition only_disconnections (calls : list WebRTC.Hook) : Prop :=
  Forall (fun hook => exists peerId, hook = WebRTC.onPeerDisconnected peerId) calls.

(** ** The tier catalog *)

Lemma catalog_cases (P : QualityTier -> Prop) :
  P tier_1080p -> P tier_720p -> P tier_480p -> P tier_240p -> P tier_144p ->
  P tier_audio_only ->
  forall t, In t QUALITY_TIERS -> P t.
Proof.
  intros H1 H2 H3 H4 H5 H6 t Hin.
  unfold QUALITY_TIERS in Hin; simpl in Hin.
  destruct Hin as [<-|[<-|[<-|[<-|[<-|[<-|[]]]]]]]; assumption.
Qed.

Lemma find_tier_name (t : QualityTier) :
  In t QUALITY_TIERS -> find_tier (name t) = Some t.
Proof. revert t. apply catalog_cases; reflexivity. Qed.

Lemma find_tier_in (quality : VideoQuality) (t : QualityTier) :
  find_tier quality = Some t -> In t QUALITY_TIERS /\ name t = quality.
Proof.
  unfold find_tier. intros H. apply find_some in H as [Hin Heq].
  split; [exact Hin|]. now apply String.eqb_eq.
Qed.

Lemma find_tier_unrecognised (quality : VideoQuality) :
  ~ recognised quality -> find_tier quality = None.
Proof.
  intros Hno. destruct (find_tier quality) as [t|] eqn:E; [|reflexivity].
  exfalso. apply Hno. exists t. now apply find_tier_in.
Qed.

Lemma names_unique (a b : QualityTier) :
  In a QUALITY_TIERS -> In b QUALITY_TIERS -> name a = name b -> a = b.
Proof.
  intros Ha Hb Hn.
  pose proof (find_tier_name a Ha) as Fa.
  pose proof (find_tier_name b Hb) as Fb.
  rewrite Hn in Fa. congruence.
Qed.

(** C5. The catalog is the table of the specification, line by line; every
    total is the sum of the video and audio bitrates; totals decrease
    strictly from the richest tier to the last one; the last tier is the
    audio-only tier, has no video bitrate and needs the least bandwidth. *)
Theorem catalog_table :
  map table_row QUALITY_TIERS =
    [ (1920, 1080, 30, 2000, 328, 2328);
      (1280, 720, 30, 1200, 256, 1456);
      (854, 480, 25, 800, 192, 992);
      (426, 240, 20, 400, 128, 528);
      (256, 144, 15, 150, 96, 246);
      (0, 0, 0, 0, 64, 64) ]%float
  /\ Forall (fun t => PrimFloat.add (videoBitrate t) (audioBitrate t) = totalBandwidth t)
            QUALITY_TIERS
  /\ StronglySorted poorer QUALITY_TIERS
  /\ last QUALITY_TIERS = Some tier_audio_only
  /\ name tier_audio_only = "audio-only"
  /\ videoBitrate tier_audio_only = 0%float
  /\ Forall (fun t => t = tier_audio_only \/ poorer t tier_audio_only) QUALITY_TIERS.
Proof.
  split; [reflexivity|].
  split; [repeat constructor|].
  split; [unfold QUALITY_TIERS, poorer; repeat constructor|].
  split; [reflexivity|].
  split; [reflexivity|].
  split; [reflexivity|].
  unfold QUALITY_TIERS, poorer.
  repeat (apply List.Forall_cons; [first [right; reflexivity | left; reflexivity]|]).
  apply List.Forall_nil.
Qed.

(** ** The quality manager *)

Ltac in_catalog :=
  unfold QUALITY_TIERS; simpl; repeat (first [left; reflexivity | right]).

Lemma getRecommendedTier_in (bandwidth : number) :
  In (getRecommendedTier bandwidth) QUALITY_TIERS.
Proof.
  unfold getRecommendedTier.
  destruct (find _ QUALITY_TIERS) as [t|] eqn:E.
  - now apply find_some in E.
  - in_catalog.
Qed.

(** [find] returns the first element that passes the test. *)
Lemma find_first {A : Type} (f : A -> bool) (l : list A) :
  match List.find f l with
  | Some x => exists before after,
      l = before ++ x :: after /\ f x = true /\ Forall (fun y => f y = false) before
  | None => Forall (fun y => f y = false) l
  end.
Proof.
  induction l as [|a l IH]; cbn.
  - constructor.
  - destruct (f a) eqn:Ea.
    + exists [], l. repeat split; [exact Ea | constructor].
    + destruct (List.find f l) as [x|].
      * destruct IH as (before & after & -> & Hx & Hb).
        exists (a :: before), after. repeat split; [exact Hx | now constructor].
      * now constructor.
Qed.

Lemma getRecommendedTier_first_fit (bandwidth : number) :
  first_fit (bufferedBandwidth bandwidth) (getRecommendedTier bandwidth).
Proof.
  unfold getRecommendedTier, first_fit.
  pose proof (find_first
    (fun tier => num_ge (bufferedBandwidth bandwidth) (totalBandwidth tier))
    QUALITY_TIERS) as H.
  destruct (List.find _ QUALITY_TIERS) as [t|].
  - left. destruct H as (before & after & Heq & Ht & Hb).
    exists before, after. repeat split; assumption.
  - right. split; [exact H | reflexivity].
Qed.

(** After [adjustQuality] the current tier is the recommended one, and the
    hook was called exactly when the tier changed. *)
Lemma adjustQuality_commits (q : QualityManager) :
  In (currentTier q) QUALITY_TIERS ->
  currentTier (fst (adjustQuality q)) = getRecommendedTier (getAverageBandwidth q)
  /\ bandwidthHistory (fst (adjustQuality q)) = bandwidthHistory q
  /\ stabilizationTimer (fst (adjustQuality q)) = stabilizationTimer q
  /\ (snd (adjustQuality q) = []
      \/ snd (adjustQuality q) = [getRecommendedTier (getAverageBandwidth q)]).
Proof.
  intros Hin. unfold adjustQuality.
  destruct (String.eqb _ _) eqn:E; cbn.
  - apply String.eqb_eq in E.
    repeat split; [|now left].
    symmetry. apply names_unique;
      [apply getRecommendedTier_in | exact Hin | exact E].
  - repeat split. now right.
Qed.

Lemma setQuality_effect (quality : VideoQuality) (q : QualityManager) :
  bandwidthHistory (fst (setQuality quality q)) = bandwidthHistory q
  /\ stabilizationTimer (fst (setQuality quality q)) = stabilizationTimer q
  /\ (In (currentTier q) QUALITY_TIERS ->
      In (currentTier (fst (setQuality quality q))) QUALITY_TIERS).
Proof.
  unfold setQuality. destruct (find_tier quality) as [t|] eqn:E; cbn.
  - repeat split. intros _. now apply find_tier_in in E.
  - repeat split. tauto.
Qed.

Lemma push_sample_length (history : list number) (bandwidth : number) :
  (length history <= 10)%nat -> (length (push_sample history bandwidth) <= 10)%nat.
Proof.
  intros H. unfold push_sample.
  destruct (Nat.ltb_spec 10 (length (history ++ [bandwidth]))) as [Hfull|Hroom].
  - destruct history as [|x rest]; cbn in *; [lia|].
    rewrite length_app in *. cbn in *. lia.
  - exact Hroom.
Qed.

(** The window after a push: the new sample goes last, and the oldest one is
    dropped when ten samples were already held. *)
Lemma push_sample_window (history : list number) (bandwidth : number) :
  (length history <= 10)%nat ->
  push_sample history bandwidth =
    (if (length history =? 10)%nat then tail history else history) ++ [bandwidth].
Proof.
  intros H. unfold push_sample. rewrite length_app. cbn [length].
  destruct (Nat.eqb_spec (length history) 10) as [Hfull|Hroom].
  - replace (10 <? length history + 1)%nat with true
      by (symmetry; apply Nat.ltb_lt; lia).
    destruct history; [discriminate Hfull | reflexivity].
  - replace (10 <? length history + 1)%nat with false
      by (symmetry; apply Nat.ltb_ge; lia).
    reflexivity.
Qed.

Lemma automatic_times_app (a b : list Change) :
  automatic_times (a ++ b) = automatic_times a ++ automatic_times b.
Proof. unfold automatic_times. now rewrite List.filter_app, map_app. Qed.

Lemma spaced_snoc (gap : Z) (times : list Z) (t : Z) :
  spaced gap times -> Forall (fun a => (a + gap <= t)%Z) times -> spaced gap (times ++ [t]).
Proof.
  unfold spaced. induction 1 as [|a l Hsorted IH Hall]; intros Hnew; cbn.
  - repeat constructor.
  - inversion Hnew as [|? ? Ha Hl]; subst.
    constructor; [now apply IH|].
    apply List.Forall_app. split; [exact Hall | now repeat constructor].
Qed.

(** ** The quality manager and its timer *)

Lemma boot_inv (initialQuality : option VideoQuality) : Loop_inv (boot initialQuality).
Proof.
  constructor; cbn [boot manager timeouts changes clock new_QualityManager
                     currentTier bandwidthHistory stabilizationTimer].
  - destruct (find_tier (default "720p" initialQuality)) as [t|] eqn:E; cbn.
    + now apply find_tier_in in E.
    + in_catalog.
  - cbn. lia.
  - intros h due H. rewrite lookup_empty in H. discriminate.
  - intros h due H. rewrite lookup_empty in H. discriminate.
  - intros h due H. rewrite lookup_empty in H. discriminate.
  - constructor.
  - constructor.
Qed.

Lemma at_time_inv (w : Loop) (t : Z) :
  Loop_inv w -> (clock w <= t)%Z -> Loop_inv (at_time t w).
Proof.
  intros [I1 I2 I3 I4 I5 I6 I7] Ht. constructor; cbn; try assumption.
  eapply List.Forall_impl; [|exact I6]. cbn. intros c Hc. lia.
Qed.

Lemma clear_stored_empty (w : Loop) :
  Loop_inv w -> clear_stored (stabilizationTimer (manager w)) (timeouts w) = ∅.
Proof.
  intros I. apply map_empty. intros h.
  destruct (clear_stored _ _ !! h) as [due|] eqn:E; [|reflexivity].
  exfalso. unfold clear_stored in E.
  destruct (stabilizationTimer (manager w)) as [h0|] eqn:Es.
  - destruct (decide (h = h0)) as [->|Hne].
    + rewrite lookup_delete_eq in E. discriminate.
    + rewrite lookup_delete_ne in E by congruence.
      apply (inv_single _ I) in E. congruence.
  - apply (inv_single _ I) in E. congruence.
Qed.

(** After [updateBandwidth] exactly one timer is pending: the new one. *)
Lemma updateBandwidth_timeouts (bandwidth : number) (w : Loop) :
  Loop_inv w ->
  timeouts (updateBandwidth bandwidth w) = {[ next_handle w := (clock w + 2000)%Z ]}.
Proof.
  intros I. unfold updateBandwidth; cbn [timeouts].
  rewrite (clear_stored_empty w I). apply insert_empty.
Qed.

Lemma updateBandwidth_inv (bandwidth : number) (w : Loop) :
  Loop_inv w -> Loop_inv (updateBandwidth bandwidth w).
Proof.
  intros I.
  pose proof (updateBandwidth_timeouts bandwidth w I) as Ht.
  constructor.
  - exact (inv_tier _ I).
  - cbn. apply push_sample_length, (inv_window _ I).
  - intros h due _. cbn.
    rewrite (push_sample_window _ _ (inv_window _ I)).
    intros Hnil. apply app_eq_nil in Hnil as [_ Hnil]. discriminate.
  - intros h due H. rewrite Ht in H.
    apply lookup_singleton_Some in H as [<- _]. reflexivity.
  - intros h due H. rewrite Ht in H.
    apply lookup_singleton_Some in H as [_ <-].
    cbn [changes updateBandwidth].
    pose proof (inv_past _ I) as Hpast.
    unfold automatic_times.
    induction (changes w) as [|c cs IH]; cbn; [constructor|].
    inversion Hpast as [|? ? Hc Hcs]; subst.
    destruct (change_origin c); cbn; [constructor; [lia|]|]; now apply IH.
  - exact (inv_past _ I).
  - exact (inv_spaced _ I).
Qed.

Lemma call_setQuality_inv (quality : VideoQuality) (w : Loop) :
  Loop_inv w -> Loop_inv (call_setQuality quality w).
Proof.
  intros I. unfold call_setQuality.
  pose proof (setQuality_effect quality (manager w)) as (Hh & Hs & Hin).
  assert (Hauto : automatic_times (record_changes (clock w) Manual
                                     (snd (setQuality quality (manager w)))) = []).
  { unfold setQuality. destruct (find_tier quality); reflexivity. }
  destruct (setQuality quality (manager w)) as [q changed]; cbn [fst snd] in *.
  constructor; cbn [manager timeouts changes clock].
  - apply Hin, (inv_tier _ I).
  - rewrite Hh. exact (inv_window _ I).
  - intros h due H. rewrite Hh. exact (inv_sampled _ I h due H).
  - intros h due H. rewrite Hs. exact (inv_single _ I h due H).
  - intros h due H. rewrite automatic_times_app, Hauto, app_nil_r.
    exact (inv_due _ I h due H).
  - apply List.Forall_app. split; [exact (inv_past _ I)|].
    unfold record_changes. apply List.Forall_forall. intros c Hc.
    apply in_map_iff in Hc as (t & <- & _). cbn. lia.
  - rewrite automatic_times_app, Hauto, app_nil_r. exact (inv_spaced _ I).
Qed.

Lemma run_timeout_inv (h : handle) (due : Z) (w : Loop) :
  Loop_inv w -> timeouts w !! h = Some due -> (due <= clock w)%Z ->
  Loop_inv (run_timeout h w).
Proof.
  intros I Hh Hdue. unfold run_timeout.
  pose proof (adjustQuality_commits (manager w) (inv_tier _ I)) as (Hc & Hw & Hs & Hem).
  assert (Hgone : forall h' due', delete h (timeouts w) !! h' = Some due' -> False).
  { intros h' due' H. apply lookup_delete_Some in H as [Hne H].
    apply (inv_single _ I) in H. apply (inv_single _ I) in Hh. congruence. }
  assert (Hold : Forall (fun a => (a + 2000 <= clock w)%Z) (automatic_times (changes w))).
  { eapply List.Forall_impl; [|exact (inv_due _ I h due Hh)]. cbn. intros a Ha. lia. }
  destruct (adjustQuality (manager w)) as [q emitted]; cbn [fst snd] in *.
  constructor; cbn [manager timeouts changes clock].
  - rewrite Hc. apply getRecommendedTier_in.
  - rewrite Hw. exact (inv_window _ I).
  - intros h' due' H. destruct (Hgone h' due' H).
  - intros h' due' H. destruct (Hgone h' due' H).
  - intros h' due' H. destruct (Hgone h' due' H).
  - apply List.Forall_app. split; [exact (inv_past _ I)|].
    unfold record_changes. apply List.Forall_forall. intros c Hin.
    apply in_map_iff in Hin as (t & <- & _). cbn. lia.
  - rewrite automatic_times_app.
    destruct Hem as [-> | ->]; cbn.
    + rewrite app_nil_r. exact (inv_spaced _ I).
    + apply spaced_snoc; [exact (inv_spaced _ I) | exact Hold].
Qed.

Lemma step_inv (w w' : Loop) (ta : Z * Action) :
  Loop_inv w -> step w ta = Some w' -> Loop_inv w'.
Proof.
  intros I. destruct ta as [t a]. unfold step.
  destruct (Z.ltb_spec t (clock w)) as [|Ht]; [discriminate|].
  pose proof (at_time_inv w t I Ht) as I'.
  destruct a as [bandwidth | quality | h].
  - intros [= <-]. now apply updateBandwidth_inv.
  - intros [= <-]. now apply call_setQuality_inv.
  - destruct (timeouts (at_time t w) !! h) as [due|] eqn:Eh; [|discriminate].
    destruct (Z.leb_spec due t) as [Hdue|]; [|discriminate].
    intros [= <-]. now apply (run_timeout_inv h due).
Qed.

Lemma run_inv (trace : list (Z * Action)) (w w' : Loop) :
  Loop_inv w -> run w trace = Some w' -> Loop_inv w'.
Proof.
  revert w. induction trace as [|ta rest IH]; intros w I; cbn.
  - now intros [= <-].
  - destruct (step w ta) as [w1|] eqn:E; [|discriminate].
    apply IH. exact (step_inv w w1 ta I E).
Qed.

(** What a timer callback does to the tier of a manager in a reachable
    state. *)
Lemma timeout_commits (w w' : Loop) (t : Z) (h : handle) :
  Loop_inv w -> step w (t, Timeout h) = Some w' ->
  getCurrentTier (manager w') = getRecommendedTier (getAverageBandwidth (manager w)).
Proof.
  intros I. unfold step.
  destruct (t <? clock w)%Z; [discriminate|].
  destruct (timeouts (at_time t w) !! h) as [due|]; [|discriminate].
  destruct (due <=? t)%Z; [|discriminate].
  intros [= <-]. unfold run_timeout.
  pose proof (adjustQuality_commits (manager w) (inv_tier _ I)) as (Hc & _).
  cbn [at_time manager].
  destruct (adjustQuality (manager w)) as [q emitted]; cbn in *. exact Hc.
Qed.

(** A window that holds one value only. *)
Lemma sustained_window (x : number) (history : list number) :
  (length history <= 10)%nat -> history <> [] -> Forall (eq x) history ->
  exists n, (n < 10)%nat /\ history = repeat x (S n).
Proof.
  intros Hlen Hne Hall. exists (pred (length history)).
  destruct history as [|y rest]; [congruence|]. cbn in *. split; [lia|].
  inversion Hall as [|? ? <- Hrest]; subst. f_equal.
  clear -Hrest. induction Hrest as [|z l <- _ IH]; cbn; congruence.
Qed.

Lemma timeout_enabled (w w' : Loop) (t : Z) (h : handle) :
  step w (t, Timeout h) = Some w' -> exists due, timeouts w !! h = Some due.
Proof.
  unfold step. destruct (t <? clock w)%Z; [discriminate|]. cbn [at_time timeouts].
  destruct (timeouts w !! h) as [due|]; [|discriminate]. now exists due.
Qed.

Lemma average_of_window (q : QualityManager) (history : list number) :
  bandwidthHistory q = history ->
  getAverageBandwidth q =
    match history with
    | [] => 0%float
    | _ => PrimFloat.div (fold_left PrimFloat.add history 0%float)
                         (num_of_nat (length history))
    end.
Proof.
  intros <-. unfold getAverageBandwidth.
  destruct (bandwidthHistory q); reflexivity.
Qed.

(** C2. When the timer set by [updateBandwidth] fires, the estimate is the
    sum of the window divided by its length, the buffered value is the
    estimate times 0.8, and the tier committed is the first catalog tier,
    from the richest down, whose total bandwidth is at most the buffered
    value, or the audio-only floor when there is none.  When every sample of
    the window is 2500, the estimate is 2500, the buffered value 2000 and
    the tier is the 720p tier, whose total is 1456. *)
Theorem timer_selects_first_fit
    (initialQuality : option VideoQuality) (trace : list (Z * Action))
    (w w' : Loop) (t : Z) (h : handle) :
  run (boot initialQuality) trace = Some w ->
  step w (t, Timeout h) = Some w' ->
  let window := bandwidthHistory (manager w) in
  let estimate := getAverageBandwidth (manager w) in
  let buffered := PrimFloat.mul estimate 0.8%float in
  estimate = PrimFloat.div (fold_left PrimFloat.add window 0%float)
                           (num_of_nat (length window))
  /\ first_fit buffered (getCurrentTier (manager w'))
  /\ (Forall (eq 2500%float) window ->
      estimate = 2500%float /\ buffered = 2000%float
      /\ getCurrentTier (manager w') = tier_720p
      /\ totalBandwidth tier_720p = 1456%float).
Proof.
  intros Hrun Hstep window estimate buffered.
  pose proof (run_inv trace _ _ (boot_inv initialQuality) Hrun) as I.
  destruct (timeout_enabled _ _ _ _ Hstep) as [due Hdue].
  pose proof (inv_sampled _ I h due Hdue) as Hne.
  pose proof (timeout_commits w w' t h I Hstep) as Hc.
  split; [|split].
  - subst estimate window. rewrite (average_of_window _ _ eq_refl).
    destruct (bandwidthHistory (manager w)); [congruence | reflexivity].
  - rewrite Hc. apply getRecommendedTier_first_fit.
  - intros Hall.
    destruct (sustained_window _ _ (inv_window _ I) Hne Hall) as (n & Hn & Hw).
    assert (He : estimate = 2500%float).
    { subst estimate. rewrite (average_of_window _ _ Hw).
      do 10 (destruct n as [|n]; [reflexivity|]). lia. }
    subst buffered. rewrite Hc. fold estimate. rewrite He.
    repeat split; reflexivity.
Qed.

Lemma timer_selects_first_fit_witness :
  exists w w',
    run (boot None) [(0%Z, UpdateBandwidth 2500%float); (100%Z, UpdateBandwidth 2500%float)]
      = Some w
    /\ step w (2100%Z, Timeout 2%positive) = Some w'
    /\ Forall (eq 2500%float) (bandwidthHistory (manager w))
    /\ getCurrentTier (manager w') = tier_720p.
Proof.
  pose (w := updateBandwidth 2500%float
               (at_time 100 (updateBandwidth 2500%float (at_time 0 (boot None))))).
  pose (w' := run_timeout 2%positive (at_time 2100 w)).
  assert (Hrun : run (boot None)
            [(0%Z, UpdateBandwidth 2500%float); (100%Z, UpdateBandwidth 2500%float)]
          = Some w) by reflexivity.
  assert (Hstep : step w (2100%Z, Timeout 2%positive) = Some w') by reflexivity.
  assert (Hall : Forall (eq 2500%float) (bandwidthHistory (manager w)))
    by (repeat constructor).
  exists w, w'.
  split; [exact Hrun|]. split; [exact Hstep|]. split; [exact Hall|].
  destruct (timer_selects_first_fit None _ w w' 2100%Z 2%positive Hrun Hstep)
    as (_ & _ & Hscenario).
  exact (proj1 (proj2 (proj2 (Hscenario Hall)))).
Defined.

(** C6 (as the program has it).  When every sample of the window is 100,
    the buffered value is 80 and the timer commits the audio-only tier: its
    total, 64, is at most 80, so the scan itself returns it, and it is the
    only catalog tier whose total is at most 80. *)
Theorem sustained_100_selects_audio_only
    (initialQuality : option VideoQuality) (trace : list (Z * Action))
    (w w' : Loop) (t : Z) (h : handle) :
  run (boot initialQuality) trace = Some w ->
  step w (t, Timeout h) = Some w' ->
  Forall (eq 100%float) (bandwidthHistory (manager w)) ->
  bufferedBandwidth (getAverageBandwidth (manager w)) = 80%float
  /\ getCurrentTier (manager w') = tier_audio_only
  /\ fits 80%float tier_audio_only = true
  /\ Forall (fun r => r = tier_audio_only \/ fits 80%float r = false) QUALITY_TIERS.
Proof.
  intros Hrun Hstep Hall.
  pose proof (run_inv trace _ _ (boot_inv initialQuality) Hrun) as I.
  destruct (timeout_enabled _ _ _ _ Hstep) as [due Hdue].
  pose proof (inv_sampled _ I h due Hdue) as Hne.
  destruct (sustained_window _ _ (inv_window _ I) Hne Hall) as (n & Hn & Hw).
  assert (He : getAverageBandwidth (manager w) = 100%float).
  { rewrite (average_of_window _ _ Hw).
    do 10 (destruct n as [|n]; [reflexivity|]). lia. }
  rewrite (timeout_commits w w' t h I Hstep), He.
  split; [reflexivity|]. split; [reflexivity|]. split; [reflexivity|].
  unfold QUALITY_TIERS.
  repeat (apply List.Forall_cons; [first [right; reflexivity | left; reflexivity]|]).
  apply List.Forall_nil.
Qed.

Lemma sustained_100_selects_audio_only_witness :
  exists w w',
    run (boot None) [(0%Z, UpdateBandwidth 100%float); (100%Z, UpdateBandwidth 100%float)]
      = Some w
    /\ step w (2100%Z, Timeout 2%positive) = Some w'
    /\ Forall (eq 100%float) (bandwidthHistory (manager w))
    /\ getCurrentTier (manager w') = tier_audio_only.
Proof.
  pose (w := updateBandwidth 100%float
               (at_time 100 (updateBandwidth 100%float (at_time 0 (boot None))))).
  pose (w' := run_timeout 2%positive (at_time 2100 w)).
  assert (Hrun : run (boot None)
            [(0%Z, UpdateBandwidth 100%float); (100%Z, UpdateBandwidth 100%float)]
          = Some w) by reflexivity.
  assert (Hstep : step w (2100%Z, Timeout 2%positive) = Some w') by reflexivity.
  assert (Hall : Forall (eq 100%float) (bandwidthHistory (manager w)))
    by (repeat constructor).
  exists w, w'.
  split; [exact Hrun|]. split; [exact Hstep|]. split; [exact Hall|].
  exact (proj1 (proj2 (sustained_100_selects_audio_only None _ w w' 2100%Z 2%positive
                         Hrun Hstep Hall))).
Defined.

(** C6 (as worded) fails: with a window of samples of 100 the buffered value
    is 80, and it is not the case that no catalog tier has a total of at
    most 80: the audio-only tier needs 64. *)
Lemma some_tier_fits_80 :
  let q := {| currentTier := tier_720p;
              bandwidthHistory := [100; 100; 100]%float;
              stabilizationTimer := None |} in
  bufferedBandwidth (getAverageBandwidth q) = 80%float
  /\ In tier_audio_only QUALITY_TIERS
  /\ totalBandwidth tier_audio_only = 64%float
  /\ fits (bufferedBandwidth (getAverageBandwidth q)) tier_audio_only = true
  /\ ~ Forall (fun r => fits (bufferedBandwidth (getAverageBandwidth q)) r = false)
              QUALITY_TIERS.
Proof.
  cbv zeta.
  split; [reflexivity|]. split; [in_catalog|]. split; [reflexivity|].
  split; [reflexivity|].
  intros Hnone. rewrite List.Forall_forall in Hnone.
  specialize (Hnone tier_audio_only). 
  assert (Hin : In tier_audio_only QUALITY_TIERS) by in_catalog.
  apply Hnone in Hin. vm_compute in Hin. discriminate.
Qed.

(** C3. In every state the manager reaches, whatever the samples and the
    times at which they arrive: the window holds at most ten samples; a
    pending timer is the one stored in [stabilizationTimer], so at most one
    is pending; and the automatic tier changes made so far are at least
    2000 ms apart.  Each [updateBandwidth] call puts its sample last in the
    window, drops the oldest sample when ten were held, and leaves exactly
    one timer pending, its own, due 2000 ms later: the timer of an earlier
    call can no longer fire. *)
Theorem updateBandwidth_debounces
    (initialQuality : option VideoQuality) (trace : list (Z * Action)) (w : Loop) :
  run (boot initialQuality) trace = Some w ->
  (length (bandwidthHistory (manager w)) <= 10)%nat
  /\ (forall h due, timeouts w !! h = Some due -> stabilizationTimer (manager w) = Some h)
  /\ spaced 2000 (automatic_times (changes w))
  /\ (forall t bandwidth w',
        step w (t, UpdateBandwidth bandwidth) = Some w' ->
        let window := bandwidthHistory (manager w) in
        bandwidthHistory (manager w') =
          (if (length window =? 10)%nat then tail window else window) ++ [bandwidth]
        /\ timeouts w' = {[ next_handle w := (t + 2000)%Z ]}
        /\ stabilizationTimer (manager w') = Some (next_handle w)).
Proof.
  intros Hrun.
  pose proof (run_inv trace _ _ (boot_inv initialQuality) Hrun) as I.
  split; [exact (inv_window _ I)|].
  split; [exact (inv_single _ I)|].
  split; [exact (inv_spaced _ I)|].
  intros t bandwidth w' Hstep window.
  unfold step in Hstep.
  destruct (Z.ltb_spec t (clock w)) as [|Ht]; [discriminate|].
  injection Hstep as <-.
  split; [|split].
  - cbn. apply push_sample_window, (inv_window _ I).
  - apply (updateBandwidth_timeouts bandwidth (at_time t w)).
    now apply at_time_inv.
  - reflexivity.
Qed.

Lemma updateBandwidth_debounces_witness :
  exists w,
    run (boot None)
        [ (0%Z, UpdateBandwidth 100%float); (500%Z, UpdateBandwidth 100%float);
          (2500%Z, Timeout 2%positive);
          (2600%Z, UpdateBandwidth 3000%float);
          (4700%Z, Timeout 3%positive) ] = Some w
    /\ automatic_times (changes w) = [2500%Z; 4700%Z]
    /\ spaced 2000 (automatic_times (changes w)).
Proof.
  pose (w := run_timeout 3%positive (at_time 4700
               (updateBandwidth 3000%float (at_time 2600
                  (run_timeout 2%positive (at_time 2500
                     (updateBandwidth 100%float (at_time 500
                        (updateBandwidth 100%float (at_time 0 (boot None))))))))))).
  assert (Hrun : run (boot None)
        [ (0%Z, UpdateBandwidth 100%float); (500%Z, UpdateBandwidth 100%float);
          (2500%Z, Timeout 2%positive);
          (2600%Z, UpdateBandwidth 3000%float);
          (4700%Z, Timeout 3%positive) ] = Some w) by reflexivity.
  exists w.
  split; [exact Hrun|]. split; [reflexivity|].
  exact (proj1 (proj2 (proj2 (updateBandwidth_debounces None _ w Hrun)))).
Defined.

(** A second sample within the delay supersedes the first timer: the loop
    cannot run handle 1 any more, only handle 2, and not before 2500. *)
Example superseded_timer_cannot_fire :
  run (boot None) [ (0%Z, UpdateBandwidth 100%float); (500%Z, UpdateBandwidth 100%float);
                    (2000%Z, Timeout 1%positive) ] = None
  /\ run (boot None) [ (0%Z, UpdateBandwidth 100%float); (500%Z, UpdateBandwidth 100%float);
                       (2499%Z, Timeout 2%positive) ] = None
  /\ is_Some (run (boot None)
                [ (0%Z, UpdateBandwidth 100%float); (500%Z, UpdateBandwidth 100%float);
                  (2500%Z, Timeout 2%positive) ]).
Proof.
  split; [reflexivity|]. split; [reflexivity|]. eexists. reflexivity.
Qed.

(** C4. For a catalog tier [T], [setQuality] of its name followed by
    [getCurrentTier] gives [T] itself; the call reports [T] through
    [onQualityChange] and leaves the sample window as it was. *)
Theorem setQuality_then_getCurrentTier (T : QualityTier) (q : QualityManager) :
  In T QUALITY_TIERS ->
  getCurrentTier (fst (setQuality (name T) q)) = T
  /\ snd (setQuality (name T) q) = [T]
  /\ bandwidthHistory (fst (setQuality (name T) q)) = bandwidthHistory q.
Proof.
  intros Hin. unfold setQuality. rewrite (find_tier_name T Hin). cbn.
  repeat split.
Qed.

Lemma setQuality_then_getCurrentTier_witness :
  let q := {| currentTier := tier_720p;
              bandwidthHistory := [2500; 2400]%float;
              stabilizationTimer := Some 2%positive |} in
  In tier_144p QUALITY_TIERS
  /\ getCurrentTier (fst (setQuality "144p" q)) = tier_144p
  /\ bandwidthHistory (fst (setQuality "144p" q)) = [2500; 2400]%float.
Proof.
  intros q.
  assert (Hin : In tier_144p QUALITY_TIERS) by in_catalog.
  split; [exact Hin|].
  destruct (setQuality_then_getCurrentTier tier_144p q Hin) as (Hget & _ & Hwin).
  split; [exact Hget | exact Hwin].
Defined.

(** C10. The current tier is a catalog entry in every state the manager
    reaches, through any sequence of [updateBandwidth] calls, timer
    callbacks and [setQuality] calls.  A name that is not in the catalog
    makes the constructor start on the 720p entry, and makes [setQuality]
    leave the manager as it is without calling [onQualityChange]. *)
Theorem currentTier_in_catalog
    (initialQuality : option VideoQuality) (trace : list (Z * Action)) (w : Loop) :
  run (boot initialQuality) trace = Some w ->
  In (getCurrentTier (manager w)) QUALITY_TIERS
  /\ (forall quality, ~ recognised quality ->
        getCurrentTier (new_QualityManager (Some quality)) = tier_720p
        /\ setQuality quality (manager w) = (manager w, [])).
Proof.
  intros Hrun.
  pose proof (run_inv trace _ _ (boot_inv initialQuality) Hrun) as I.
  split; [exact (inv_tier _ I)|].
  intros quality Hno. apply find_tier_unrecognised in Hno.
  unfold new_QualityManager, setQuality, getCurrentTier.
  cbn [default from_option currentTier]. unfold id.
  rewrite Hno. split; reflexivity.
Qed.

Lemma currentTier_in_catalog_witness :
  exists w,
    run (boot (Some "4k"))
        [ (0%Z, UpdateBandwidth 100%float); (10%Z, SetQuality "1080p");
          (20%Z, SetQuality "2160p"); (2000%Z, Timeout 1%positive) ] = Some w
    /\ In (getCurrentTier (manager w)) QUALITY_TIERS
    /\ getCurrentTier (new_QualityManager (Some "4k")) = tier_720p.
Proof.
  pose (w := run_timeout 1%positive (at_time 2000
               (call_setQuality "2160p" (at_time 20
                  (call_setQuality "1080p" (at_time 10
                     (updateBandwidth 100%float (at_time 0 (boot (Some "4k")))))))))).
  assert (Hrun : run (boot (Some "4k"))
        [ (0%Z, UpdateBandwidth 100%float); (10%Z, SetQuality "1080p");
          (20%Z, SetQuality "2160p"); (2000%Z, Timeout 1%positive) ] = Some w)
    by reflexivity.
  assert (Hno : ~ recognised "4k").
  { intros (t & Hin & Hname). revert t Hin Hname.
    apply (catalog_cases (fun t => name t = "4k" -> False)); discriminate. }
  exists w. split; [exact Hrun|].
  destruct (currentTier_in_catalog (Some "4k") _ w Hrun) as [Hin Hunknown].
  split; [exact Hin|].
  exact (proj1 (Hunknown "4k" Hno)).
Defined.

(** ** The bandwidth signal of the room page *)

Import Room.

Lemma reacts_app (p : Page) (earlier later : list Event) :
  reacts p (earlier ++ later) = reacts (reacts p earlier) later.
Proof. unfold reacts. apply fold_left_app. Qed.

(** C1 (as the program has it).  The value the page passes on at a render
    is taken from the most recent report alone, whichever peer sent it and
    whatever the other peers reported before, rendered or not: the report
    itself only sets [connectionStats], whose bandwidth becomes that
    report's (1000 when it is absent or falsy); at the render that follows,
    this value is passed to [adjustQuality], hence to [updateBandwidth],
    when it is positive and differs from the value at the previous render.
    No minimum over peers is taken. *)
Theorem last_report_is_the_signal
    (p : Page) (earlier : list Event) (peerId : string) (stats : Report) :
  let before := reacts p earlier in
  let reported := reacts p (earlier ++ [Reported peerId stats]) in
  let after := reacts p (earlier ++ [Reported peerId stats; Rendered]) in
  let signal := or_else (stats_bandwidth stats) 1000%float in
  bandwidth (connectionStats reported) = signal
  /\ adjustQuality_calls reported = adjustQuality_calls before
  /\ bandwidth (connectionStats after) = signal
  /\ rendered_bandwidth after = signal
  /\ adjustQuality_calls after =
       adjustQuality_calls before ++
       (if Object_is (rendered_bandwidth before) signal then []
        else if num_gt signal 0%float then [signal] else [])
  /\ (forall w, manager (fed [signal] w) =
                {| currentTier := currentTier (manager w);
                   bandwidthHistory := push_sample (bandwidthHistory (manager w)) signal;
                   stabilizationTimer := Some (next_handle w) |}).
Proof.
  intros before reported after signal. subst reported after.
  rewrite !reacts_app. fold before.
  cbn [reacts fold_left react]. unfold bandwidth_effect.
  cbn [connectionStats adjustQuality_calls rendered_bandwidth
       Room.onConnectionStatsUpdate bandwidth].
  fold signal.
  split; [reflexivity|]. split; [reflexivity|].
  destruct (Object_is (rendered_bandwidth before) signal) eqn:Esame;
    cbn [connectionStats adjustQuality_calls rendered_bandwidth bandwidth].
  - apply Leibniz.eqb_spec in Esame.
    rewrite app_nil_r. repeat split. exact Esame.
  - destruct (num_gt signal 0%float).
    + repeat split.
    + rewrite app_nil_r. repeat split.
Qed.

(** C1 (as worded) fails.  Two peers report 300 and then 2000: the worst
    link is 300, yet the last value passed to [updateBandwidth] is 2000,
    after 300 when the page renders between the two reports, and alone when
    it renders after both. *)
Lemma worst_link_is_not_the_signal :
  let alice := Reported "alice" (reporting 300%float) in
  let bob := Reported "bob" (reporting 2000%float) in
  let each := reacts mounted [alice; Rendered; bob; Rendered] in
  let both := reacts mounted [alice; bob; Rendered] in
  reports_in [alice; Rendered; bob; Rendered] = reports_in [alice; bob; Rendered]
  /\ worst_link (latest_samples (reports_in [alice; bob; Rendered])) = Some 300%float
  /\ adjustQuality_calls each = [300; 2000]%float
  /\ adjustQuality_calls both = [2000]%float
  /\ bandwidthHistory (manager (fed (adjustQuality_calls each) (boot None)))
     = [300; 2000]%float
  /\ bandwidthHistory (manager (fed (adjustQuality_calls both) (boot None)))
     = [2000]%float
  /\ last (adjustQuality_calls each)
     <> worst_link (latest_samples (reports_in [alice; bob; Rendered]))
  /\ last (adjustQuality_calls both)
     <> worst_link (latest_samples (reports_in [alice; bob; Rendered])).
Proof.
  cbv zeta.
  split; [reflexivity|].
  split; [vm_compute; reflexivity|].
  split; [vm_compute; reflexivity|].
  split; [vm_compute; reflexivity|].
  split; [vm_compute; reflexivity|].
  split; [vm_compute; reflexivity|].
  split; intros H;
    match type of H with
    | last ?calls = _ =>
        assert (E : from_option (fun x => PrimFloat.eqb x 300%float) false (last calls) = true)
          by (rewrite H; vm_compute; reflexivity)
    end;
    vm_compute in E; discriminate.
Qed.

(** With the statistics object the manager itself builds, the page always
    reads 1000. *)
Lemma stub_stats_read_as_1000 (peerId : string) (r : WebRTC.ref) :
  bandwidth (onConnectionStatsUpdate peerId (report_of_stats (WebRTC.getConnectionStats r)))
  = 1000%float.
Proof. reflexivity. Qed.

(** ** The peer table *)

Import WebRTC.

Lemma createPeer_fresh (s : Session) (peerId : string) (isInitiator : bool) :
  peers (engine s) !! peerId = None ->
  createPeer peerId isInitiator s =
    with_peers
      (<[ peerId := {| id := peerId; peer := next_instance s; stream := None;
                       isHost := isInitiator;
                       quality := name (getCurrentTier (qualityManager (engine s))) |} ]>
         (peers (engine s)))
      {| engine := engine s;
         instances := <[ next_instance s :=
                           {| initiator := isInitiator;
                              outgoing := localStream (engine s);
                              connected := false; destroying := false;
                              destroyed := false;
                              handlers_id := peerId |} ]> (instances s);
         next_instance := Pos.succ (next_instance s);
         intervals := intervals s; next_interval := next_interval s;
         acquisitions := acquisitions s; emitted := emitted s; microtasks := microtasks s |}.
Proof.
  intros Hnew. unfold createPeer.
  rewrite bool_decide_eq_false_2; [reflexivity|].
  rewrite Hnew. apply is_Some_None.
Qed.

(** C7 (as the program has it).  [createPeer] for an identifier that is not
    in the table never fails and never looks at [maxPeers]: the table gets
    one more entry, for that identifier, however many it held; the
    configuration is unchanged and no hook is called. *)
Theorem createPeer_ignores_maxPeers (s : Session) (peerId : string) (isInitiator : bool) :
  peers (engine s) !! peerId = None ->
  exists s',
    exec s (CreatePeer peerId isInitiator) = Some s'
    /\ (exists connection,
          peers (engine s') !! peerId = Some connection /\ id connection = peerId)
    /\ size (peers (engine s')) = S (size (peers (engine s)))
    /\ config (engine s') = config (engine s)
    /\ emitted s' = emitted s.
Proof.
  intros Hnew. exists (createPeer peerId isInitiator s).
  split; [reflexivity|].
  rewrite (createPeer_fresh s peerId isInitiator Hnew).
  cbn [with_peers with_engine engine peers config emitted].
  split; [|split; [|split; reflexivity]].
  - eexists. rewrite lookup_insert_eq. split; reflexivity.
  - now apply map_size_insert_None.
Qed.

Lemma createPeer_ignores_maxPeers_witness :
  let cfg := {| stunServers := ["stun:stun.l.google.com:19302"];
                turnServers := None; maxPeers := 2 |} in
  let full := createPeer "bob" false (createPeer "alice" true (new_Session cfg)) in
  size (peers (engine full)) = maxPeers (config (engine full))
  /\ peers (engine full) !! "carol" = None
  /\ exists s', exec full (CreatePeer "carol" true) = Some s'
                /\ size (peers (engine s')) = 3.
Proof.
  intros cfg full.
  assert (Hnew : peers (engine full) !! "carol" = None) by (vm_compute; reflexivity).
  split; [vm_compute; reflexivity|]. split; [exact Hnew|].
  destruct (createPeer_ignores_maxPeers full "carol" true Hnew)
    as (s' & Hexec & _ & Hsize & _).
  exists s'. split; [exact Hexec|].
  rewrite Hsize. vm_compute. reflexivity.
Defined.

(** C7 (as worded) fails.  With [maxPeers] set to 2 and two connections in
    the table, [createPeer] for a third identifier is carried out: the
    table then holds three entries. *)
Lemma createPeer_beyond_maxPeers :
  let cfg := {| stunServers := ["stun:stun.l.google.com:19302"];
                turnServers := None; maxPeers := 2 |} in
  let full := createPeer "bob" false (createPeer "alice" true (new_Session cfg)) in
  size (peers (engine full)) = maxPeers (config (engine full))
  /\ exec full (CreatePeer "carol" true) = Some (createPeer "carol" true full)
  /\ size (peers (engine (createPeer "carol" true full))) = 3
  /\ is_Some (peers (engine (createPeer "carol" true full)) !! "carol")
  /\ emitted (createPeer "carol" true full) = [].
Proof.
  cbv zeta.
  split; [vm_compute; reflexivity|].
  split; [reflexivity|].
  split; [vm_compute; reflexivity|].
  split; [|vm_compute; reflexivity].
  eexists. vm_compute. reflexivity.
Qed.

(** ** Acquiring the local stream *)




(** ** Samplers and destroyed connections *)

Lemma new_Session_inv (cfg : WebRTCConfig) : Session_inv (new_Session cfg).
Proof.
  constructor; cbn; intros *; rewrite lookup_empty; discriminate.
Qed.

(** [destroy()] touches one instance and the microtask queue. *)
Lemma destroy_frame (r : ref) (s : Session) :
  engine (destroy r s) = engine s /\ intervals (destroy r s) = intervals s
  /\ emitted (destroy r s) = emitted s /\ next_instance (destroy r s) = next_instance s.
Proof.
  unfold destroy. destruct (instances s !! r) as [i|];
    [destruct (destroyed i || destroying i)|]; repeat split.
Qed.

Lemma destroy_lookup (r r' : ref) (s : Session) (i' : Instance) :
  instances (destroy r s) !! r' = Some i' ->
  exists i, instances s !! r' = Some i
            /\ (i' = i \/ (r' = r /\ i' = begin_destroy i)).
Proof.
  unfold destroy. destruct (instances s !! r) as [i|] eqn:E;
    [destruct (destroyed i || destroying i)|].
  - intros H. exists i'. split; [exact H | now left].
  - cbn [instances with_microtasks with_instances]. intros H.
    apply lookup_insert_Some in H as [[<- <-] | [Hne H]].
    + exists i. split; [exact E | right; split; reflexivity].
    + exists i'. split; [exact H | now left].
  - intros H. exists i'. split; [exact H | now left].
Qed.

Lemma destroy_keeps (r r' : ref) (s : Session) (i : Instance) :
  instances s !! r' = Some i ->
  exists i', instances (destroy r s) !! r' = Some i'
             /\ (i' = i \/ (r' = r /\ i' = begin_destroy i)).
Proof.
  intros H. unfold destroy. destruct (instances s !! r) as [i0|] eqn:E;
    [destruct (destroyed i0 || destroying i0)|].
  - exists i. split; [exact H | now left].
  - cbn [instances with_microtasks with_instances].
    destruct (decide (r = r')) as [<-|Hne].
    + rewrite lookup_insert_eq. eexists. split; [reflexivity|].
      right. split; [reflexivity|]. congruence.
    + rewrite lookup_insert_ne by exact Hne. exists i. split; [exact H | now left].
  - exists i. split; [exact H | now left].
Qed.

(** Once [destroy()] has been called on it, an instance is destroyed or
    being destroyed. *)
Lemma destroy_marks (r : ref) (s : Session) (i' : Instance) :
  instances (destroy r s) !! r = Some i' -> destroyed i' = true \/ destroying i' = true.
Proof.
  unfold destroy. destruct (instances s !! r) as [i|] eqn:E.
  - destruct (destroyed i || destroying i) eqn:F.
    + rewrite E. intros [= <-]. now apply orb_true_iff in F.
    + cbn [instances with_microtasks with_instances]. rewrite lookup_insert_eq.
      intros [= <-]. now right.
  - rewrite E. discriminate.
Qed.

Lemma destroy_queue (r : ref) (s : Session) :
  microtasks (destroy r s) = microtasks s \/ microtasks (destroy r s) = microtasks s ++ [r].
Proof.
  unfold destroy. destruct (instances s !! r) as [i|];
    [destruct (destroyed i || destroying i)|]; [now left | now right | now left].
Qed.

Lemma destroy_inv (r : ref) (s : Session) : Session_inv s -> Session_inv (destroy r s).
Proof.
  intros I. unfold destroy.
  destruct (instances s !! r) as [i|] eqn:E; [|exact I].
  destruct (destroyed i || destroying i) eqn:F; [exact I|].
  constructor;
    cbn [with_microtasks with_instances engine peers instances next_instance intervals
         microtasks].
  - intros r' i' H Hd. apply lookup_insert_Some in H as [[<- <-] | [Hne H]].
    + discriminate Hd.
    + exact (inv_destroyed _ I r' i' H Hd).
  - intros r' i' H Hd Hg. apply lookup_insert_Some in H as [[<- <-] | [Hne H]].
    + discriminate Hg.
    + exact (inv_live _ I r' i' H Hd Hg).
  - intros peerId c H. destruct (inv_table _ I peerId c H) as (i0 & Hi0 & Hid).
    destruct (decide (r = peer c)) as [->|Hne].
    + rewrite lookup_insert_eq. eexists. split; [reflexivity|]. cbn. congruence.
    + rewrite lookup_insert_ne by exact Hne. now exists i0.
  - intros r' i' H Hg. apply in_or_app.
    apply lookup_insert_Some in H as [[<- <-] | [Hne H]].
    + right. now left.
    + left. exact (inv_queue _ I r' i' H Hg).
  - intros r' i' H. apply lookup_insert_Some in H as [[<- <-] | [Hne H]].
    + exact (inv_fresh _ I r i E).
    + exact (inv_fresh _ I r' i' H).
  - intros h m H. destruct (inv_sampler _ I h m H) as (i0 & Hi0 & Hid).
    destruct (decide (r = sampler_peer m)) as [->|Hne].
    + rewrite lookup_insert_eq. eexists. split; [reflexivity|]. cbn. congruence.
    + rewrite lookup_insert_ne by exact Hne. now exists i0.
Qed.

Lemma removePeer_table (peerId : string) (s : Session) :
  peers (engine (removePeer peerId s)) = delete peerId (peers (engine s)).
Proof.
  unfold removePeer. destruct (peers (engine s) !! peerId) as [c|] eqn:E.
  - cbn [with_peers with_engine engine peers].
    now rewrite (proj1 (destroy_frame (peer c) s)).
  - symmetry. now apply delete_id.
Qed.

Lemma removePeer_inv (peerId : string) (s : Session) :
  Session_inv s -> Session_inv (removePeer peerId s).
Proof.
  intros I. unfold removePeer.
  destruct (peers (engine s) !! peerId) as [c|] eqn:E; [|exact I].
  pose proof (destroy_inv (peer c) s I) as I1.
  pose proof (proj1 (destroy_frame (peer c) s)) as He.
  pose proof (destroy_marks (peer c) s) as Hmarks.
  set (s1 := destroy (peer c) s) in *.
  assert (Hpeers : peers (engine s1) = peers (engine s)) by now rewrite He.
  constructor;
    cbn [with_peers with_engine engine peers instances next_instance intervals microtasks].
  - exact (inv_destroyed _ I1).
  - intros r i Hi Hd Hg.
    destruct (inv_live _ I1 r i Hi Hd Hg) as (c' & Hc' & Hr).
    exists c'. split; [|exact Hr].
    rewrite lookup_delete_ne; [exact Hc'|].
    intros Heq. rewrite <- Heq, Hpeers, E in Hc'. injection Hc' as <-. subst r.
    destruct (Hmarks i Hi); congruence.
  - intros peerId' c' H. apply lookup_delete_Some in H as [_ H].
    exact (inv_table _ I1 peerId' c' H).
  - exact (inv_queue _ I1).
  - exact (inv_fresh _ I1).
  - exact (inv_sampler _ I1).
Qed.

Lemma emit_inv (calls : list Hook) (s : Session) : Session_inv s -> Session_inv (emit calls s).
Proof. intros [I1 I2 I3 I4 I5 I6]. constructor; assumption. Qed.

Lemma createPeer_inv (peerId : string) (isInitiator : bool) (s : Session) :
  Session_inv s -> Session_inv (createPeer peerId isInitiator s).
Proof.
  intros I. unfold createPeer.
  set (s1 := if bool_decide (is_Some (peers (engine s) !! peerId))
             then removePeer peerId s else s).
  assert (I1 : Session_inv s1).
  { subst s1. destruct (bool_decide _); [now apply removePeer_inv | exact I]. }
  assert (Hnone : peers (engine s1) !! peerId = None).
  { subst s1. destruct (bool_decide _) eqn:B.
    - rewrite removePeer_table. apply lookup_delete_eq.
    - apply bool_decide_eq_false in B. now apply eq_None_not_Some. }
  clearbody s1. clear I s.
  assert (Hfresh : forall r i, instances s1 !! r = Some i -> next_instance s1 <> r).
  { intros r i Hi <-. apply (inv_fresh _ I1) in Hi. lia. }
  constructor;
    cbn [with_peers with_engine engine peers instances next_instance intervals microtasks].
  - intros r i H Hd. apply lookup_insert_Some in H as [[<- <-] | [Hne H]].
    + discriminate Hd.
    + exact (inv_destroyed _ I1 r i H Hd).
  - intros r i H Hd Hg. apply lookup_insert_Some in H as [[<- <-] | [Hne H]].
    + eexists. rewrite lookup_insert_eq. split; reflexivity.
    + destruct (inv_live _ I1 r i H Hd Hg) as (c & Hc & Hr).
      exists c. split; [|exact Hr].
      rewrite lookup_insert_ne; [exact Hc|].
      intros Heq. rewrite <- Heq in Hc. congruence.
  - intros peerId' c H. apply lookup_insert_Some in H as [[<- <-] | [Hne H]].
    + eexists. cbn [peer]. rewrite lookup_insert_eq. split; reflexivity.
    + destruct (inv_table _ I1 peerId' c H) as (i & Hi & Hid).
      exists i. split; [|exact Hid].
      rewrite lookup_insert_ne; [exact Hi | exact (Hfresh _ _ Hi)].
  - intros r i H Hg. apply lookup_insert_Some in H as [[<- <-] | [Hne H]].
    + discriminate Hg.
    + exact (inv_queue _ I1 r i H Hg).
  - intros r i H. apply lookup_insert_Some in H as [[<- <-] | [Hne H]].
    + lia.
    + apply (inv_fresh _ I1) in H. lia.
  - intros h m H.
    destruct (inv_sampler _ I1 h m H) as (i & Hi & Hid).
    exists i. split; [|exact Hid].
    rewrite lookup_insert_ne; [exact Hi | exact (Hfresh _ _ Hi)].
Qed.

(** The instance [r] becomes connected. *)
Lemma connect_inv (r : ref) (i : Instance) (s : Session) :
  Session_inv s -> instances s !! r = Some i ->
  destroyed i = false -> destroying i = false ->
  Session_inv
    (with_instances
       (<[ r := {| initiator := initiator i; outgoing := outgoing i;
                   connected := true; destroying := false; destroyed := false;
                   handlers_id := handlers_id i |} ]> (instances s)) s).
Proof.
  intros I Hr Hlive Hsteady.
  assert (Hkeep : forall r0 i0, instances s !! r0 = Some i0 ->
            exists i', <[ r := {| initiator := initiator i; outgoing := outgoing i;
                                  connected := true; destroying := false;
                                  destroyed := false;
                                  handlers_id := handlers_id i |} ]> (instances s) !! r0
                       = Some i'
                       /\ handlers_id i' = handlers_id i0).
  { intros r0 i0 H0. destruct (decide (r = r0)) as [<-|Hne].
    - rewrite lookup_insert_eq. eexists. split; [reflexivity|]. cbn. congruence.
    - rewrite lookup_insert_ne by exact Hne. now exists i0. }
  constructor; cbn [with_instances engine peers instances next_instance intervals microtasks].
  - intros r0 i0 H Hd. apply lookup_insert_Some in H as [[<- <-] | [Hne H]].
    + discriminate Hd.
    + exact (inv_destroyed _ I r0 i0 H Hd).
  - intros r0 i0 H Hd Hg. apply lookup_insert_Some in H as [[<- <-] | [Hne H]].
    + exact (inv_live _ I r i Hr Hlive Hsteady).
    + exact (inv_live _ I r0 i0 H Hd Hg).
  - intros peerId c H.
    destruct (inv_table _ I peerId c H) as (i0 & Hi0 & Hid).
    destruct (Hkeep _ _ Hi0) as (i' & Hi' & Hid').
    exists i'. split; [exact Hi' | congruence].
  - intros r0 i0 H Hg. apply lookup_insert_Some in H as [[<- <-] | [Hne H]].
    + discriminate Hg.
    + exact (inv_queue _ I r0 i0 H Hg).
  - intros r0 i0 H. apply lookup_insert_Some in H as [[<- <-] | [Hne H]].
    + exact (inv_fresh _ I r i Hr).
    + exact (inv_fresh _ I r0 i0 H).
  - intros h m H.
    destruct (inv_sampler _ I h m H) as (i0 & Hi0 & Hid).
    destruct (Hkeep _ _ Hi0) as (i' & Hi' & Hid').
    exists i'. split; [exact Hi' | congruence].
Qed.

Lemma startConnectionMonitoring_inv (peerId : string) (s : Session) :
  Session_inv s -> Session_inv (startConnectionMonitoring peerId s).
Proof.
  intros I. unfold startConnectionMonitoring.
  destruct (peers (engine s) !! peerId) as [c|] eqn:E; [|exact I].
  constructor; cbn [engine peers instances next_instance intervals microtasks];
    try apply I.
  intros h m H. apply lookup_insert_Some in H as [[<- <-] | [Hne H]].
  - exact (inv_table _ I peerId c E).
  - exact (inv_sampler _ I h m H).
Qed.

Lemma sampler_callback_inv (h : handle) (m : Sampler) (s : Session) :
  Session_inv s -> Session_inv (sampler_callback h m s).
Proof.
  intros I. unfold sampler_callback.
  destruct (negb (is_connected (sampler_peer m) s)); [|now apply emit_inv].
  constructor;
    cbn [with_intervals engine peers instances next_instance intervals microtasks];
    try apply I.
  intros h' m' H. apply lookup_delete_Some in H as [_ H].
  exact (inv_sampler _ I h' m' H).
Qed.

(** [dispose] calls [destroy()] on the instance of every connection of the
    table and touches nothing else. *)
Lemma dispose_destroys (s : Session) (table : gmap string PeerConnection) :
  Session_inv s ->
  let s' := map_fold (fun _ connection s => destroy (peer connection) s) s table in
  Session_inv s'
  /\ engine s' = engine s /\ intervals s' = intervals s /\ emitted s' = emitted s
  /\ (forall peerId c i,
        table !! peerId = Some c -> instances s' !! peer c = Some i ->
        destroyed i = true \/ destroying i = true).
Proof.
  intros I.
  apply (map_fold_weak_ind
    (fun s' (table : gmap string PeerConnection) =>
       Session_inv s'
       /\ engine s' = engine s /\ intervals s' = intervals s /\ emitted s' = emitted s
       /\ (forall peerId c i,
             table !! peerId = Some c -> instances s' !! peer c = Some i ->
             destroyed i = true \/ destroying i = true))).
  - split; [exact I|]. do 3 (split; [reflexivity|]).
    intros peerId c i H. rewrite lookup_empty in H. discriminate.
  - intros peerId0 c0 m s0 Hnew (I0 & He & Hi & Hm & Hd).
    destruct (destroy_frame (peer c0) s0) as (He0 & Hi0 & Hm0 & _).
    split; [now apply destroy_inv|].
    split; [congruence|]. split; [congruence|]. split; [congruence|].
    intros peerId c i H Hlook.
    apply lookup_insert_Some in H as [[<- <-] | [Hne H]].
    + exact (destroy_marks _ _ _ Hlook).
    + apply destroy_lookup in Hlook as (i1 & Hi1 & [-> | [_ ->]]).
      * exact (Hd peerId c i1 H Hi1).
      * now right.
Qed.

Lemma dispose_inv (s : Session) : Session_inv s -> Session_inv (dispose s).
Proof.
  intros I. unfold dispose.
  pose proof (dispose_destroys s (peers (engine s)) I) as H. cbv zeta in H.
  destruct H as (I' & He & _ & _ & Hd).
  constructor;
    cbn [with_peers with_engine engine peers instances next_instance intervals microtasks].
  - exact (inv_destroyed _ I').
  - intros r i H Hlive Hsteady. exfalso.
    destruct (inv_live _ I' r i H Hlive Hsteady) as (c & Hc & <-).
    rewrite He in Hc. destruct (Hd _ c i Hc H); congruence.
  - intros peerId c H. rewrite lookup_empty in H. discriminate.
  - exact (inv_queue _ I').
  - exact (inv_fresh _ I').
  - exact (inv_sampler _ I').
Qed.

(** *** Microtasks *)

(** The microtask at the head of the queue runs. *)
Lemma close_callback_inv (s : Session) (r : ref) (rest : list ref) :
  Session_inv s -> microtasks s = r :: rest ->
  Session_inv (close_callback r (with_microtasks rest s)).
Proof.
  intros I Hq. unfold close_callback. cbn [with_microtasks instances].
  destruct (instances s !! r) as [i|] eqn:E.
  - apply emit_inv, removePeer_inv.
    constructor;
      cbn [with_microtasks with_instances engine peers instances next_instance intervals
           microtasks].
    + intros r' i' H Hd. apply lookup_insert_Some in H as [[<- <-] | [Hne H]].
      * split; reflexivity.
      * exact (inv_destroyed _ I r' i' H Hd).
    + intros r' i' H Hd Hg. apply lookup_insert_Some in H as [[<- <-] | [Hne H]].
      * discriminate Hd.
      * exact (inv_live _ I r' i' H Hd Hg).
    + intros peerId c H. destruct (inv_table _ I peerId c H) as (i0 & Hi0 & Hid).
      destruct (decide (r = peer c)) as [->|Hne].
      * rewrite lookup_insert_eq. eexists. split; [reflexivity|]. cbn. congruence.
      * rewrite lookup_insert_ne by exact Hne. now exists i0.
    + intros r' i' H Hg. apply lookup_insert_Some in H as [[<- <-] | [Hne H]].
      * discriminate Hg.
      * pose proof (inv_queue _ I r' i' H Hg) as Hin. rewrite Hq in Hin.
        destruct Hin as [Heq | Hin]; [congruence | exact Hin].
    + intros r' i' H. apply lookup_insert_Some in H as [[<- <-] | [Hne H]].
      * exact (inv_fresh _ I r i E).
      * exact (inv_fresh _ I r' i' H).
    + intros h m H. destruct (inv_sampler _ I h m H) as (i0 & Hi0 & Hid).
      destruct (decide (r = sampler_peer m)) as [->|Hne].
      * rewrite lookup_insert_eq. eexists. split; [reflexivity|]. cbn. congruence.
      * rewrite lookup_insert_ne by exact Hne. now exists i0.
  - constructor; cbn [with_microtasks engine peers instances next_instance intervals microtasks];
      try apply I.
    intros r' i' H Hg. pose proof (inv_queue _ I r' i' H Hg) as Hin. rewrite Hq in Hin.
    destruct Hin as [Heq | Hin]; [congruence | exact Hin].
Qed.

(** What holds before the microtasks run and is kept by each of them holds
    when they have run. *)
Lemma drain_ind (P : Session -> Prop) :
  (forall s r rest,
     P s -> microtasks s = r :: rest -> P (close_callback r (with_microtasks rest s))) ->
  forall fuel s, P s -> P (drain fuel s).
Proof.
  intros Hstep fuel. induction fuel as [|fuel IH]; intros s Hs; cbn [drain]; [exact Hs|].
  destruct (microtasks s) as [|r rest] eqn:E; [exact Hs|].
  apply IH. exact (Hstep s r rest Hs E).
Qed.

Lemma settle_inv (s : Session) : Session_inv s -> Session_inv (settle s).
Proof. unfold settle. apply drain_ind. exact close_callback_inv. Qed.

Lemma removePeer_untouched (peerId : string) (s : Session) :
  intervals (removePeer peerId s) = intervals s
  /\ emitted (removePeer peerId s) = emitted s.
Proof.
  unfold removePeer. destruct (peers (engine s) !! peerId) as [c|]; [|now split].
  cbn [with_peers with_engine intervals emitted].
  destruct (destroy_frame (peer c) s) as (_ & Hi & Hm & _). now split.
Qed.

(** A microtask takes at least as much out of the table as it adds to the
    queue. *)
Lemma removePeer_measure (peerId : string) (s : Session) :
  length (microtasks (removePeer peerId s)) + size (peers (engine (removePeer peerId s)))
  <= length (microtasks s) + size (peers (engine s)).
Proof.
  rewrite removePeer_table. unfold removePeer.
  destruct (peers (engine s) !! peerId) as [c|] eqn:E.
  - cbn [with_peers with_engine microtasks].
    assert (Hsize : size (peers (engine s)) <> 0)
      by (apply (map_size_ne_0_lookup_2 _ peerId); now rewrite E).
    rewrite map_size_delete_Some by now rewrite E.
    destruct (destroy_queue (peer c) s) as [-> | ->];
      [|rewrite length_app; cbn [length]]; lia.
  - rewrite map_size_delete_None by exact E. lia.
Qed.

Lemma close_callback_measure (r : ref) (s : Session) :
  length (microtasks (close_callback r s)) + size (peers (engine (close_callback r s)))
  <= length (microtasks s) + size (peers (engine s)).
Proof.
  unfold close_callback. destruct (instances s !! r) as [i|]; [|lia].
  cbn [emit engine microtasks].
  etransitivity; [apply removePeer_measure|]. cbn [with_instances microtasks engine]. lia.
Qed.

Lemma drain_quiet (fuel : nat) (s : Session) :
  length (microtasks s) + size (peers (engine s)) <= fuel ->
  microtasks (drain fuel s) = [].
Proof.
  revert s. induction fuel as [|fuel IH]; intros s Hfuel; cbn [drain].
  - destruct (microtasks s); [reflexivity | cbn in Hfuel; lia].
  - destruct (microtasks s) as [|r rest] eqn:E; [exact E|].
    apply IH.
    etransitivity; [apply close_callback_measure|].
    cbn [with_microtasks microtasks engine]. cbn [length] in Hfuel. lia.
Qed.

(** When a task has ended no microtask is left. *)
Lemma settle_quiet (s : Session) : microtasks (settle s) = [].
Proof. unfold settle. now apply drain_quiet. Qed.

Lemma settle_idle (s : Session) : microtasks s = [] -> settle s = s.
Proof.
  intros Hq. unfold settle. rewrite Hq. cbn [length Nat.add].
  destruct (size (peers (engine s))); cbn [drain]; [reflexivity | now rewrite Hq].
Qed.

Lemma only_disconnections_silent (peerId : string) (calls : list Hook) :
  only_disconnections calls -> silent_for peerId calls.
Proof.
  intros Hall stats Hin. unfold only_disconnections in Hall.
  rewrite List.Forall_forall in Hall. destruct (Hall _ Hin) as [p Hp]. discriminate Hp.
Qed.

(** The microtasks leave the samplers alone, add no entry to the table, and
    call no hook but [onPeerDisconnected]. *)
Lemma close_callback_frame (r : ref) (s : Session) :
  intervals (close_callback r s) = intervals s
  /\ (forall peerId, peers (engine s) !! peerId = None ->
                     peers (engine (close_callback r s)) !! peerId = None)
  /\ exists calls, emitted (close_callback r s) = emitted s ++ calls
                   /\ only_disconnections calls.
Proof.
  unfold close_callback. destruct (instances s !! r) as [i|].
  - cbn [emit intervals engine emitted].
    destruct (removePeer_untouched (handlers_id i)
                (with_instances (<[ r := finish_destroy i ]> (instances s)) s)) as [Hi Hm].
    split; [exact Hi|]. split.
    + intros peerId Hnone. rewrite removePeer_table. cbn [with_instances engine].
      apply lookup_delete_None. now right.
    + eexists. rewrite Hm. cbn [with_instances emitted]. split; [reflexivity|].
      constructor; [now eexists | constructor].
  - split; [reflexivity|]. split; [tauto|].
    exists []. rewrite app_nil_r. split; [reflexivity | constructor].
Qed.

Lemma settle_frame (s : Session) :
  intervals (settle s) = intervals s
  /\ (forall peerId, peers (engine s) !! peerId = None ->
                     peers (engine (settle s)) !! peerId = None)
  /\ exists calls, emitted (settle s) = emitted s ++ calls /\ only_disconnections calls.
Proof.
  unfold settle.
  apply (drain_ind
    (fun s' => intervals s' = intervals s
               /\ (forall peerId, peers (engine s) !! peerId = None ->
                                  peers (engine s') !! peerId = None)
               /\ exists calls, emitted s' = emitted s ++ calls
                                /\ only_disconnections calls)).
  - intros s0 r rest (Hi & Ht & calls & Hm & Hcalls) _.
    destruct (close_callback_frame r (with_microtasks rest s0)) as (Hi' & Ht' & calls' & Hm' & Hc').
    cbn [with_microtasks intervals engine emitted] in Hi', Ht', Hm'.
    split; [congruence|]. split.
    + intros peerId Hnone. apply Ht', Ht, Hnone.
    + exists (calls ++ calls'). split.
      * rewrite Hm', Hm. now rewrite app_assoc.
      * apply List.Forall_app. now split.
  - split; [reflexivity|]. split; [tauto|].
    exists []. rewrite app_nil_r. split; [reflexivity | constructor].
Qed.

Lemma exec_inv (s s' : Session) (c : Command) :
  Session_inv s -> exec s c = Some s' -> Session_inv s'.
Proof.
  intros I. pose proof (settle_inv s I) as Is.
  destruct c as [peerId isInitiator | peerId | | r | r | h | ]; cbn [exec].
  - intros [= <-]. now apply createPeer_inv.
  - intros [= <-]. now apply removePeer_inv.
  - intros [= <-]. now apply dispose_inv.
  - destruct (instances (settle s) !! r) as [i|] eqn:Er; [|discriminate].
    destruct (destroyed i) eqn:Ed; [discriminate|].
    destruct (destroying i) eqn:Eg; [discriminate|].
    destruct (connected i); [discriminate|]. cbn [orb].
    intros [= <-].
    apply startConnectionMonitoring_inv, emit_inv.
    now apply connect_inv.
  - destruct (instances (settle s) !! r) as [i|]; [|discriminate].
    destruct (destroyed i || destroying i); [discriminate|].
    intros [= <-]. apply settle_inv, destroy_inv, Is.
  - destruct (intervals (settle s) !! h) as [m|]; [|discriminate].
    intros [= <-]. now apply sampler_callback_inv.
  - intros [= <-]. exact Is.
Qed.

Lemma execs_inv (cs : list Command) (s s' : Session) :
  Session_inv s -> execs s cs = Some s' -> Session_inv s'.
Proof.
  revert s. induction cs as [|c rest IH]; intros s I; cbn.
  - now intros [= <-].
  - destruct (exec s c) as [s1|] eqn:E; [|discriminate].
    apply IH. exact (exec_inv s s1 c I E).
Qed.

Lemma createPeer_table (peerId : string) (isInitiator : bool) (s : Session) :
  emitted (createPeer peerId isInitiator s) = emitted s
  /\ exists connection,
       peers (engine (createPeer peerId isInitiator s))
       = <[ peerId := connection ]> (peers (engine s))
       /\ id connection = peerId.
Proof.
  unfold createPeer.
  destruct (bool_decide (is_Some (peers (engine s) !! peerId)));
    cbn [with_peers with_engine engine peers emitted].
  - split; [apply removePeer_untouched|].
    eexists. split.
    + rewrite removePeer_table. apply insert_delete_eq.
    + reflexivity.
  - split; [reflexivity|]. eexists. split; reflexivity.
Qed.

(** Once the microtasks have run, a sampler whose identifier has no entry
    in the table watches an instance that is not connected. *)
Lemma orphaned_sampler (s : Session) (h : handle) (m : Sampler) :
  Session_inv s -> microtasks s = [] -> intervals s !! h = Some m ->
  peers (engine s) !! sampler_peerId m = None ->
  is_connected (sampler_peer m) s = false.
Proof.
  intros I Hq Hm Hnone. unfold is_connected.
  destruct (inv_sampler _ I h m Hm) as (i & Hi & Hid). rewrite Hi.
  destruct (destroyed i) eqn:Ed.
  - exact (proj1 (inv_destroyed _ I _ i Hi Ed)).
  - destruct (destroying i) eqn:Eg.
    + pose proof (inv_queue _ I _ i Hi Eg) as Hin. rewrite Hq in Hin. destruct Hin.
    + destruct (inv_live _ I _ i Hi Ed Eg) as (c & Hc & _). congruence.
Qed.

Lemma silent_nil (peerId : string) : silent_for peerId [].
Proof. intros stats []. Qed.

Lemma silent_app (peerId : string) (calls1 calls2 : list Hook) :
  silent_for peerId calls1 -> silent_for peerId calls2 ->
  silent_for peerId (calls1 ++ calls2).
Proof.
  intros H1 H2 stats Hin. apply in_app_or in Hin as [Hin|Hin].
  - exact (H1 stats Hin).
  - exact (H2 stats Hin).
Qed.

Lemma settle_silent (peerId : string) (s : Session) :
  peers (engine s) !! peerId = None ->
  peers (engine (settle s)) !! peerId = None
  /\ exists calls, emitted (settle s) = emitted s ++ calls /\ silent_for peerId calls.
Proof.
  intros Hnone. destruct (settle_frame s) as (_ & Ht & calls & Hm & Hcalls).
  split; [exact (Ht peerId Hnone)|].
  exists calls. split; [exact Hm | now apply only_disconnections_silent].
Qed.

Lemma exec_silent (peerId : string) (s s' : Session) (c : Command) :
  Session_inv s -> peers (engine s) !! peerId = None ->
  (forall isInitiator, c <> CreatePeer peerId isInitiator) ->
  exec s c = Some s' ->
  peers (engine s') !! peerId = None
  /\ exists calls, emitted s' = emitted s ++ calls /\ silent_for peerId calls.
Proof.
  intros I Hnone Hother.
  pose proof (settle_inv s I) as Is.
  pose proof (settle_quiet s) as Hq.
  destruct (settle_silent peerId s Hnone) as (Hnone1 & calls1 & He1 & Hs1).
  destruct c as [peerId' isInitiator | peerId' | | r | r | h | ]; cbn [exec].
  - intros [= <-].
    destruct (createPeer_table peerId' isInitiator s) as (He & c & Ht & _).
    split.
    + rewrite Ht, lookup_insert_ne; [exact Hnone|].
      intros ->. now apply (Hother isInitiator).
    + exists []. rewrite app_nil_r. split; [exact He | apply silent_nil].
  - intros [= <-]. split.
    + rewrite removePeer_table. apply lookup_delete_None. now right.
    + exists []. rewrite app_nil_r. split; [apply removePeer_untouched | apply silent_nil].
  - intros [= <-]. split; [apply lookup_empty|].
    exists []. rewrite app_nil_r. split; [|apply silent_nil].
    pose proof (dispose_destroys s (peers (engine s)) I) as H. cbv zeta in H.
    destruct H as (_ & _ & _ & Hm & _). exact Hm.
  - destruct (instances (settle s) !! r) as [i|]; [|discriminate].
    destruct (destroyed i || destroying i || connected i); [discriminate|].
    intros [= <-]. unfold startConnectionMonitoring.
    cbn [emit with_instances engine peers].
    destruct (peers (engine (settle s)) !! handlers_id i);
      cbn [engine emitted with_instances emit]; (split; [exact Hnone1|]);
      exists (calls1 ++ [onPeerConnected (handlers_id i)]);
      (split; [rewrite He1; now rewrite app_assoc|]);
      (apply silent_app; [exact Hs1|]); intros stats [H|[]]; discriminate H.
  - destruct (instances (settle s) !! r) as [i|]; [|discriminate].
    destruct (destroyed i || destroying i); [discriminate|].
    intros [= <-].
    destruct (destroy_frame r (settle s)) as (He & _ & Hm & _).
    destruct (settle_silent peerId (destroy r (settle s))) as (Hnone2 & calls2 & He2 & Hs2);
      [now rewrite He|].
    split; [exact Hnone2|].
    exists (calls1 ++ calls2). split.
    + rewrite He2, Hm, He1. now rewrite app_assoc.
    + now apply silent_app.
  - destruct (intervals (settle s) !! h) as [m|] eqn:Em; [|discriminate].
    intros [= <-]. unfold sampler_callback.
    destruct (is_connected (sampler_peer m) (settle s)) eqn:Ec; cbn [negb].
    + split; [exact Hnone1|].
      exists (calls1 ++ [onConnectionStatsUpdate (sampler_peerId m)
                           (getConnectionStats (sampler_peer m))]).
      split; [cbn [emit emitted]; rewrite He1; now rewrite app_assoc|].
      apply silent_app; [exact Hs1|].
      intros stats [H|[]]. injection H as Hid _.
      rewrite (orphaned_sampler (settle s) h m Is Hq Em) in Ec; [discriminate|].
      now rewrite Hid.
    + split; [exact Hnone1|]. exists calls1. cbn [with_intervals emitted].
      split; [exact He1 | exact Hs1].
  - intros [= <-]. split; [exact Hnone1|]. now exists calls1.
Qed.

Lemma execs_silent (peerId : string) (cs : list Command) (s s' : Session) :
  Session_inv s -> peers (engine s) !! peerId = None ->
  (forall isInitiator, ~ In (CreatePeer peerId isInitiator) cs) ->
  execs s cs = Some s' ->
  exists calls, emitted s' = emitted s ++ calls /\ silent_for peerId calls.
Proof.
  revert s. induction cs as [|c rest IH]; intros s I Hnone Hother; cbn.
  - intros [= <-]. exists []. rewrite app_nil_r. split; [reflexivity | apply silent_nil].
  - destruct (exec s c) as [s1|] eqn:E; [|discriminate]. intros Hrest.
    destruct (exec_silent peerId s s1 c I Hnone) as (Hnone1 & calls1 & He1 & Hs1);
      [intros b ->; apply (Hother b); now left | exact E |].
    destruct (IH s1 (exec_inv _ _ _ I E) Hnone1) as (calls2 & He2 & Hs2);
      [intros b Hb; apply (Hother b); now right | exact Hrest |].
    exists (calls1 ++ calls2). split.
    + rewrite He2, He1. now rewrite app_assoc.
    + now apply silent_app.
Qed.

(** C9 (as the program has it).  [removePeer] calls [destroy()] on the
    connection and drops it from the table, but leaves its sampler pending.
    From then on, as long as no connection is created again for that
    identifier, no [onConnectionStatsUpdate] is called for it; and the next
    callback of a sampler of that identifier, which runs in a later task,
    finds the instance not connected, cancels the sampler and calls
    nothing. *)
Theorem sampler_is_silent_after_removePeer
    (cfg : WebRTCConfig) (history later : list Command) (s s' : Session)
    (peerId : string) :
  execs (new_Session cfg) history = Some s ->
  execs (removePeer peerId s) later = Some s' ->
  (forall isInitiator, ~ In (CreatePeer peerId isInitiator) later) ->
  let closed := removePeer peerId s in
  intervals closed = intervals s
  /\ (exists calls, emitted s' = emitted closed ++ calls /\ silent_for peerId calls)
  /\ (forall h m,
        intervals closed !! h = Some m -> sampler_peerId m = peerId ->
        exec closed (Tick h)
        = Some (with_intervals (delete h (intervals closed)) (settle closed))).
Proof.
  intros Hhistory Hlater Hother closed.
  pose proof (execs_inv history _ _ (new_Session_inv cfg) Hhistory) as I.
  pose proof (removePeer_inv peerId s I) as Ic. fold closed in Ic.
  assert (Hnone : peers (engine closed) !! peerId = None).
  { subst closed. rewrite removePeer_table. apply lookup_delete_eq. }
  split; [apply removePeer_untouched|]. split.
  - exact (execs_silent peerId later closed s' Ic Hnone Hother Hlater).
  - intros h m Hm Hid. cbn [exec].
    destruct (settle_frame closed) as (Hi & Ht & _).
    rewrite Hi, Hm. unfold sampler_callback.
    rewrite (orphaned_sampler (settle closed) h m (settle_inv _ Ic) (settle_quiet _)).
    + cbn [negb]. now rewrite Hi.
    + now rewrite Hi.
    + apply Ht. now rewrite Hid.
Qed.

Lemma sampler_is_silent_after_removePeer_witness :
  let cfg := {| stunServers := ["stun:stun.l.google.com:19302"];
                turnServers := None; maxPeers := 50 |} in
  let history := [CreatePeer "alice" true; PeerConnect 1%positive; Tick 1%positive] in
  let later := [Tick 1%positive; CreatePeer "bob" false; PeerConnect 2%positive;
                Tick 2%positive] in
  let s := default (new_Session cfg) (execs (new_Session cfg) history) in
  let s' := default s (execs (removePeer "alice" s) later) in
  execs (new_Session cfg) history = Some s
  /\ execs (removePeer "alice" s) later = Some s'
  /\ intervals (removePeer "alice" s) = intervals s
  /\ exists calls,
       emitted s' = emitted (removePeer "alice" s) ++ calls /\ silent_for "alice" calls.
Proof.
  intros cfg history later s s'.
  assert (Hhistory : execs (new_Session cfg) history = Some s) by (vm_compute; reflexivity).
  assert (Hlater : execs (removePeer "alice" s) later = Some s') by (vm_compute; reflexivity).
  assert (Hother : forall isInitiator, ~ In (CreatePeer "alice" isInitiator) later).
  { intros b [H|[H|[H|[H|[]]]]]; discriminate H. }
  split; [exact Hhistory|]. split; [exact Hlater|].
  destruct (sampler_is_silent_after_removePeer cfg history later s s' "alice"
              Hhistory Hlater Hother) as (Hkept & Hsilent & _).
  split; [exact Hkept | exact Hsilent].
Defined.

(** C9 (as worded) fails.  A connection is created, connects, and is then
    removed: its sampler is still pending after [removePeer], the instance
    is even still connected when [removePeer] returns, and the callback of
    the sampler does run once more, in a later task; that run is the one
    that cancels it. *)
Lemma removePeer_leaves_sampler_pending :
  let cfg := {| stunServers := ["stun:stun.l.google.com:19302"];
                turnServers := None; maxPeers := 50 |} in
  let sampler := {| sampler_peerId := "alice"; sampler_peer := 1%positive |} in
  let s := default (new_Session cfg)
             (execs (new_Session cfg) [CreatePeer "alice" true; PeerConnect 1%positive]) in
  let closed := removePeer "alice" s in
  intervals s !! 1%positive = Some sampler
  /\ peers (engine closed) !! "alice" = None
  /\ is_connected 1%positive closed = true
  /\ is_connected 1%positive (settle closed) = false
  /\ intervals closed !! 1%positive = Some sampler
  /\ exec closed (Tick 1%positive)
     = Some (sampler_callback 1%positive sampler (settle closed))
  /\ intervals (sampler_callback 1%positive sampler (settle closed)) !! 1%positive = None
  /\ intervals closed <> ∅.
Proof.
  cbv zeta.
  split; [vm_compute; reflexivity|].
  split; [vm_compute; reflexivity|].
  split; [vm_compute; reflexivity|].
  split; [vm_compute; reflexivity|].
  split; [vm_compute; reflexivity|].
  split; [vm_compute; reflexivity|].
  split; [vm_compute; reflexivity|].
  intros H. apply (f_equal (fun m => m !! 1%positive)) in H.
  vm_compute in H. discriminate.
Qed.

(** ** Order on numbers

    Comparison of binary64 values, through their specification: [<=] is
    transitive, [<] excludes the converse [<=], and two values that are not
    NaN are always comparable. *)

Ltac compare_cases :=
  repeat match goal with
  | H : context [Z.compare ?a ?b] |- _ => destruct (Z.compare_spec a b)
  | |- context [Z.compare ?a ?b] => destruct (Z.compare_spec a b)
  | H : context [Pos.compare_cont Eq ?a ?b] |- _ =>
      change (Pos.compare_cont Eq a b) with (Pos.compare a b) in H;
      destruct (Pos.compare_spec a b)
  | |- context [Pos.compare_cont Eq ?a ?b] =>
      change (Pos.compare_cont Eq a b) with (Pos.compare a b);
      destruct (Pos.compare_spec a b)
  end.

Ltac spec_float_cases x y :=
  destruct x as [?s|?s| |?s ?m ?e], y as [?s|?s| |?s ?m ?e];
  cbn; try discriminate; try reflexivity;
  repeat match goal with s : bool |- _ => destruct s end;
  cbn; try discriminate; try reflexivity.

Lemma SFleb_trans (x y z : spec_float) :
  SFleb x y = true -> SFleb y z = true -> SFleb x z = true.
Proof.
  unfold SFleb.
  destruct z as [sz|sz| |sz mz ez]; spec_float_cases x y;
    compare_cases; cbn; try discriminate; try reflexivity; subst; try lia.
Qed.

Lemma SFltb_not_leb (x y : spec_float) : SFltb x y = true -> SFleb y x = false.
Proof.
  unfold SFltb, SFleb. spec_float_cases x y;
    compare_cases; cbn; try discriminate; try reflexivity; subst; try lia.
Qed.

Lemma SFleb_total (x y : spec_float) :
  SFeqb x x = true -> SFeqb y y = true -> SFltb x y = false -> SFleb y x = true.
Proof.
  unfold SFltb, SFleb, SFeqb. spec_float_cases x y; intros _ _;
    compare_cases; cbn; try discriminate; try reflexivity; subst; try lia.
Qed.

Lemma num_le_trans (x y z : number) :
  PrimFloat.leb x y = true -> PrimFloat.leb y z = true -> PrimFloat.leb x z = true.
Proof. rewrite !leb_spec. apply SFleb_trans. Qed.

Lemma num_lt_le (x y : number) : PrimFloat.ltb x y = true -> PrimFloat.leb x y = true.
Proof.
  rewrite ltb_spec, leb_spec. unfold SFltb, SFleb.
  destruct (SFcompare (Prim2SF x) (Prim2SF y)) as [[]|]; try discriminate; reflexivity.
Qed.

Lemma num_lt_not_le (x y : number) :
  PrimFloat.ltb x y = true -> PrimFloat.leb y x = false.
Proof. rewrite ltb_spec, leb_spec. apply SFltb_not_leb. Qed.

Lemma num_not_lt_le (x y : number) :
  PrimFloat.eqb x x = true -> PrimFloat.eqb y y = true ->
  PrimFloat.ltb x y = false -> PrimFloat.leb y x = true.
Proof. rewrite !FloatAxioms.eqb_spec, ltb_spec, leb_spec. apply SFleb_total. Qed.

(** ** The selection policy *)

(** A tier that fits lets every poorer tier fit. *)
Lemma fits_poorer (x : number) (t p : QualityTier) :
  poorer t p -> fits x t = true -> fits x p = true.
Proof.
  unfold poorer, fits. intros Hp Ht.
  exact (num_le_trans _ _ _ (num_lt_le _ _ Hp) Ht).
Qed.

Lemma tier_by_name (a b : QualityTier) : name a <> name b -> a <> b.
Proof. congruence. Qed.

Ltac tier_neq :=
  match goal with
  | H : ?a = ?b |- _ =>
      exfalso; revert H; apply tier_by_name; discriminate
  end.

Lemma fits_chain (x : number) :
  (fits x tier_1080p = true -> fits x tier_720p = true)
  /\ (fits x tier_720p = true -> fits x tier_480p = true)
  /\ (fits x tier_480p = true -> fits x tier_240p = true)
  /\ (fits x tier_240p = true -> fits x tier_144p = true)
  /\ (fits x tier_144p = true -> fits x tier_audio_only = true).
Proof. repeat split; apply fits_poorer; reflexivity. Qed.

Lemma getRecommendedTier_scan (bandwidth : number) :
  getRecommendedTier bandwidth =
    let x := bufferedBandwidth bandwidth in
    if fits x tier_1080p then tier_1080p
    else if fits x tier_720p then tier_720p
    else if fits x tier_480p then tier_480p
    else if fits x tier_240p then tier_240p
    else if fits x tier_144p then tier_144p
    else tier_audio_only.
Proof.
  unfold getRecommendedTier, QUALITY_TIERS, fits, num_ge. cbn [List.find].
  repeat match goal with
         | |- context [PrimFloat.leb ?a ?b] => destruct (PrimFloat.leb a b)
         end; reflexivity.
Qed.

(** X1. The recommended tier, by thresholds on the buffered bandwidth
    (bandwidth times 0.8): the 1080p tier exactly when 2328 fits; each other
    video tier exactly when its own total fits and the total of the tier
    just above does not; the audio-only tier exactly when 246, the total of
    the 144p tier, does not fit, which includes a bandwidth that is NaN. *)
Theorem recommended_tier_thresholds (bandwidth : number) :
  let x := bufferedBandwidth bandwidth in
  (getRecommendedTier bandwidth = tier_1080p <-> fits x tier_1080p = true)
  /\ (getRecommendedTier bandwidth = tier_720p <->
      fits x tier_720p = true /\ fits x tier_1080p = false)
  /\ (getRecommendedTier bandwidth = tier_480p <->
      fits x tier_480p = true /\ fits x tier_720p = false)
  /\ (getRecommendedTier bandwidth = tier_240p <->
      fits x tier_240p = true /\ fits x tier_480p = false)
  /\ (getRecommendedTier bandwidth = tier_144p <->
      fits x tier_144p = true /\ fits x tier_240p = false)
  /\ (getRecommendedTier bandwidth = tier_audio_only <-> fits x tier_144p = false).
Proof.
  intros x. rewrite getRecommendedTier_scan. fold x. cbv zeta.
  destruct (fits_chain x) as (H1 & H2 & H3 & H4 & H5).
  destruct (fits x tier_1080p), (fits x tier_720p), (fits x tier_480p),
    (fits x tier_240p), (fits x tier_144p);
    try (discriminate (H1 eq_refl)); try (discriminate (H2 eq_refl));
    try (discriminate (H3 eq_refl)); try (discriminate (H4 eq_refl));
    repeat split; intros; try reflexivity; try discriminate;
    try tier_neq;
    try match goal with H : _ /\ _ |- _ => destruct H; discriminate end.
Qed.

Lemma unfit_current_tier (bandwidth : number) (current : QualityTier) :
  In current QUALITY_TIERS ->
  fits (bufferedBandwidth bandwidth) current = false ->
  poorer current (getRecommendedTier bandwidth)
  \/ (current = tier_audio_only /\ getRecommendedTier bandwidth = tier_audio_only).
Proof.
  rewrite getRecommendedTier_scan. cbv zeta.
  set (x := bufferedBandwidth bandwidth).
  destruct (fits_chain x) as (H1 & H2 & H3 & H4 & H5).
  revert current.
  apply (catalog_cases (fun current => fits x current = false -> _));
    destruct (fits x tier_1080p), (fits x tier_720p), (fits x tier_480p),
      (fits x tier_240p), (fits x tier_144p), (fits x tier_audio_only);
    try (discriminate (H1 eq_refl)); try (discriminate (H2 eq_refl));
    try (discriminate (H3 eq_refl)); try (discriminate (H4 eq_refl));
    try (discriminate (H5 eq_refl));
    intros Hf; try discriminate Hf;
    first [left; reflexivity | right; split; reflexivity].
Qed.

Lemma fit_current_tier (bandwidth : number) (current : QualityTier) :
  In current QUALITY_TIERS ->
  fits (bufferedBandwidth bandwidth) current = true ->
  getRecommendedTier bandwidth = current
  \/ poorer (getRecommendedTier bandwidth) current.
Proof.
  rewrite getRecommendedTier_scan. cbv zeta.
  set (x := bufferedBandwidth bandwidth).
  destruct (fits_chain x) as (H1 & H2 & H3 & H4 & H5).
  revert current.
  apply (catalog_cases (fun current => fits x current = true -> _));
    destruct (fits x tier_1080p), (fits x tier_720p), (fits x tier_480p),
      (fits x tier_240p), (fits x tier_144p), (fits x tier_audio_only);
    try (discriminate (H1 eq_refl)); try (discriminate (H2 eq_refl));
    try (discriminate (H3 eq_refl)); try (discriminate (H4 eq_refl));
    try (discriminate (H5 eq_refl));
    intros Hf; try discriminate Hf;
    first [left; reflexivity | right; reflexivity].
Qed.

Lemma catalog_totals_are_numbers (t : QualityTier) :
  In t QUALITY_TIERS -> PrimFloat.eqb (totalBandwidth t) (totalBandwidth t) = true.
Proof. revert t. apply catalog_cases; reflexivity. Qed.

(** X2. [shouldDowngrade] agrees with the selection policy.  When it
    answers yes for a bandwidth, [getRecommendedTier] on that bandwidth
    gives a strictly poorer tier than the current one, or stays on the
    audio-only floor when the manager is already there.  When it answers no
    and the buffered bandwidth is a number, [getRecommendedTier] gives the
    current tier or a richer one. *)
Theorem shouldDowngrade_agrees_with_policy (bandwidth : number) (q : QualityManager) :
  In (currentTier q) QUALITY_TIERS ->
  (shouldDowngrade bandwidth q = true ->
     poorer (currentTier q) (getRecommendedTier bandwidth)
     \/ (currentTier q = tier_audio_only
         /\ getRecommendedTier bandwidth = tier_audio_only))
  /\ (shouldDowngrade bandwidth q = false ->
      PrimFloat.eqb (bufferedBandwidth bandwidth) (bufferedBandwidth bandwidth) = true ->
      getRecommendedTier bandwidth = currentTier q
      \/ poorer (getRecommendedTier bandwidth) (currentTier q)).
Proof.
  intros Hin. unfold shouldDowngrade.
  change (PrimFloat.mul bandwidth 0.8%float) with (bufferedBandwidth bandwidth).
  split.
  - intros Hyes. apply unfit_current_tier; [exact Hin|].
    exact (num_lt_not_le _ _ Hyes).
  - intros Hno Hnumber. apply fit_current_tier; [exact Hin|].
    exact (num_not_lt_le _ _ Hnumber (catalog_totals_are_numbers _ Hin) Hno).
Qed.

Lemma shouldDowngrade_agrees_with_policy_witness :
  let q := {| currentTier := tier_720p; bandwidthHistory := [];
              stabilizationTimer := None |} in
  shouldDowngrade 1000%float q = true
  /\ poorer (currentTier q) (getRecommendedTier 1000%float)
  /\ shouldDowngrade 3000%float q = false
  /\ poorer (getRecommendedTier 3000%float) (currentTier q).
Proof.
  intros q.
  assert (Hin : In (currentTier q) QUALITY_TIERS) by in_catalog.
  assert (Hyes : shouldDowngrade 1000%float q = true) by reflexivity.
  assert (Hno : shouldDowngrade 3000%float q = false) by reflexivity.
  destruct (shouldDowngrade_agrees_with_policy 1000%float q Hin) as [Hdown _].
  destruct (shouldDowngrade_agrees_with_policy 3000%float q Hin) as [_ Hup].
  split; [exact Hyes|]. split.
  - destruct (Hdown Hyes) as [H | [H _]]; [exact H | discriminate H].
  - split; [exact Hno|].
    destruct (Hup Hno eq_refl) as [H | H]; [|exact H].
    exfalso. revert H. apply tier_by_name. discriminate.
Defined.

Lemma findIndex_from_absent {A : Type} (test : A -> bool) (l : list A) (position : Z) :
  Forall (fun x => test x = false) l -> findIndex_from test l position = (-1)%Z.
Proof.
  intros Hall. revert position.
  induction Hall as [|x rest Hx _ IH]; intros position; cbn; [reflexivity|].
  rewrite Hx. apply IH.
Qed.

(** X3. [canUpgrade] looks exactly one tier up.  On the 1080p tier it is
    false whatever the bandwidth; on any other catalog tier it holds exactly
    when 1.2 times the bandwidth reaches the total of the tier just before
    it in the catalog; on a tier whose name is not in the catalog it is
    false. *)
Theorem canUpgrade_looks_one_tier_up (bandwidth : number) (q : QualityManager) :
  (currentTier q = tier_1080p -> canUpgrade bandwidth q = false)
  /\ (forall (i : nat) (nextTier : QualityTier),
        QUALITY_TIERS !! i = Some nextTier ->
        QUALITY_TIERS !! S i = Some (currentTier q) ->
        canUpgrade bandwidth q
        = num_ge (PrimFloat.mul bandwidth 1.2%float) (totalBandwidth nextTier))
  /\ (~ recognised (name (currentTier q)) -> canUpgrade bandwidth q = false).
Proof.
  split; [|split].
  - intros Hcur. unfold canUpgrade. rewrite Hcur. reflexivity.
  - intros i nextTier Hnext Hcur. unfold canUpgrade.
    do 5 (destruct i as [|i];
          [cbn in Hnext, Hcur; injection Hnext as <-; injection Hcur as <-;
           reflexivity|]).
    cbn in Hcur. discriminate Hcur.
  - intros Hno. unfold canUpgrade, findIndex.
    rewrite findIndex_from_absent; [reflexivity|].
    apply List.Forall_forall. intros t Hin.
    destruct (String.eqb_spec (name t) (name (currentTier q))) as [Heq|]; [|reflexivity].
    exfalso. apply Hno. now exists t.
Qed.

Lemma canUpgrade_looks_one_tier_up_witness :
  let q := {| currentTier := tier_480p; bandwidthHistory := [];
              stabilizationTimer := None |} in
  QUALITY_TIERS !! 1%nat = Some tier_720p
  /\ QUALITY_TIERS !! 2%nat = Some (currentTier q)
  /\ canUpgrade 1220%float q = num_ge (PrimFloat.mul 1220 1.2)%float 1456%float
  /\ canUpgrade 1220%float q = true.
Proof.
  intros q.
  assert (Hnext : QUALITY_TIERS !! 1%nat = Some tier_720p) by reflexivity.
  assert (Hcur : QUALITY_TIERS !! 2%nat = Some (currentTier q)) by reflexivity.
  split; [exact Hnext|]. split; [exact Hcur|].
  destruct (canUpgrade_looks_one_tier_up 1220%float q) as (_ & Hup & _).
  split; [exact (Hup 1%nat tier_720p Hnext Hcur)|].
  rewrite (Hup 1%nat tier_720p Hnext Hcur). reflexivity.
Defined.

(** ** The sample window and the pending timer *)

Lemma slice_last_short {A : Type} (n : nat) (l : list A) :
  (length l <= n)%nat -> slice_last n l = l.
Proof.
  intros H. unfold slice_last.
  replace (length l - n)%nat with 0%nat by lia. reflexivity.
Qed.

Lemma slice_last_length {A : Type} (n : nat) (l : list A) :
  length (slice_last n l) = Nat.min n (length l).
Proof. unfold slice_last. rewrite length_drop. lia. Qed.

Lemma slice_last_snoc {A : Type} (n : nat) (l : list A) (x : A) :
  slice_last (S n) (l ++ [x]) = slice_last n l ++ [x].
Proof.
  unfold slice_last. rewrite length_app. cbn [length].
  replace (length l + 1 - S n)%nat with (length l - n)%nat by lia.
  apply drop_app_le. lia.
Qed.

Lemma slice_last_twice {A : Type} (m n : nat) (l : list A) :
  (m <= n)%nat -> slice_last m (slice_last n l) = slice_last m l.
Proof.
  intros Hmn. unfold slice_last. rewrite length_drop, drop_drop. f_equal. lia.
Qed.

(** Keeping the last [n] after each addition keeps the last [n] of all. *)
Lemma slice_last_step {A : Type} (n : nat) (l : list A) (x : A) :
  slice_last (S n) (slice_last (S n) l ++ [x]) = slice_last (S n) (l ++ [x]).
Proof.
  rewrite !slice_last_snoc. rewrite slice_last_twice by lia. reflexivity.
Qed.

Lemma push_sample_slice (history : list number) (bandwidth : number) :
  (length history <= 10)%nat ->
  push_sample history bandwidth = slice_last 10 (history ++ [bandwidth]).
Proof.
  intros H. unfold push_sample, slice_last. rewrite length_app. cbn [length].
  destruct (Nat.ltb_spec 10 (length history + 1)) as [Hfull|Hroom].
  - replace (length history + 1 - 10)%nat with 1%nat by lia.
    destruct history; reflexivity.
  - replace (length history + 1 - 10)%nat with 0%nat by lia. reflexivity.
Qed.

Lemma slice_last_push (l : list number) (bandwidth : number) :
  push_sample (slice_last 10 l) bandwidth = slice_last 10 (l ++ [bandwidth]).
Proof.
  rewrite push_sample_slice by (rewrite slice_last_length; lia).
  apply slice_last_step.
Qed.

Lemma adjustQuality_history (q : QualityManager) :
  bandwidthHistory (fst (adjustQuality q)) = bandwidthHistory q.
Proof. unfold adjustQuality. destruct (negb _); reflexivity. Qed.

Lemma step_window (w w' : Loop) (ta : Z * Action) (l : list number) :
  bandwidthHistory (manager w) = slice_last 10 l ->
  step w ta = Some w' ->
  bandwidthHistory (manager w') = slice_last 10 (l ++ samples_of [ta]).
Proof.
  intros Hw. destruct ta as [t a]. unfold step, samples_of.
  destruct (t <? clock w)%Z; [discriminate|]. cbn [flat_map snd].
  destruct a as [bandwidth | quality | h].
  - intros [= <-]. cbn. rewrite Hw. apply slice_last_push.
  - intros [= <-]. rewrite !app_nil_r. unfold call_setQuality.
    pose proof (setQuality_effect quality (manager (at_time t w))) as (Hh & _).
    destruct (setQuality quality (manager (at_time t w))); cbn in *. congruence.
  - destruct (timeouts (at_time t w) !! h) as [due|]; [|discriminate].
    destruct (due <=? t)%Z; [|discriminate].
    intros [= <-]. rewrite !app_nil_r. unfold run_timeout.
    pose proof (adjustQuality_history (manager (at_time t w))) as Hh.
    destruct (adjustQuality (manager (at_time t w))); cbn in *. congruence.
Qed.

Lemma run_window (trace : list (Z * Action)) (w w' : Loop) (l : list number) :
  bandwidthHistory (manager w) = slice_last 10 l ->
  run w trace = Some w' ->
  bandwidthHistory (manager w') = slice_last 10 (l ++ samples_of trace).
Proof.
  revert w l. induction trace as [|ta rest IH]; intros w l Hw; cbn [run].
  - intros [= <-]. unfold samples_of. cbn. now rewrite app_nil_r.
  - destruct (step w ta) as [w1|] eqn:E; [|discriminate]. intros Hrest.
    pose proof (step_window w w1 ta l Hw E) as H1.
    rewrite (IH w1 _ H1 Hrest).
    unfold samples_of. cbn [flat_map]. now rewrite app_nil_r, <- app_assoc.
Qed.

(** X4. The window is a sliding one: whatever the trace, the manager holds
    the last ten samples passed to [updateBandwidth], in arrival order, and
    all of them while fewer than ten have arrived.  Timer callbacks and
    [setQuality] calls in between do not touch it. *)
Theorem window_keeps_last_ten
    (initialQuality : option VideoQuality) (trace : list (Z * Action)) (w : Loop) :
  run (boot initialQuality) trace = Some w ->
  bandwidthHistory (manager w) = slice_last 10 (samples_of trace).
Proof.
  intros Hrun.
  exact (run_window trace (boot initialQuality) w [] eq_refl Hrun).
Qed.

Lemma window_keeps_last_ten_witness :
  let trace := map (fun k => (Z.of_nat k, UpdateBandwidth (num_of_nat k))) (seq 0 12)
               ++ [(2011%Z, Timeout 12%positive); (2012%Z, SetQuality "1080p")] in
  exists w, run (boot None) trace = Some w
            /\ bandwidthHistory (manager w) = map num_of_nat (seq 2 10).
Proof.
  intros trace.
  destruct (run (boot None) trace) as [w|] eqn:Hrun; [|vm_compute in Hrun; discriminate].
  exists w. split; [reflexivity|].
  rewrite (window_keeps_last_ten None trace w Hrun). vm_compute. reflexivity.
Defined.

(** X5. A manual choice does not cancel the pending evaluation.  If a timer
    is pending when [setQuality] is called, it is still pending afterwards,
    and when it runs the tier becomes the one recommended for the window,
    whatever tier was chosen by hand. *)
Theorem pending_timer_overrides_setQuality
    (initialQuality : option VideoQuality) (trace : list (Z * Action))
    (w w1 w2 : Loop) (t1 t2 : Z) (quality : VideoQuality) (h : handle) :
  run (boot initialQuality) trace = Some w ->
  step w (t1, SetQuality quality) = Some w1 ->
  step w1 (t2, Timeout h) = Some w2 ->
  timeouts w1 = timeouts w
  /\ getCurrentTier (manager w2) = getRecommendedTier (getAverageBandwidth (manager w)).
Proof.
  intros Hrun Hset Hfire.
  pose proof (run_inv trace _ _ (boot_inv initialQuality) Hrun) as I.
  pose proof (step_inv _ _ _ I Hset) as I1.
  rewrite (timeout_commits w1 w2 t2 h I1 Hfire).
  unfold step in Hset. destruct (t1 <? clock w)%Z; [discriminate|].
  injection Hset as <-. unfold call_setQuality.
  pose proof (setQuality_effect quality (manager (at_time t1 w))) as (Hh & _).
  destruct (setQuality quality (manager (at_time t1 w))) as [q changed].
  cbn [fst manager timeouts at_time] in *.
  split; [reflexivity|].
  rewrite (average_of_window q _ Hh).
  rewrite (average_of_window (manager w) _ eq_refl). reflexivity.
Qed.

Lemma pending_timer_overrides_setQuality_witness :
  exists w w1 w2,
    run (boot None) [(0%Z, UpdateBandwidth 100%float)] = Some w
    /\ step w (500%Z, SetQuality "1080p") = Some w1
    /\ getCurrentTier (manager w1) = tier_1080p
    /\ step w1 (2000%Z, Timeout 1%positive) = Some w2
    /\ getCurrentTier (manager w2) = tier_audio_only.
Proof.
  pose (w := updateBandwidth 100%float (at_time 0 (boot None))).
  pose (w1 := call_setQuality "1080p" (at_time 500 w)).
  pose (w2 := run_timeout 1%positive (at_time 2000 w1)).
  assert (Hrun : run (boot None) [(0%Z, UpdateBandwidth 100%float)] = Some w)
    by reflexivity.
  assert (Hset : step w (500%Z, SetQuality "1080p") = Some w1) by reflexivity.
  assert (Hfire : step w1 (2000%Z, Timeout 1%positive) = Some w2) by reflexivity.
  exists w, w1, w2.
  split; [exact Hrun|]. split; [exact Hset|]. split; [reflexivity|].
  split; [exact Hfire|].
  destruct (pending_timer_overrides_setQuality None _ w w1 w2 500%Z 2000%Z "1080p"
              1%positive Hrun Hset Hfire) as [_ Htier].
  rewrite Htier. reflexivity.
Defined.

(** X6. One evaluation per burst of samples.  Once a timer callback has run
    no timer is pending: no further callback can run, at any time, until
    [updateBandwidth] is called again, so the tier cannot change on its
    own. *)
Theorem no_timer_after_evaluation
    (initialQuality : option VideoQuality) (trace : list (Z * Action))
    (w w' : Loop) (t : Z) (h : handle) :
  run (boot initialQuality) trace = Some w ->
  step w (t, Timeout h) = Some w' ->
  timeouts w' = ∅
  /\ (forall t' h', step w' (t', Timeout h') = None)
  /\ (forall t' quality w'',
        step w' (t', SetQuality quality) = Some w'' ->
        forall t'' h', step w'' (t'', Timeout h') = None).
Proof.
  intros Hrun Hfire.
  pose proof (run_inv trace _ _ (boot_inv initialQuality) Hrun) as I.
  assert (Hempty : timeouts w' = ∅).
  { unfold step in Hfire. destruct (t <? clock w)%Z; [discriminate|].
    destruct (timeouts (at_time t w) !! h) as [due|] eqn:Eh; [|discriminate].
    destruct (due <=? t)%Z; [|discriminate]. injection Hfire as <-.
    unfold run_timeout. destruct (adjustQuality (manager (at_time t w))).
    cbn [timeouts at_time] in *.
    apply map_empty. intros h'.
    destruct (delete h (timeouts w) !! h') as [due'|] eqn:E; [|reflexivity].
    apply lookup_delete_Some in E as [Hne E].
    apply (inv_single _ I) in E. apply (inv_single _ I) in Eh. congruence. }
  assert (Hidle : forall v : Loop, timeouts v = ∅ ->
            forall t' h', step v (t', Timeout h') = None).
  { intros v Hv t' h'. unfold step. destruct (t' <? clock v)%Z; [reflexivity|].
    cbn [at_time timeouts]. rewrite Hv, lookup_empty. reflexivity. }
  split; [exact Hempty|]. split; [exact (Hidle w' Hempty)|].
  intros t' quality w'' Hset. apply Hidle.
  unfold step in Hset. destruct (t' <? clock w')%Z; [discriminate|].
  injection Hset as <-. unfold call_setQuality.
  destruct (setQuality quality (manager (at_time t' w'))). exact Hempty.
Qed.

Lemma no_timer_after_evaluation_witness :
  exists w w',
    run (boot None) [(0%Z, UpdateBandwidth 100%float)] = Some w
    /\ step w (2000%Z, Timeout 1%positive) = Some w'
    /\ step w' (5000%Z, Timeout 1%positive) = None.
Proof.
  pose (w := updateBandwidth 100%float (at_time 0 (boot None))).
  pose (w' := run_timeout 1%positive (at_time 2000 w)).
  assert (Hrun : run (boot None) [(0%Z, UpdateBandwidth 100%float)] = Some w)
    by reflexivity.
  assert (Hfire : step w (2000%Z, Timeout 1%positive) = Some w') by reflexivity.
  exists w, w'. split; [exact Hrun|]. split; [exact Hfire|].
  exact (proj1 (proj2 (no_timer_after_evaluation None _ w w' 2000%Z 1%positive
                         Hrun Hfire)) 5000%Z 1%positive).
Defined.

(** ** The audio processor *)

Lemma processTranscript_store (t : Audio.Transcript) (a : Audio.AudioProcessor) :
  exists subtitle,
    snd (Audio.processTranscript t a) = [Audio.onSubtitleUpdate subtitle]
    /\ Audio.subtitles (fst (Audio.processTranscript t a))
       = slice_last 50 (Audio.subtitles a ++ [subtitle])
    /\ Audio.audioSettings (fst (Audio.processTranscript t a)) = Audio.audioSettings a.
Proof.
  unfold Audio.processTranscript. cbv zeta. eexists. split; [reflexivity|].
  split; [|reflexivity]. cbn [fst Audio.subtitles]. unfold slice_last.
  destruct (Nat.ltb_spec 50 (length (Audio.subtitles a ++
    [{| Audio.id := pretty (Audio.now_id t); Audio.text := Audio.heard t;
        Audio.language := Audio.sourceLanguage (Audio.audioSettings a);
        Audio.startTime := Audio.now_start t;
        Audio.endTime := (Audio.now_end t
                          + Z.of_nat (Audio.utf16_length (Audio.heard t)) * 100)%Z;
        Audio.confidence := Audio.heard_confidence t;
        Audio.translation := if Audio.enableTranslation (Audio.audioSettings a)
                             then Audio.translateText (Audio.fetched t) (Audio.heard t)
                             else None |}]))) as [Hfull|Hroom].
  - reflexivity.
  - match goal with |- _ = drop ?n _ => replace n with 0%nat by lia end. reflexivity.
Qed.

Lemma calls_store (cs : list Audio.Call) (a : Audio.AudioProcessor) (l : list Audio.Subtitle) :
  Forall (fun c => c <> Audio.ClearSubtitles) cs ->
  Audio.subtitles a = slice_last 50 l ->
  Audio.subtitles (fst (Audio.calls a cs))
  = slice_last 50 (l ++ Audio.reported (snd (Audio.calls a cs))).
Proof.
  intros Hcs. revert a l. induction Hcs as [|c rest Hc _ IH]; intros a l Ha.
  - cbn. now rewrite app_nil_r.
  - cbn [Audio.calls].
    assert (Hstep : Audio.subtitles (fst (Audio.call a c))
                    = slice_last 50 (l ++ Audio.reported (snd (Audio.call a c)))).
    { destruct c as [t | newBitrate | | source target | ]; cbn [Audio.call].
      - destruct (processTranscript_store t a) as (subtitle & Hh & Hs & _).
        rewrite Hh, Hs, Ha. cbn. apply slice_last_step.
      - unfold Audio.adjustBitrate. destruct (_ || _); cbn; now rewrite app_nil_r.
      - cbn. now rewrite app_nil_r.
      - cbn. now rewrite app_nil_r.
      - congruence. }
    destruct (Audio.call a c) as [a1 hooks1]. cbn [fst snd] in Hstep.
    specialize (IH a1 _ Hstep).
    destruct (Audio.calls a1 rest) as [a2 hooks2]. cbn [fst snd] in *.
    rewrite IH. unfold Audio.reported. rewrite flat_map_app, app_assoc. reflexivity.
Qed.

(** X7. The subtitle store is a sliding one.  Through any sequence of calls
    made after the store was empty (a new processor, or [clearSubtitles]),
    [getSubtitles] gives the last fifty subtitles passed to
    [onSubtitleUpdate], in that order, and all of them while there are
    fewer than fifty. *)
Theorem subtitles_keep_last_fifty (a : Audio.AudioProcessor) (cs : list Audio.Call) :
  Audio.subtitles a = [] ->
  Forall (fun c => c <> Audio.ClearSubtitles) cs ->
  Audio.getSubtitles (fst (Audio.calls a cs))
  = slice_last 50 (Audio.reported (snd (Audio.calls a cs))).
Proof.
  intros Hempty Hcs. unfold Audio.getSubtitles.
  exact (calls_store cs a [] Hcs Hempty).
Qed.

Lemma subtitles_keep_last_fifty_witness :
  let settings := {| Audio.bitrate := 192%float; Audio.enableSubtitles := true;
                     Audio.enableTranslation := false;
                     Audio.sourceLanguage := "en-US"; Audio.targetLanguage := "es-ES";
                     Audio.enableNoiseReduction := true;
                     Audio.enableEchoCancellation := true;
                     Audio.enableAutoGainControl := true |} in
  let heard k := Audio.ProcessTranscript
                   {| Audio.now_id := Z.of_nat k; Audio.now_start := Z.of_nat k;
                      Audio.now_end := Z.of_nat k; Audio.heard := "hello";
                      Audio.heard_confidence := 0.9%float;
                      Audio.fetched := Audio.NetworkError |} in
  let cs := map heard (seq 0 52) in
  map Audio.startTime (Audio.getSubtitles (fst (Audio.calls (Audio.new_AudioProcessor settings) cs)))
  = map Z.of_nat (seq 2 50).
Proof.
  intros settings heard cs.
  assert (Hcs : Forall (fun c => c <> Audio.ClearSubtitles) cs).
  { apply List.Forall_forall. intros c Hin. apply in_map_iff in Hin as (k & <- & _).
    discriminate. }
  rewrite (subtitles_keep_last_fifty (Audio.new_AudioProcessor settings) cs eq_refl Hcs).
  vm_compute. reflexivity.
Defined.

(** X8. The sample rate follows the bitrate: [getOptimalSampleRate] is one
    of 16000, 22050, 32000 and 44100, and a processor with a bitrate at most
    that of another never has the higher sample rate. *)
Theorem sample_rate_follows_bitrate (a b : Audio.AudioProcessor) :
  In (Audio.getOptimalSampleRate a) [16000; 22050; 32000; 44100]%float
  /\ (PrimFloat.leb (Audio.bitrate (Audio.audioSettings a))
                    (Audio.bitrate (Audio.audioSettings b)) = true ->
      PrimFloat.leb (Audio.getOptimalSampleRate a) (Audio.getOptimalSampleRate b) = true).
Proof.
  unfold Audio.getOptimalSampleRate.
  set (x := Audio.bitrate (Audio.audioSettings a)).
  set (y := Audio.bitrate (Audio.audioSettings b)).
  split.
  - destruct (PrimFloat.leb x 64), (PrimFloat.leb x 128), (PrimFloat.leb x 192);
      cbn; tauto.
  - intros Hxy.
    assert (H : forall c, PrimFloat.leb y c = true -> PrimFloat.leb x c = true).
    { intros c Hy. exact (num_le_trans _ _ _ Hxy Hy). }
    pose proof (H 64%float) as H64. pose proof (H 128%float) as H128.
    pose proof (H 192%float) as H192.
    destruct (PrimFloat.leb y 64), (PrimFloat.leb y 128), (PrimFloat.leb y 192);
      try rewrite (H64 eq_refl); try rewrite (H128 eq_refl); try rewrite (H192 eq_refl);
      destruct (PrimFloat.leb x 64), (PrimFloat.leb x 128), (PrimFloat.leb x 192);
      try reflexivity;
      try discriminate (H64 eq_refl); try discriminate (H128 eq_refl);
      try discriminate (H192 eq_refl).
Qed.

Lemma sample_rate_follows_bitrate_witness :
  let settings b := {| Audio.bitrate := b; Audio.enableSubtitles := true;
                       Audio.enableTranslation := false;
                       Audio.sourceLanguage := "en-US"; Audio.targetLanguage := "es-ES";
                       Audio.enableNoiseReduction := true;
                       Audio.enableEchoCancellation := true;
                       Audio.enableAutoGainControl := true |} in
  PrimFloat.leb (Audio.getOptimalSampleRate (Audio.new_AudioProcessor (settings 96%float)))
                (Audio.getOptimalSampleRate (Audio.new_AudioProcessor (settings 160%float)))
  = true.
Proof.
  intros settings.
  exact (proj2 (sample_rate_follows_bitrate
                  (Audio.new_AudioProcessor (settings 96%float))
                  (Audio.new_AudioProcessor (settings 160%float))) eq_refl).
Defined.

(** A value that differs from itself is NaN: every comparison with it is
    false. *)
Lemma SFeqb_refl_false (x y : spec_float) :
  SFeqb x x = false ->
  SFltb x y = false /\ SFltb y x = false /\ SFleb x y = false /\ SFleb y x = false.
Proof.
  unfold SFeqb, SFltb, SFleb.
  destruct x as [s|s| |s m e]; cbn.
  - discriminate.
  - destruct s; discriminate.
  - intros _. destruct y as [s|s| |s m e]; repeat split.
  - destruct s; rewrite Z.compare_refl, Pos.compare_cont_refl; discriminate.
Qed.

Lemma num_nan_compare (x y : number) :
  PrimFloat.eqb x x = false ->
  PrimFloat.ltb x y = false /\ PrimFloat.ltb y x = false
  /\ PrimFloat.leb x y = false /\ PrimFloat.leb y x = false.
Proof. rewrite FloatAxioms.eqb_spec, !ltb_spec, !leb_spec. apply SFeqb_refl_false. Qed.

Lemma call_bitrate (a : Audio.AudioProcessor) (c : Audio.Call) :
  supported_bitrate (Audio.bitrate (Audio.audioSettings a)) ->
  numeric_call c ->
  supported_bitrate (Audio.bitrate (Audio.audioSettings (fst (Audio.call a c))))
  /\ Forall (fun s => supported_bitrate (Audio.bitrate s))
            (Audio.announced (snd (Audio.call a c))).
Proof.
  intros Ha Hc. destruct c as [t | newBitrate | | source target | ]; cbn [Audio.call].
  - split; [exact Ha | constructor].
  - unfold Audio.adjustBitrate. cbn [numeric_call] in Hc.
    destruct (PrimFloat.ltb newBitrate 64) eqn:Elow;
      [|destruct (PrimFloat.ltb 328 newBitrate) eqn:Ehigh]; cbn.
    + split; [exact Ha | constructor].
    + split; [exact Ha | constructor].
    + assert (Hin : supported_bitrate newBitrate).
      { split.
        - exact (num_not_lt_le newBitrate 64%float Hc eq_refl Elow).
        - exact (num_not_lt_le 328%float newBitrate eq_refl Hc Ehigh). }
      split; [exact Hin | constructor; [exact Hin | constructor]].
  - cbn. split; [split; reflexivity | repeat constructor; reflexivity].
  - split; [exact Ha | constructor].
  - split; [exact Ha | constructor].
Qed.

(** X9. The bitrate stays in the supported range as long as it is given
    numbers.  Starting from a bitrate from 64 to 328, no sequence of calls
    that passes no NaN to [adjustBitrate] takes it out of that range, and
    every settings object passed to [onAudioSettingsChange] carries a
    bitrate of that range: [adjustBitrate] ignores a number below 64 or
    above 328, without calling the hook.  NaN is not caught by the range
    test: [adjustBitrate] stores it and passes it to the hook. *)
Theorem bitrate_stays_supported (a : Audio.AudioProcessor) (cs : list Audio.Call) :
  supported_bitrate (Audio.bitrate (Audio.audioSettings a)) ->
  Forall numeric_call cs ->
  supported_bitrate (Audio.bitrate (Audio.audioSettings (fst (Audio.calls a cs))))
  /\ Forall (fun s => supported_bitrate (Audio.bitrate s))
            (Audio.announced (snd (Audio.calls a cs)))
  /\ (forall newBitrate b,
        PrimFloat.ltb newBitrate 64 = true \/ PrimFloat.ltb 328 newBitrate = true ->
        Audio.adjustBitrate newBitrate b = (b, []))
  /\ (forall newBitrate b,
        PrimFloat.eqb newBitrate newBitrate = false ->
        Audio.bitrate (Audio.audioSettings (fst (Audio.adjustBitrate newBitrate b)))
        = newBitrate
        /\ Audio.announced (snd (Audio.adjustBitrate newBitrate b))
           = [Audio.audioSettings (fst (Audio.adjustBitrate newBitrate b))]
        /\ ~ supported_bitrate newBitrate).
Proof.
  intros Ha Hcs.
  assert (Hkept :
    supported_bitrate (Audio.bitrate (Audio.audioSettings (fst (Audio.calls a cs))))
    /\ Forall (fun s => supported_bitrate (Audio.bitrate s))
              (Audio.announced (snd (Audio.calls a cs)))).
  { revert a Ha. induction Hcs as [|c rest Hc _ IH]; intros a Ha; cbn [Audio.calls].
    - split; [exact Ha | constructor].
    - destruct (call_bitrate a c Ha Hc) as [H1 Hh1].
      destruct (Audio.call a c) as [a1 hooks1]. cbn [fst snd] in *.
      destruct (IH a1 H1) as [H2 Hh2].
      destruct (Audio.calls a1 rest) as [a2 hooks2]. cbn [fst snd] in *.
      split; [exact H2|].
      unfold Audio.announced. rewrite flat_map_app.
      apply List.Forall_app. split; assumption. }
  split; [exact (proj1 Hkept)|]. split; [exact (proj2 Hkept)|]. split.
  - intros newBitrate b [Hlow | Hhigh]; unfold Audio.adjustBitrate.
    + now rewrite Hlow.
    + rewrite Hhigh. now rewrite orb_true_r.
  - intros newBitrate b Hnan. unfold Audio.adjustBitrate.
    destruct (num_nan_compare newBitrate 64%float Hnan) as (Hlow & _ & _ & Hle).
    destruct (num_nan_compare newBitrate 328%float Hnan) as (_ & Hhigh & _ & _).
    rewrite Hlow, Hhigh. cbn.
    split; [reflexivity|]. split; [reflexivity|].
    intros [H64 _]. congruence.
Qed.

Lemma bitrate_stays_supported_witness :
  let a := Audio.new_AudioProcessor
             {| Audio.bitrate := 192%float; Audio.enableSubtitles := true;
                Audio.enableTranslation := false;
                Audio.sourceLanguage := "en-US"; Audio.targetLanguage := "es-ES";
                Audio.enableNoiseReduction := true;
                Audio.enableEchoCancellation := true;
                Audio.enableAutoGainControl := true |} in
  let cs := [Audio.AdjustBitrate 32%float; Audio.AdjustBitrate 500%float;
             Audio.AdjustBitrate 96%float; Audio.EnableUltraLowBandwidthMode] in
  supported_bitrate (Audio.bitrate (Audio.audioSettings (fst (Audio.calls a cs))))
  /\ map Audio.bitrate (Audio.announced (snd (Audio.calls a cs))) = [96; 64]%float.
Proof.
  intros a cs.
  assert (Ha : supported_bitrate (Audio.bitrate (Audio.audioSettings a)))
    by (split; reflexivity).
  assert (Hcs : Forall numeric_call cs).
  { repeat (apply List.Forall_cons; [cbn; try reflexivity; exact I|]).
    apply List.Forall_nil. }
  split; [exact (proj1 (bitrate_stays_supported a cs Ha Hcs)) | reflexivity].
Defined.

(** ** The translation request *)

Lemma POST_cases (mock : string -> string -> string -> option Audio.Json)
    (confidence : number) (processingTime : string)
    (request : option TranslateRoute.TranslationRequest) :
  let r := TranslateRoute.POST mock confidence processingTime request in
  (TranslateRoute.status r = 500 \/ TranslateRoute.status r = 400
   \/ TranslateRoute.status r = 200)
  /\ TranslateRoute.body r !! "translation" = None.
Proof.
  unfold TranslateRoute.POST.
  destruct request as [r|]; cbv zeta.
  - destruct (_ || _); cbn [TranslateRoute.status TranslateRoute.body].
    + split; [right; left; reflexivity|].
      now rewrite lookup_singleton_ne.
    + split; [right; right; reflexivity|].
      rewrite !lookup_insert_ne by done.
      match goal with
      | |- match ?translation with _ => _ end !! _ = None => destruct translation
      end; rewrite !lookup_insert_ne by done; apply lookup_empty.
  - cbn. split; [left; reflexivity|]. now rewrite lookup_singleton_ne.
Qed.

(** X10. The translation computed by the route never reaches a subtitle.
    The handler answers 200, 400 or 500, and none of its bodies has a
    [translation] field: the translated text is sent as [translatedText].
    So [translateText], which reads [data.translation], resolves to
    [undefined] when the route answers 200, and to the original text when it
    answers 400 or 500. *)
Theorem route_translation_is_never_read
    (mock : string -> string -> string -> option Audio.Json)
    (confidence : number) (processingTime : string)
    (request : option TranslateRoute.TranslationRequest) (text : string) :
  let r := TranslateRoute.POST mock confidence processingTime request in
  In (TranslateRoute.status r) [200; 400; 500]
  /\ TranslateRoute.body r !! "translation" = None
  /\ Audio.translateText (TranslateRoute.answer mock confidence processingTime request) text
     = (if (TranslateRoute.status r =? 200)%nat then None else Some (Audio.JString text)).
Proof.
  intros r.
  destruct (POST_cases mock confidence processingTime request) as [Hstatus Hnone].
  fold r in Hstatus, Hnone.
  split; [|split; [exact Hnone|]].
  - destruct Hstatus as [-> | [-> | ->]]; cbn; tauto.
  - unfold TranslateRoute.answer, TranslateRoute.ok. fold r.
    destruct Hstatus as [-> | [-> | ->]]; cbn; [reflexivity | reflexivity | exact Hnone].
Qed.

(** ** Messages over the mesh *)

(** Two connections of the table never share an instance. *)
Lemma table_injective (s : Session) (id1 id2 : string) (c1 c2 : PeerConnection) :
  Session_inv s ->
  peers (engine s) !! id1 = Some c1 -> peers (engine s) !! id2 = Some c2 ->
  peer c1 = peer c2 -> id1 = id2.
Proof.
  intros I H1 H2 Heq.
  destruct (inv_table _ I id1 c1 H1) as (i1 & Hi1 & <-).
  destruct (inv_table _ I id2 c2 H2) as (i2 & Hi2 & <-).
  rewrite Heq in Hi1. congruence.
Qed.

Lemma broadcast_fold {Message : Type} (stringify : Message -> string)
    (message : Message) (s : Session) (table : gmap string PeerConnection) :
  Session_inv s ->
  (forall peerId c, table !! peerId = Some c -> peers (engine s) !! peerId = Some c) ->
  let sent := map_fold (fun _ connection sent =>
                          if is_connected (peer connection) s
                          then sent ++ [(peer connection, stringify message)]
                          else sent) [] table in
  NoDup (map fst sent)
  /\ (forall r text,
        In (r, text) sent <->
        text = stringify message
        /\ exists peerId c, table !! peerId = Some c /\ peer c = r
                            /\ is_connected r s = true).
Proof.
  intros I. cbv zeta.
  apply (map_fold_weak_ind
    (fun sent (table : gmap string PeerConnection) =>
       (forall peerId c, table !! peerId = Some c -> peers (engine s) !! peerId = Some c) ->
       NoDup (map fst sent)
       /\ (forall r text,
             In (r, text) sent <->
             text = stringify message
             /\ exists peerId c, table !! peerId = Some c /\ peer c = r
                                 /\ is_connected r s = true))).
  - intros _. split; [constructor|].
    intros r text. split; [intros []|].
    intros (_ & peerId & c & H & _). rewrite lookup_empty in H. discriminate.
  - intros peerId0 c0 m sent Hnew IH Hsub.
    assert (Hsub' : forall peerId c, m !! peerId = Some c ->
                      peers (engine s) !! peerId = Some c).
    { intros peerId c H. apply Hsub. rewrite lookup_insert_ne; [exact H|].
      intros <-. congruence. }
    destruct (IH Hsub') as [Hnodup Hchar].
    assert (Hgrow : forall r,
              (exists peerId c, m !! peerId = Some c /\ peer c = r
                                /\ is_connected r s = true)
              \/ (peer c0 = r /\ is_connected r s = true)
              <-> exists peerId c, <[peerId0:=c0]> m !! peerId = Some c /\ peer c = r
                                   /\ is_connected r s = true).
    { intros r. split.
      - intros [(peerId & c & H & Hr & Hc) | [Hr Hc]].
        + exists peerId, c. split; [|now split].
          rewrite lookup_insert_ne; [exact H|]. intros <-. congruence.
        + exists peerId0, c0. rewrite lookup_insert_eq. now repeat split.
      - intros (peerId & c & H & Hr & Hc).
        apply lookup_insert_Some in H as [[<- <-] | [Hne H]].
        + right. now split.
        + left. exists peerId, c. now repeat split. }
    destruct (is_connected (peer c0) s) eqn:Ec.
    + split.
      * rewrite map_app. cbn [map fst]. apply NoDup_app. split; [exact Hnodup|].
        split; [|apply NoDup_singleton].
        intros r Hin Hlast. apply list_elem_of_In in Hlast as [<-|[]].
        apply list_elem_of_In, in_map_iff in Hin as ([r' text] & Hr' & Hin).
        cbn in Hr'. subst r'.
        apply Hchar in Hin as (_ & peerId & c & H & Hr & _).
        assert (peerId = peerId0).
        { apply (table_injective s peerId peerId0 c c0 I); [now apply Hsub' | | exact Hr].
          apply Hsub. apply lookup_insert_eq. }
        subst peerId. congruence.
      * intros r text. rewrite in_app_iff, Hchar, <- (Hgrow r). cbn [In].
        split.
        -- intros [(Ht & Hin) | [[= <- <-] | []]].
           ++ split; [exact Ht | now left].
           ++ split; [reflexivity | right; now split].
        -- intros (Ht & [Hin | [<- _]]).
           ++ left. now split.
           ++ right. left. now rewrite Ht.
    + split; [exact Hnodup|].
      intros r text. rewrite Hchar, <- (Hgrow r). split.
      * intros (Ht & Hin). split; [exact Ht | now left].
      * intros (Ht & [Hin | [<- Hc]]); [now split | congruence].
Qed.

(** X11. [broadcastMessage] reaches the connected peers of the table, each
    exactly once, and nobody else; every text sent is the stringified
    message; and the instances it reaches are those [sendMessage] would
    reach, taken over all identifiers. *)
Theorem broadcast_reaches_connected_peers
    {Message : Type} (stringify : Message -> string) (message : Message)
    (cfg : WebRTCConfig) (history : list Command) (s : Session) :
  execs (new_Session cfg) history = Some s ->
  let sent := Mesh.broadcastMessage stringify message s in
  NoDup (map fst sent)
  /\ (forall r text,
        In (r, text) sent <-> text = stringify message /\ reachable_peer s r)
  /\ (forall r text,
        In (r, text) sent <->
        exists peerId, In (r, text) (Mesh.sendMessage stringify peerId message s)).
Proof.
  intros Hhistory sent.
  pose proof (execs_inv history _ _ (new_Session_inv cfg) Hhistory) as I.
  destruct (broadcast_fold stringify message s (peers (engine s)) I (fun _ _ H => H))
    as [Hnodup Hchar].
  fold (Mesh.broadcastMessage stringify message s) in Hnodup, Hchar. fold sent in Hnodup, Hchar.
  split; [exact Hnodup|]. split; [exact Hchar|].
  intros r text. rewrite Hchar. unfold Mesh.sendMessage. split.
  - intros (-> & peerId & c & H & <- & Hc). exists peerId. rewrite H, Hc. now left.
  - intros (peerId & Hin).
    destruct (peers (engine s) !! peerId) as [c|] eqn:H; [|destruct Hin].
    destruct (is_connected (peer c) s) eqn:Hc; [|destruct Hin].
    destruct Hin as [[= <- <-] | []].
    split; [reflexivity|]. exists peerId, c. now repeat split.
Qed.

Lemma broadcast_reaches_connected_peers_witness :
  let cfg := {| stunServers := []; turnServers := None; maxPeers := 50 |} in
  let history := [CreatePeer "alice" true; CreatePeer "bob" false;
                  CreatePeer "carol" false; PeerConnect 1%positive;
                  PeerConnect 3%positive; RemovePeer "carol"] in
  let s := default (new_Session cfg) (execs (new_Session cfg) history) in
  Mesh.broadcastMessage (fun m : string => m) "hi" s = [(1%positive, "hi")]
  /\ NoDup (map fst (Mesh.broadcastMessage (fun m : string => m) "hi" s)).
Proof.
  intros cfg history s.
  assert (Hhistory : execs (new_Session cfg) history = Some s) by (vm_compute; reflexivity).
  split; [vm_compute; reflexivity|].
  exact (proj1 (broadcast_reaches_connected_peers (fun m : string => m) "hi"
                  cfg history s Hhistory)).
Defined.

(** X12. A removed peer gets nothing.  After [removePeer], a message or a
    signal addressed to that identifier is dropped, and no broadcast
    reaches the instance of the removed connection. *)
Theorem removed_peer_gets_nothing
    {Message : Type} (stringify : Message -> string) (message : Message)
    (cfg : WebRTCConfig) (history : list Command) (s : Session)
    (peerId : string) (connection : PeerConnection) :
  execs (new_Session cfg) history = Some s ->
  peers (engine s) !! peerId = Some connection ->
  let closed := removePeer peerId s in
  Mesh.sendMessage stringify peerId message closed = []
  /\ Mesh.handleSignal peerId closed = None
  /\ forall text, ~ In (peer connection, text) (Mesh.broadcastMessage stringify message closed).
Proof.
  intros Hhistory Hentry closed.
  pose proof (execs_inv history _ _ (new_Session_inv cfg) Hhistory) as I.
  pose proof (removePeer_inv peerId s I) as Ic. fold closed in Ic.
  assert (Hnone : peers (engine closed) !! peerId = None).
  { subst closed. rewrite removePeer_table. apply lookup_delete_eq. }
  unfold Mesh.sendMessage, Mesh.handleSignal. rewrite Hnone.
  split; [reflexivity|]. split; [reflexivity|].
  intros text Hin.
  destruct (broadcast_fold stringify message closed (peers (engine closed)) Ic
              (fun _ _ H => H)) as [_ Hchar].
  apply Hchar in Hin as (_ & peerId' & c' & Hc' & Hsame & _).
  subst closed. rewrite removePeer_table in Hc'.
  apply lookup_delete_Some in Hc' as [Hne Hc'].
  apply Hne. exact (table_injective s peerId peerId' connection c' I Hentry Hc' (eq_sym Hsame)).
Qed.

Lemma removed_peer_gets_nothing_witness :
  let cfg := {| stunServers := []; turnServers := None; maxPeers := 50 |} in
  let history := [CreatePeer "alice" true; CreatePeer "bob" false;
                  PeerConnect 1%positive; PeerConnect 2%positive] in
  let s := default (new_Session cfg) (execs (new_Session cfg) history) in
  Mesh.sendMessage (fun m : string => m) "alice" "hi" s = [(1%positive, "hi")]
  /\ Mesh.sendMessage (fun m : string => m) "alice" "hi" (removePeer "alice" s) = []
  /\ Mesh.broadcastMessage (fun m : string => m) "hi" (removePeer "alice" s)
     = [(2%positive, "hi")].
Proof.
  intros cfg history s.
  assert (Hhistory : execs (new_Session cfg) history = Some s) by (vm_compute; reflexivity).
  assert (Hentry : peers (engine s) !! "alice"
                   = Some {| id := "alice"; peer := 1%positive; stream := None;
                             isHost := true; quality := "720p" |})
    by (vm_compute; reflexivity).
  split; [vm_compute; reflexivity|].
  split; [|vm_compute; reflexivity].
  exact (proj1 (removed_peer_gets_nothing (fun m : string => m) "hi" cfg history s
                  "alice" _ Hhistory Hentry)).
Defined.

(** ** One live connection per identifier *)

Lemma destroy_live (r : ref) (s : Session) : table_live s -> table_live (destroy r s).
Proof.
  intros L peerId c H. rewrite (proj1 (destroy_frame r s)) in H.
  destruct (L peerId c H) as (Hid & i & Hi & Hlive).
  split; [exact Hid|].
  destruct (destroy_keeps r _ s i Hi) as (i' & Hi' & [-> | (_ & ->)]).
  - now exists i.
  - eexists. split; [exact Hi' | reflexivity].
Qed.

Lemma removePeer_live (peerId : string) (s : Session) :
  table_live s -> table_live (removePeer peerId s).
Proof.
  intros L. unfold removePeer.
  destruct (peers (engine s) !! peerId) as [c|]; [|exact L].
  pose proof (destroy_live (peer c) s L) as L1.
  intros peerId' c' H. cbn [with_peers with_engine engine peers instances] in *.
  apply lookup_delete_Some in H as [_ H]. exact (L1 peerId' c' H).
Qed.

Lemma createPeer_live (peerId : string) (isInitiator : bool) (s : Session) :
  Session_inv s -> table_live s -> table_live (createPeer peerId isInitiator s).
Proof.
  intros I L. unfold createPeer.
  set (s1 := if bool_decide (is_Some (peers (engine s) !! peerId))
             then removePeer peerId s else s).
  assert (I1 : Session_inv s1).
  { subst s1. destruct (bool_decide _); [now apply removePeer_inv | exact I]. }
  assert (L1 : table_live s1).
  { subst s1. destruct (bool_decide _); [now apply removePeer_live | exact L]. }
  clearbody s1. clear I L s.
  intros peerId' c' H.
  cbn [with_peers with_engine engine peers instances] in *.
  apply lookup_insert_Some in H as [[<- <-] | [Hne H]].
  - split; [reflexivity|]. eexists. cbn [peer]. rewrite lookup_insert_eq.
    split; reflexivity.
  - destruct (L1 peerId' c' H) as (Hid & i & Hi & Hlive).
    split; [exact Hid|]. exists i. split; [|exact Hlive].
    rewrite lookup_insert_ne; [exact Hi|].
    intros Heq. rewrite <- Heq in Hi. apply (inv_fresh _ I1) in Hi. lia.
Qed.

(** The microtask of [r] takes the entry of [r] out of the table, if it is
    still there. *)
Lemma close_callback_live (s : Session) (r : ref) (rest : list ref) :
  Session_inv s -> table_live s -> microtasks s = r :: rest ->
  table_live (close_callback r (with_microtasks rest s)).
Proof.
  intros I L Hq. unfold close_callback. cbn [with_microtasks instances].
  destruct (instances s !! r) as [i|] eqn:E; [|exact L].
  intros peerId c H. cbn [emit engine instances] in *.
  rewrite removePeer_table in H. cbn [with_instances with_microtasks engine peers] in H.
  apply lookup_delete_Some in H as [Hne H].
  destruct (L peerId c H) as (Hid & i0 & Hi0 & Hlive).
  split; [exact Hid|].
  assert (Hr : r <> peer c).
  { intros ->. destruct (inv_table _ I peerId c H) as (i1 & Hi1 & Hh). congruence. }
  unfold removePeer. cbn [with_instances with_microtasks engine peers].
  destruct (peers (engine s) !! handlers_id i) as [c1|].
  - cbn [with_peers with_engine instances].
    match goal with
    | |- exists _, instances (destroy ?x ?s2) !! _ = _ /\ _ =>
        destruct (destroy_keeps x (peer c) s2 i0) as (i' & Hi' & [-> | (_ & ->)])
    end.
    + cbn [with_instances with_microtasks instances].
      rewrite lookup_insert_ne by exact Hr. exact Hi0.
    + now exists i0.
    + eexists. split; [exact Hi' | reflexivity].
  - cbn [with_instances with_microtasks instances].
    rewrite lookup_insert_ne by exact Hr. now exists i0.
Qed.

Lemma settle_live (s : Session) :
  Session_inv s -> table_live s -> table_live (settle s).
Proof.
  intros I L. unfold settle.
  apply (drain_ind (fun s' => Session_inv s' /\ table_live s')); [|now split].
  intros s0 r rest [I0 L0] Hq.
  split; [now apply close_callback_inv | now apply close_callback_live].
Qed.

Lemma exec_live (s s' : Session) (c : Command) :
  Session_inv s -> table_live s -> exec s c = Some s' -> table_live s'.
Proof.
  intros I L.
  pose proof (settle_inv s I) as Is. pose proof (settle_live s I L) as Ls.
  destruct c as [peerId isInitiator | peerId | | r | r | h | ]; cbn [exec].
  - intros [= <-]. now apply createPeer_live.
  - intros [= <-]. now apply removePeer_live.
  - intros [= <-]. intros peerId c H. unfold dispose in H.
    cbn [with_peers with_engine engine peers] in H.
    rewrite lookup_empty in H. discriminate.
  - destruct (instances (settle s) !! r) as [i|] eqn:Er; [|discriminate].
    destruct (destroyed i || destroying i || connected i); [discriminate|].
    intros [= <-].
    intros peerId c H.
    assert (Hp : peers (engine (settle s)) !! peerId = Some c).
    { revert H. unfold startConnectionMonitoring.
      cbn [emit with_instances engine peers].
      destruct (peers (engine (settle s)) !! handlers_id i); cbn [engine peers]; tauto. }
    destruct (Ls peerId c Hp) as (Hid & i0 & Hi0 & Hlive).
    split; [exact Hid|].
    assert (Hinst : forall x, instances (startConnectionMonitoring (handlers_id i)
                      (emit [onPeerConnected (handlers_id i)]
                         (with_instances x (settle s)))) = x).
    { intros x. unfold startConnectionMonitoring.
      cbn [emit with_instances engine peers].
      destruct (peers (engine (settle s)) !! handlers_id i); reflexivity. }
    rewrite Hinst.
    destruct (decide (r = peer c)) as [->|Hne].
    + rewrite lookup_insert_eq. eexists. split; reflexivity.
    + rewrite lookup_insert_ne by exact Hne. now exists i0.
  - destruct (instances (settle s) !! r) as [i|]; [|discriminate].
    destruct (destroyed i || destroying i); [discriminate|].
    intros [= <-].
    apply settle_live; [now apply destroy_inv | now apply destroy_live].
  - destruct (intervals (settle s) !! h) as [m|]; [|discriminate].
    intros [= <-]. unfold sampler_callback.
    destruct (negb (is_connected (sampler_peer m) (settle s))); exact Ls.
  - intros [= <-]. exact Ls.
Qed.

Lemma execs_live (cs : list Command) (s s' : Session) :
  Session_inv s -> table_live s -> execs s cs = Some s' -> table_live s'.
Proof.
  revert s. induction cs as [|c rest IH]; intros s I L; cbn.
  - now intros [= <-].
  - destruct (exec s c) as [s1|] eqn:E; [|discriminate].
    apply IH; [exact (exec_inv s s1 c I E) | exact (exec_live s s1 c I L E)].
Qed.

(** X13. One live connection per identifier, between tasks.  In every
    session the manager reaches, each entry of the table is filed under its
    own identifier and its instance is not destroyed, and each instance on
    which [destroy()] was never called is the one the table holds for the
    identifier of its handlers.  Once the running task has ended, so that
    the queued [destroy()] callbacks have run, the connections of the table
    are exactly the instances that are not destroyed, and two instances
    created for the same identifier are never both alive. *)
Theorem one_live_connection_per_identifier
    (cfg : WebRTCConfig) (history : list Command) (s : Session) :
  execs (new_Session cfg) history = Some s ->
  table_live s
  /\ (forall r i, instances s !! r = Some i ->
        destroyed i = false -> destroying i = false ->
        exists c, peers (engine s) !! handlers_id i = Some c /\ peer c = r)
  /\ table_live (settle s)
  /\ (forall r i, instances (settle s) !! r = Some i -> destroyed i = false ->
        exists c, peers (engine (settle s)) !! handlers_id i = Some c /\ peer c = r)
  /\ (forall r1 r2 i1 i2,
        instances (settle s) !! r1 = Some i1 -> instances (settle s) !! r2 = Some i2 ->
        destroyed i1 = false -> destroyed i2 = false ->
        handlers_id i1 = handlers_id i2 -> r1 = r2).
Proof.
  intros Hhistory.
  pose proof (execs_inv history _ _ (new_Session_inv cfg) Hhistory) as I.
  assert (L0 : table_live (new_Session cfg)).
  { intros peerId c H. cbn in H. rewrite lookup_empty in H. discriminate. }
  pose proof (execs_live history _ _ (new_Session_inv cfg) L0 Hhistory) as L.
  pose proof (settle_inv s I) as Is.
  assert (Hlive : forall r i, instances (settle s) !! r = Some i -> destroyed i = false ->
            exists c, peers (engine (settle s)) !! handlers_id i = Some c /\ peer c = r).
  { intros r i Hi Hd. apply (inv_live _ Is r i Hi Hd).
    destruct (destroying i) eqn:Eg; [|reflexivity].
    pose proof (inv_queue _ Is r i Hi Eg) as Hin.
    rewrite settle_quiet in Hin. destruct Hin. }
  split; [exact L|]. split; [exact (inv_live _ I)|].
  split; [now apply settle_live|]. split; [exact Hlive|].
  intros r1 r2 i1 i2 H1 H2 Hl1 Hl2 Hsame.
  destruct (Hlive r1 i1 H1 Hl1) as (c1 & Hc1 & <-).
  destruct (Hlive r2 i2 H2 Hl2) as (c2 & Hc2 & <-).
  rewrite Hsame in Hc1. congruence.
Qed.

Lemma one_live_connection_per_identifier_witness :
  let cfg := {| stunServers := []; turnServers := None; maxPeers := 50 |} in
  let history := [CreatePeer "alice" true; PeerConnect 1%positive;
                  CreatePeer "bob" false; PeerClose 1%positive;
                  CreatePeer "alice" true; RemovePeer "bob"] in
  let s := default (new_Session cfg) (execs (new_Session cfg) history) in
  size (instances s) = 3 /\ size (peers (engine (settle s))) = 1
  /\ table_live s /\ table_live (settle s).
Proof.
  intros cfg history s.
  assert (Hhistory : execs (new_Session cfg) history = Some s) by (vm_compute; reflexivity).
  split; [vm_compute; reflexivity|]. split; [vm_compute; reflexivity|].
  destruct (one_live_connection_per_identifier cfg history s Hhistory)
    as (Hnow & _ & Hthen & _).
  split; [exact Hnow | exact Hthen].
Defined.

(** ** Tearing down and replacing connections *)

Lemma dispose_effect (s : Session) :
  Session_inv s ->
  peers (engine (dispose s)) = ∅
  /\ intervals (dispose s) = intervals s
  /\ emitted (dispose s) = emitted s.
Proof.
  intros I. unfold dispose.
  pose proof (dispose_destroys s (peers (engine s)) I) as H. cbv zeta in H.
  destruct H as (_ & _ & Hi & Hm & _).
  cbn [with_peers with_engine engine peers intervals emitted].
  split; [reflexivity|]. split; assumption.
Qed.

(** X14. After [dispose] the session is silent.  The table is empty and the
    samplers are still pending, but as long as no connection is created, no
    [onConnectionStatsUpdate] is called for any identifier, and a broadcast
    reaches nobody. *)
Theorem session_is_silent_after_dispose
    {Message : Type} (stringify : Message -> string) (message : Message)
    (cfg : WebRTCConfig) (history later : list Command) (s s' : Session) :
  execs (new_Session cfg) history = Some s ->
  execs (dispose s) later = Some s' ->
  (forall peerId isInitiator, ~ In (CreatePeer peerId isInitiator) later) ->
  peers (engine (dispose s)) = ∅
  /\ intervals (dispose s) = intervals s
  /\ Mesh.broadcastMessage stringify message (dispose s) = []
  /\ exists calls,
       emitted s' = emitted (dispose s) ++ calls
       /\ forall peerId, silent_for peerId calls.
Proof.
  intros Hhistory Hlater Hother.
  pose proof (execs_inv history _ _ (new_Session_inv cfg) Hhistory) as I.
  pose proof (dispose_inv s I) as Id.
  destruct (dispose_effect s I) as (Hempty & Hkept & _).
  split; [exact Hempty|]. split; [exact Hkept|]. split.
  - unfold Mesh.broadcastMessage. rewrite Hempty. apply map_fold_empty.
  - exists (drop (length (emitted (dispose s))) (emitted s')).
    assert (Hfor : forall peerId, exists calls,
              emitted s' = emitted (dispose s) ++ calls /\ silent_for peerId calls).
    { intros peerId.
      apply (execs_silent peerId later (dispose s) s' Id); [|apply Hother|exact Hlater].
      rewrite Hempty. apply lookup_empty. }
    split.
    + destruct (Hfor ""%string) as (calls & -> & _). now rewrite drop_app_length.
    + intros peerId. destruct (Hfor peerId) as (calls & -> & Hsilent).
      now rewrite drop_app_length.
Qed.

Lemma session_is_silent_after_dispose_witness :
  let cfg := {| stunServers := []; turnServers := None; maxPeers := 50 |} in
  let history := [CreatePeer "alice" true; CreatePeer "bob" false;
                  PeerConnect 1%positive; PeerConnect 2%positive; Tick 1%positive] in
  let later := [Tick 1%positive; Tick 2%positive; Idle] in
  let s := default (new_Session cfg) (execs (new_Session cfg) history) in
  let s' := default s (execs (dispose s) later) in
  size (intervals (dispose s)) = 2
  /\ intervals s' = ∅
  /\ exists calls, emitted s' = emitted (dispose s) ++ calls
                   /\ silent_for "alice" calls /\ silent_for "bob" calls.
Proof.
  intros cfg history later s s'.
  assert (Hhistory : execs (new_Session cfg) history = Some s) by (vm_compute; reflexivity).
  assert (Hlater : execs (dispose s) later = Some s') by (vm_compute; reflexivity).
  assert (Hother : forall peerId isInitiator, ~ In (CreatePeer peerId isInitiator) later).
  { intros peerId b [H|[H|[H|[]]]]; discriminate H. }
  destruct (session_is_silent_after_dispose (fun m : string => m) "hi" cfg history later
              s s' Hhistory Hlater Hother) as (_ & Hkept & _ & calls & Hcalls & Hsilent).
  split; [rewrite Hkept; vm_compute; reflexivity|].
  split; [vm_compute; reflexivity|].
  exists calls. split; [exact Hcalls|]. split; apply Hsilent.
Defined.

Lemma close_callback_known (r : ref) (s : Session) (i : Instance) :
  instances s !! r = Some i ->
  close_callback r s
  = emit [onPeerDisconnected (handlers_id i)]
      (removePeer (handlers_id i)
         (with_instances (<[ r := finish_destroy i ]> (instances s)) s)).
Proof. intros H. unfold close_callback. now rewrite H. Qed.

Lemma destroy_known (r : ref) (s : Session) (i : Instance) :
  instances s !! r = Some i -> destroyed i = false -> destroying i = false ->
  destroy r s
  = with_microtasks (microtasks s ++ [r])
      (with_instances (<[ r := begin_destroy i ]> (instances s)) s).
Proof. intros H Hd Hg. unfold destroy. now rewrite H, Hd, Hg. Qed.

Lemma drain_step (fuel : nat) (s : Session) (r : ref) (rest : list ref) :
  microtasks s = r :: rest ->
  drain (S fuel) s = drain fuel (close_callback r (with_microtasks rest s)).
Proof. intros H. cbn [drain]. now rewrite H. Qed.

Lemma drain_done (fuel : nat) (s : Session) : microtasks s = [] -> drain fuel s = s.
Proof. intros H. destruct fuel; cbn [drain]; [reflexivity | now rewrite H]. Qed.

(** The microtask of [r] when the table holds a connection under the
    identifier of [r]: [destroy()] is called on the instance of that
    connection, and the entry is dropped. *)
Lemma close_callback_takes (x : Session) (r : ref) (i ic : Instance) (c : PeerConnection) :
  instances x !! r = Some i ->
  peers (engine x) !! handlers_id i = Some c ->
  peer c <> r -> instances x !! peer c = Some ic ->
  destroyed ic = false -> destroying ic = false ->
  let y := close_callback r (with_microtasks [] x) in
  microtasks y = [peer c]
  /\ peers (engine y) = delete (handlers_id i) (peers (engine x))
  /\ instances y = <[ peer c := begin_destroy ic ]> (<[ r := finish_destroy i ]> (instances x))
  /\ emitted y = emitted x ++ [onPeerDisconnected (handlers_id i)].
Proof.
  intros Hi Hc Hne Hic Hd Hg y. subst y.
  rewrite (close_callback_known r _ i) by exact Hi.
  unfold removePeer. cbn [with_instances with_microtasks engine peers]. rewrite Hc.
  rewrite (destroy_known (peer c) _ ic);
    [|cbn [with_instances with_microtasks instances];
      rewrite lookup_insert_ne by (intros Heq; now apply Hne) |..]; try assumption.
  repeat split.
Qed.

(** The microtask of [r] when the table holds nothing under the identifier
    of [r]. *)
Lemma close_callback_last (x : Session) (r : ref) (i : Instance) :
  instances x !! r = Some i ->
  peers (engine x) !! handlers_id i = None ->
  let y := close_callback r (with_microtasks [] x) in
  microtasks y = []
  /\ peers (engine y) = peers (engine x)
  /\ instances y = <[ r := finish_destroy i ]> (instances x)
  /\ emitted y = emitted x ++ [onPeerDisconnected (handlers_id i)].
Proof.
  intros Hi Hc y. subst y.
  rewrite (close_callback_known r _ i) by exact Hi.
  unfold removePeer. cbn [with_instances with_microtasks engine peers]. rewrite Hc.
  repeat split.
Qed.

(** X15. [createPeer] for an identifier the table already holds ends with
    no connection for it.  When [createPeer] returns, the table holds a new
    connection, with a new instance, in place of the old one: it has the
    same size and its other entries are untouched, while the old instance
    is being destroyed and not yet destroyed.  When the task has ended, the
    ['close'] handler of the old instance has called [removePeer] for the
    identifier, which took the new connection: the table has lost the
    identifier, both instances are destroyed and not connected, and
    [onPeerDisconnected] was called twice for the identifier. *)
Theorem createPeer_replaces
    (cfg : WebRTCConfig) (history : list Command) (s : Session)
    (peerId : string) (isInitiator : bool) (old : PeerConnection) :
  execs (new_Session cfg) history = Some s ->
  microtasks s = [] ->
  peers (engine s) !! peerId = Some old ->
  let s' := createPeer peerId isInitiator s in
  let rested := settle s' in
  size (peers (engine s')) = size (peers (engine s))
  /\ (exists connection,
        peers (engine s') !! peerId = Some connection
        /\ id connection = peerId
        /\ peer connection = next_instance s
        /\ peer connection <> peer old)
  /\ (forall other, other <> peerId ->
        peers (engine s') !! other = peers (engine s) !! other)
  /\ (exists i, instances s' !! peer old = Some i
                /\ destroying i = true /\ destroyed i = false)
  /\ peers (engine rested) = delete peerId (peers (engine s))
  /\ (exists i, instances rested !! peer old = Some i
                /\ destroyed i = true /\ connected i = false)
  /\ (exists i, instances rested !! next_instance s = Some i
                /\ destroyed i = true /\ connected i = false)
  /\ emitted rested = emitted s ++ [onPeerDisconnected peerId; onPeerDisconnected peerId].
Proof.
  intros Hhistory Hq Hold s' rested.
  pose proof (execs_inv history _ _ (new_Session_inv cfg) Hhistory) as I.
  assert (L0 : table_live (new_Session cfg)).
  { intros p c H. cbn in H. rewrite lookup_empty in H. discriminate. }
  pose proof (execs_live history _ _ (new_Session_inv cfg) L0 Hhistory) as L.
  destruct (L peerId old Hold) as (_ & i0 & Hi0 & Hd0).
  destruct (inv_table _ I peerId old Hold) as (i0' & Hi0' & Hid0).
  rewrite Hi0 in Hi0'. injection Hi0' as <-.
  assert (Hg0 : destroying i0 = false).
  { destruct (destroying i0) eqn:Eg; [|reflexivity].
    pose proof (inv_queue _ I _ i0 Hi0 Eg) as Hin. rewrite Hq in Hin. destruct Hin. }
  pose proof (inv_fresh _ I _ _ Hi0) as Hfresh.
  assert (Hne : next_instance s <> peer old) by lia.
  set (rn := next_instance s) in *.
  set (cnew := {| id := peerId; peer := rn; stream := None; isHost := isInitiator;
                  quality := name (getCurrentTier (qualityManager (engine s))) |}).
  set (inew := {| initiator := isInitiator; outgoing := localStream (engine s);
                  connected := false; destroying := false; destroyed := false;
                  handlers_id := peerId |}).
  assert (Hs' : microtasks s' = [peer old]
                /\ peers (engine s') = <[ peerId := cnew ]> (peers (engine s))
                /\ instances s' = <[ rn := inew ]> (<[ peer old := begin_destroy i0 ]> (instances s))
                /\ emitted s' = emitted s).
  { subst s'. unfold createPeer.
    rewrite bool_decide_eq_true_2 by (rewrite Hold; eexists; reflexivity).
    unfold removePeer. rewrite Hold.
    rewrite (destroy_known _ _ _ Hi0 Hd0 Hg0), Hq.
    cbn [with_peers with_engine with_microtasks with_instances engine peers instances
         next_instance intervals next_interval acquisitions emitted microtasks
         localStream qualityManager config isInitialized app].
    rewrite insert_delete_eq. repeat split. }
  destruct Hs' as (Q' & P' & N' & M').
  (* the microtask of the old instance *)
  set (s1 := close_callback (peer old) (with_microtasks [] s')).
  destruct (close_callback_takes s' (peer old) (begin_destroy i0) inew cnew) as (Q1 & P1 & N1 & M1).
  { rewrite N'. rewrite lookup_insert_ne by exact Hne. apply lookup_insert_eq. }
  { cbn [begin_destroy handlers_id]. rewrite Hid0, P'. apply lookup_insert_eq. }
  { exact Hne. }
  { rewrite N'. apply lookup_insert_eq. }
  { reflexivity. }
  { reflexivity. }
  fold s1 in Q1, P1, N1, M1. cbn [begin_destroy handlers_id peer cnew] in Q1, P1, N1, M1.
  rewrite Hid0 in P1, M1.
  (* the microtask of the new instance *)
  set (s2 := close_callback rn (with_microtasks [] s1)).
  destruct (close_callback_last s1 rn (begin_destroy inew)) as (Q2 & P2 & N2 & M2).
  { rewrite N1. apply lookup_insert_eq. }
  { cbn [begin_destroy handlers_id inew]. rewrite P1. apply lookup_delete_eq. }
  fold s2 in Q2, P2, N2, M2. cbn [begin_destroy handlers_id inew] in M2.
  assert (Hrested : rested = s2).
  { subst rested. unfold settle. rewrite Q', P'.
    rewrite map_size_insert_Some by (rewrite Hold; eexists; reflexivity).
    destruct (size (peers (engine s))) as [|n] eqn:En.
    - exfalso. apply (map_size_ne_0_lookup_2 (peers (engine s)) peerId); [|exact En].
      rewrite Hold. eexists; reflexivity.
    - cbn [length Nat.add].
      rewrite (drain_step _ s' (peer old) []) by exact Q'. fold s1.
      rewrite (drain_step _ s1 rn []) by exact Q1. fold s2.
      now apply drain_done. }
  assert (Htable : peers (engine s2) = delete peerId (peers (engine s))).
  { rewrite P2, P1, P'. apply delete_insert_eq. }
  split; [|split; [|split; [|split; [|split; [|split; [|split]]]]]].
  - rewrite P'. apply map_size_insert_Some. rewrite Hold. eexists; reflexivity.
  - exists cnew. rewrite P', lookup_insert_eq. repeat split. exact Hne.
  - intros other Hother. rewrite P'. now apply lookup_insert_ne.
  - exists (begin_destroy i0). rewrite N'.
    rewrite lookup_insert_ne by exact Hne. rewrite lookup_insert_eq. repeat split.
  - rewrite Hrested. exact Htable.
  - exists (finish_destroy (begin_destroy i0)). rewrite Hrested, N2, N1.
    rewrite !lookup_insert_ne by exact Hne. rewrite lookup_insert_eq. repeat split.
  - exists (finish_destroy (begin_destroy inew)). rewrite Hrested, N2.
    rewrite lookup_insert_eq. repeat split.
  - rewrite Hrested, M2, M1, M'. now rewrite <- app_assoc.
Qed.

Lemma createPeer_replaces_witness :
  let cfg := {| stunServers := []; turnServers := None; maxPeers := 50 |} in
  let history := [CreatePeer "alice" true; CreatePeer "bob" false;
                  PeerConnect 1%positive] in
  let s := default (new_Session cfg) (execs (new_Session cfg) history) in
  is_connected 1%positive s = true
  /\ size (peers (engine (createPeer "alice" false s))) = 2
  /\ is_connected 1%positive (createPeer "alice" false s) = true
  /\ peers (engine (settle (createPeer "alice" false s))) !! "alice" = None
  /\ size (peers (engine (settle (createPeer "alice" false s)))) = 1.
Proof.
  intros cfg history s.
  assert (Hhistory : execs (new_Session cfg) history = Some s) by (vm_compute; reflexivity).
  assert (Hq : microtasks s = []) by (vm_compute; reflexivity).
  assert (Hold : peers (engine s) !! "alice"
                 = Some {| id := "alice"; peer := 1%positive; stream := None;
                           isHost := true; quality := "720p" |})
    by (vm_compute; reflexivity).
  destruct (createPeer_replaces cfg history s "alice" false _ Hhistory Hq Hold)
    as (Hsize & _ & _ & _ & Htable & _).
  split; [vm_compute; reflexivity|]. split; [rewrite Hsize; vm_compute; reflexivity|].
  split; [vm_compute; reflexivity|].
  rewrite Htable. split; [apply lookup_delete_eq | vm_compute; reflexivity].
Defined.

(** X16. Removing what was created.  [removePeer] after [createPeer] for
    the same identifier leaves the table as it was without that
    identifier; [removePeer] for an identifier the table does not hold
    changes nothing at all; and removing twice is removing once. *)
Theorem removePeer_round_trip (s : Session) (peerId : string) (isInitiator : bool) :
  peers (engine (removePeer peerId (createPeer peerId isInitiator s)))
  = delete peerId (peers (engine s))
  /\ removePeer peerId (removePeer peerId s) = removePeer peerId s
  /\ (if decide (peers (engine s) !! peerId = None)
      then removePeer peerId s = s
      else peers (engine (removePeer peerId s)) !! peerId = None).
Proof.
  split; [|split].
  - rewrite removePeer_table.
    destruct (createPeer_table peerId isInitiator s) as (_ & c & -> & _).
    apply delete_insert_eq.
  - unfold removePeer at 1. rewrite removePeer_table, lookup_delete_eq. reflexivity.
  - destruct (decide (peers (engine s) !! peerId = None)) as [Hnone|Hsome].
    + unfold removePeer. now rewrite Hnone.
    + rewrite removePeer_table. apply lookup_delete_eq.
Qed.

(** ** The ultra-low bandwidth mode *)

Lemma update_peers_effect (newStream : MediaStream) (s : Session)
    (table : gmap string PeerConnection) :
  let s' := map_fold (fun _ connection s' =>
                        if is_connected (peer connection) s'
                        then with_instances
                               (alter (Mesh.set_streams newStream) (peer connection)
                                      (instances s')) s'
                        else s') s table in
  engine s' = engine s /\ emitted s' = emitted s /\ intervals s' = intervals s
  /\ acquisitions s' = acquisitions s
  /\ (forall r, is_connected r s' = is_connected r s)
  /\ (forall peerId c,
        table !! peerId = Some c -> is_connected (peer c) s = true ->
        exists i, instances s' !! peer c = Some i /\ outgoing i = Some newStream).
Proof.
  cbv zeta.
  apply (map_fold_weak_ind
    (fun s' (table : gmap string PeerConnection) =>
       engine s' = engine s /\ emitted s' = emitted s /\ intervals s' = intervals s
       /\ acquisitions s' = acquisitions s
       /\ (forall r, is_connected r s' = is_connected r s)
       /\ (forall peerId c,
             table !! peerId = Some c -> is_connected (peer c) s = true ->
             exists i, instances s' !! peer c = Some i /\ outgoing i = Some newStream))).
  - repeat split. intros peerId c H. rewrite lookup_empty in H. discriminate.
  - intros peerId0 c0 m s0 Hnew (He & Hm & Hi & Ha & Hc & Hout).
    destruct (is_connected (peer c0) s0) eqn:E0.
    + assert (Hflag : forall r,
                is_connected r (with_instances
                  (alter (Mesh.set_streams newStream) (peer c0) (instances s0)) s0)
                = is_connected r s0).
      { intros r. unfold is_connected. cbn [with_instances instances].
        rewrite lookup_alter. destruct (decide (peer c0 = r)) as [<-|]; [|reflexivity].
        destruct (instances s0 !! peer c0); reflexivity. }
      do 4 (split; [assumption|]). split.
      * intros r. rewrite Hflag. apply Hc.
      * intros peerId c H Hconn. cbn [with_instances instances].
        apply lookup_insert_Some in H as [[<- <-] | [Hne H]].
        -- rewrite lookup_alter_eq. unfold is_connected in E0.
           destruct (instances s0 !! peer c0) as [i|]; [|discriminate].
           eexists. split; reflexivity.
        -- destruct (Hout peerId c H Hconn) as (i & Hi0 & Ho).
           rewrite lookup_alter. destruct (decide (peer c0 = peer c)) as [Heq|].
           ++ rewrite Heq, Hi0. eexists. split; reflexivity.
           ++ now exists i.
    + do 5 (split; [assumption|]).
      intros peerId c H Hconn.
      apply lookup_insert_Some in H as [[<- <-] | [Hne H]].
      * rewrite Hc in E0. congruence.
      * exact (Hout peerId c H Hconn).
Qed.

(** X17. Entering the ultra-low bandwidth mode.  When the acquisition is
    refused, [enableUltraLowBandwidthMode] changes nothing and raises
    nothing.  When it yields a stream, that stream becomes the local
    stream; the tier becomes the 144p tier; the table is kept and every
    connected peer of the table is given the new stream; the audio
    processor is set to 64 kbps, so that it asks for 16 kHz mono audio, as
    the ultra-low constraints do; the previous stream, if any, is stopped;
    and the hooks run in this order: [onQualityChange], then
    [onLocalStreamReady]. *)
Theorem ultra_low_mode_switch (acquired : MediaStream + string) (st : Mesh.Studio) :
  match acquired with
  | inr _ => Mesh.enableUltraLowBandwidthMode acquired st = st
  | inl newStream =>
      let st' := Mesh.enableUltraLowBandwidthMode acquired st in
      localStream (engine (Mesh.session st')) = Some newStream
      /\ getCurrentTier (qualityManager (engine (Mesh.session st'))) = tier_144p
      /\ isUltraLowBandwidthMode (qualityManager (engine (Mesh.session st'))) = true
      /\ peers (engine (Mesh.session st')) = peers (engine (Mesh.session st))
      /\ emitted (Mesh.session st')
         = emitted (Mesh.session st)
           ++ [onQualityChange tier_144p; onLocalStreamReady newStream]
      /\ Audio.bitrate (Audio.audioSettings (Mesh.audioProcessor st')) = 64%float
      /\ Audio.getAudioConstraints (Mesh.audioProcessor st')
         = {| Audio.sampleRate := Mesh.audio_sampleRate Mesh.getUltraLowBandwidthConstraints;
              Audio.channelCount :=
                Mesh.audio_channelCount Mesh.getUltraLowBandwidthConstraints;
              Audio.echoCancellation := true;
              Audio.noiseSuppression := true;
              Audio.autoGainControl := true |}
      /\ Mesh.stopped st'
         = Mesh.stopped st ++ match localStream (engine (Mesh.session st)) with
                              | Some m => [m]
                              | None => []
                              end
      /\ (forall r, is_connected r (Mesh.session st') = is_connected r (Mesh.session st))
      /\ Forall (fun pc =>
                   is_connected (peer (snd pc)) (Mesh.session st) = false
                   \/ exists i, instances (Mesh.session st') !! peer (snd pc) = Some i
                                /\ outgoing i = Some newStream)
                (map_to_list (peers (engine (Mesh.session st))))
  end.
Proof.
  destruct acquired as [newStream | error]; [|reflexivity].
  cbv zeta. unfold Mesh.enableUltraLowBandwidthMode.
  set (s1 := engine_setQuality "144p" (with_localStream newStream (Mesh.session st))).
  assert (Hs1 : engine s1
                = {| peers := peers (engine (Mesh.session st));
                     localStream := Some newStream;
                     qualityManager :=
                       {| currentTier := tier_144p;
                          bandwidthHistory :=
                            bandwidthHistory (qualityManager (engine (Mesh.session st)));
                          stabilizationTimer :=
                            stabilizationTimer (qualityManager (engine (Mesh.session st))) |};
                     config := config (engine (Mesh.session st));
                     isInitialized := isInitialized (engine (Mesh.session st)) |}
                /\ emitted s1 = emitted (Mesh.session st) ++ [onQualityChange tier_144p]
                /\ (forall r, is_connected r s1 = is_connected r (Mesh.session st)))
    by (repeat split).
  destruct Hs1 as (He1 & Hm1 & Hc1).
  pose proof (update_peers_effect newStream s1 (peers (engine s1))) as H. cbv zeta in H.
  fold (Mesh.update_peers newStream s1) in H.
  destruct H as (He & Hm & _ & _ & Hc & Hout).
  cbn [Audio.enableUltraLowBandwidthMode Mesh.session Mesh.audioProcessor Mesh.stopped
       emit engine emitted].
  rewrite He, He1, Hm, Hm1. cbn [localStream qualityManager peers getCurrentTier currentTier].
  split; [reflexivity|]. split; [reflexivity|]. split; [reflexivity|].
  split; [reflexivity|]. split; [now rewrite <- app_assoc|].
  split; [reflexivity|]. split; [reflexivity|]. split; [reflexivity|].
  split.
  - intros r. unfold is_connected at 1. cbn [emit instances].
    fold (is_connected r (Mesh.update_peers newStream s1)). now rewrite Hc, Hc1.
  - apply List.Forall_forall. intros [peerId c] Hin. cbn [snd].
    apply list_elem_of_In, elem_of_map_to_list in Hin.
    destruct (is_connected (peer c) (Mesh.session st)) eqn:Ec; [right | now left].
    apply (Hout peerId c).
    + rewrite He1. exact Hin.
    + now rewrite Hc1.
Qed.

(** ** The controls of the room page *)

(** X18. The quality selector acts on the page's own QualityManager.  For
    any choice other than 144p, and for 144p when the acquisition is
    refused, [handleQualityChange] leaves the WebRTCManager untouched: the
    page shows the chosen quality while the tier of the session stays what
    it was. *)
Theorem manual_choice_stays_in_the_page
    (acquired : MediaStream + string) (quality : VideoQuality) (p : Controls.Page) :
  quality <> "144p" \/ (exists error, acquired = inr error) ->
  let p' := Controls.handleQualityChange acquired quality p in
  Controls.webrtcManager p' = Controls.webrtcManager p
  /\ Mesh.getCurrentQuality (Mesh.session (Controls.webrtcManager p'))
     = Mesh.getCurrentQuality (Mesh.session (Controls.webrtcManager p))
  /\ Controls.currentQuality p' = quality
  /\ Controls.qualityManager p' = fst (setQuality quality (Controls.qualityManager p)).
Proof.
  intros Hcase p'.
  assert (Hsame : Controls.webrtcManager p' = Controls.webrtcManager p).
  { subst p'. unfold Controls.handleQualityChange. cbn [Controls.webrtcManager].
    destruct Hcase as [Hne | [error ->]].
    - destruct (String.eqb_spec quality "144p"); [contradiction | reflexivity].
    - destruct (String.eqb quality "144p"); reflexivity. }
  split; [exact Hsame|]. rewrite Hsame. repeat split.
Qed.

Lemma manual_choice_stays_in_the_page_witness :
  let settings := {| Audio.bitrate := 192%float; Audio.enableSubtitles := true;
                     Audio.enableTranslation := false;
                     Audio.sourceLanguage := "en-US"; Audio.targetLanguage := "es-ES";
                     Audio.enableNoiseReduction := true;
                     Audio.enableEchoCancellation := true;
                     Audio.enableAutoGainControl := true |} in
  let p' := Controls.handleQualityChange (inl 9%positive) "1080p"
              (Controls.mounted settings) in
  Controls.currentQuality p' = "1080p"
  /\ getCurrentTier (Controls.qualityManager p') = tier_1080p
  /\ Mesh.getCurrentQuality (Mesh.session (Controls.webrtcManager p')) = "720p".
Proof.
  intros settings p'.
  assert (Hcase : "1080p" <> "144p" \/ (exists error, @inl MediaStream string 9%positive = inr error))
    by (left; discriminate).
  destruct (manual_choice_stays_in_the_page (inl 9%positive) "1080p"
              (Controls.mounted settings) Hcase) as (_ & Hsession & Hshown & Hown).
  fold p' in Hsession, Hshown, Hown.
  split; [exact Hshown|]. split; [rewrite Hown; reflexivity|].
  rewrite Hsession. reflexivity.
Defined.

Lemma subtitles_after_slice (new : list Audio.Subtitle) (l prev : list Audio.Subtitle) :
  prev = slice_last 10 l ->
  fold_left (fun l subtitle => Controls.onSubtitleUpdate subtitle l) new prev
  = slice_last 10 (l ++ new).
Proof.
  revert l prev. induction new as [|x rest IH]; intros l prev Hprev; cbn [fold_left].
  - now rewrite app_nil_r.
  - rewrite (IH (l ++ [x])); [now rewrite <- app_assoc|].
    unfold Controls.onSubtitleUpdate. rewrite Hprev.
    rewrite slice_last_twice by lia. now rewrite slice_last_snoc.
Qed.

(** X19. The page shows the latest subtitles.  Fed with the hook calls of
    the processor, the page's list is the last ten subtitles reported, in
    order, and the overlay shows the last three of them.  As long as the
    store of the processor was not cleared, the page's list is also the
    last ten entries of [getSubtitles]. *)
Theorem page_shows_latest_subtitles (a : Audio.AudioProcessor) (cs : list Audio.Call) :
  Audio.subtitles a = [] ->
  Forall (fun c => c <> Audio.ClearSubtitles) cs ->
  let hooks := snd (Audio.calls a cs) in
  let shown := Controls.subtitles_after hooks [] in
  shown = slice_last 10 (Audio.reported hooks)
  /\ shown = slice_last 10 (Audio.getSubtitles (fst (Audio.calls a cs)))
  /\ Controls.overlay shown = slice_last 3 (Audio.reported hooks).
Proof.
  intros Hempty Hcs hooks shown.
  assert (Hshown : shown = slice_last 10 (Audio.reported hooks)).
  { subst shown. unfold Controls.subtitles_after.
    exact (subtitles_after_slice (Audio.reported hooks) [] [] eq_refl). }
  split; [exact Hshown|]. split.
  - unfold Audio.getSubtitles. rewrite (calls_store cs a [] Hcs Hempty). cbn [app].
    fold hooks. rewrite slice_last_twice by lia. exact Hshown.
  - unfold Controls.overlay. rewrite Hshown. apply slice_last_twice. lia.
Qed.

Lemma page_shows_latest_subtitles_witness :
  let settings := {| Audio.bitrate := 192%float; Audio.enableSubtitles := true;
                     Audio.enableTranslation := false;
                     Audio.sourceLanguage := "en-US"; Audio.targetLanguage := "es-ES";
                     Audio.enableNoiseReduction := true;
                     Audio.enableEchoCancellation := true;
                     Audio.enableAutoGainControl := true |} in
  let heard k := Audio.ProcessTranscript
                   {| Audio.now_id := Z.of_nat k; Audio.now_start := Z.of_nat k;
                      Audio.now_end := Z.of_nat k; Audio.heard := "hello";
                      Audio.heard_confidence := 0.9%float;
                      Audio.fetched := Audio.NetworkError |} in
  let cs := map heard (seq 0 12) in
  let hooks := snd (Audio.calls (Audio.new_AudioProcessor settings) cs) in
  map Audio.startTime (Controls.overlay (Controls.subtitles_after hooks []))
  = [9; 10; 11]%Z.
Proof.
  intros settings heard cs hooks.
  assert (Hcs : Forall (fun c => c <> Audio.ClearSubtitles) cs).
  { apply List.Forall_forall. intros c Hin. apply in_map_iff in Hin as (k & <- & _).
    discriminate. }
  destruct (page_shows_latest_subtitles (Audio.new_AudioProcessor settings) cs
              eq_refl Hcs) as (_ & _ & Hoverlay).
  fold hooks in Hoverlay. rewrite Hoverlay. vm_compute. reflexivity.
Defined.

Lemma broadcast_targets {Message Message' : Type}
    (stringify : Message -> string) (stringify' : Message' -> string)
    (message : Message) (message' : Message') (s : Session) :
  map fst (Mesh.broadcastMessage stringify message s)
  = map fst (Mesh.broadcastMessage stringify' message' s).
Proof.
  unfold Mesh.broadcastMessage. rewrite !map_fold_foldr.
  induction (map_to_list (peers (engine s))) as [|[peerId c] rest IH]; [reflexivity|].
  cbn [foldr uncurry]. destruct (is_connected (peer c) s); [|exact IH].
  rewrite !map_app, IH. reflexivity.
Qed.

(** X20. An admin message goes to everyone.  [sendAdminMessage] does
    nothing for a user who is not an admin or for a blank input.  Otherwise
    it appends one message of type admin to the admin messages, empties the
    input, and broadcasts it: the message is sent exactly to the connected
    peers of the table, once each, admins or not, which are the peers a
    chat message is sent to. *)
Theorem admin_message_goes_to_everyone
    (trim : string -> string) (stringify : Controls.ChatMessage -> string)
    (userName : string) (now today : Z)
    (cfg : WebRTCConfig) (history : list Command) (s : Session) (c : Controls.Chat) :
  execs (new_Session cfg) history = Some s ->
  let message := {| Controls.message_id := now; Controls.sender := userName;
                    Controls.message_text := Controls.newAdminMessage c;
                    Controls.timestamp := today; Controls.type := "admin" |} in
  let admin := Controls.sendAdminMessage trim stringify userName true now today s c in
  let chat := Controls.sendChatMessage trim stringify userName now today s c in
  (forall isAdmin,
     isAdmin = false \/ trim (Controls.newAdminMessage c) = "" ->
     Controls.sendAdminMessage trim stringify userName isAdmin now today s c = (c, []))
  /\ (trim (Controls.newAdminMessage c) <> "" ->
      Controls.adminMessages (fst admin) = Controls.adminMessages c ++ [message]
      /\ Controls.newAdminMessage (fst admin) = ""
      /\ Controls.chatMessages (fst admin) = Controls.chatMessages c
      /\ Controls.newMessage (fst admin) = Controls.newMessage c
      /\ NoDup (map fst (snd admin))
      /\ (forall r text,
            In (r, text) (snd admin) <-> text = stringify message /\ reachable_peer s r)
      /\ (trim (Controls.newMessage c) <> "" ->
          map fst (snd admin) = map fst (snd chat))).
Proof.
  intros Hhistory message admin chat.
  pose proof (execs_inv history _ _ (new_Session_inv cfg) Hhistory) as I.
  split.
  - intros isAdmin [-> | Hblank]; unfold Controls.sendAdminMessage.
    + now rewrite orb_true_r.
    + rewrite Hblank. reflexivity.
  - intros Hadmin. subst admin chat.
    unfold Controls.sendAdminMessage, Controls.sendChatMessage.
    destruct (String.eqb_spec (trim (Controls.newAdminMessage c)) ""); [contradiction|].
    cbn [orb negb fst snd Controls.adminMessages Controls.newAdminMessage
         Controls.chatMessages Controls.newMessage].
    fold message.
    destruct (broadcast_fold stringify message s (peers (engine s)) I (fun _ _ H => H))
      as [Hnodup Hchar].
    do 4 (split; [reflexivity|]).
    split; [exact Hnodup|]. split; [exact Hchar|].
    intros Hchat.
    destruct (String.eqb_spec (trim (Controls.newMessage c)) ""); [contradiction|].
    cbn [snd]. apply broadcast_targets.
Qed.

Lemma admin_message_goes_to_everyone_witness :
  let cfg := {| stunServers := []; turnServers := None; maxPeers := 50 |} in
  let history := [CreatePeer "alice" true; CreatePeer "bob" false;
                  CreatePeer "carol" true;
                  PeerConnect 1%positive; PeerConnect 2%positive] in
  let s := default (new_Session cfg) (execs (new_Session cfg) history) in
  let c := {| Controls.chatMessages := []; Controls.adminMessages := [];
              Controls.newMessage := ""; Controls.newAdminMessage := "mute all" |} in
  let sent := snd (Controls.sendAdminMessage (fun t => t) Controls.message_text
                     "root" true 7 8 s c) in
  length sent = 2
  /\ NoDup (map fst sent)
  /\ (forall r text, In (r, text) sent <-> text = "mute all" /\ reachable_peer s r).
Proof.
  intros cfg history s c sent.
  assert (Hhistory : execs (new_Session cfg) history = Some s) by (vm_compute; reflexivity).
  assert (Hadmin : (fun t : string => t) (Controls.newAdminMessage c) <> "") by discriminate.
  destruct (admin_message_goes_to_everyone (fun t => t) Controls.message_text
              "root" 7 8 cfg history s c Hhistory) as [_ Hsent].
  destruct (Hsent Hadmin) as (_ & _ & _ & _ & Hnodup & Hreach & _).
  split; [vm_compute; reflexivity|]. split; [exact Hnodup | exact Hreach].
Defined.

(** ** The statistics the sampler reports, end to end *)

Lemma reports_of_stub (hooks : list WebRTC.Hook) :
  Forall (fun r => stats_bandwidth (snd r) = None) (reports_of hooks).
Proof.
  unfold reports_of. induction hooks as [|hook rest IH]; [constructor|].
  cbn [flat_map]. apply List.Forall_app. split; [|exact IH].
  destruct hook; repeat constructor.
Qed.

Lemma reports_in_stub (events : list Event) :
  Forall (fun r => stats_bandwidth (snd r) = None) (reports_in events) ->
  Forall without_bandwidth events.
Proof.
  induction events as [|[peerId stats|] rest IH]; cbn [reports_in flat_map app]; intros H.
  - constructor.
  - apply List.Forall_cons_iff in H as [Hstub H].
    constructor; [exact Hstub | exact (IH H)].
  - constructor; [exact I | exact (IH H)].
Qed.

(** Once 1000 has been passed on, reports without a bandwidth and renders
    change nothing of it. *)
Lemma passed_on_stays (events : list Event) (p : Page) :
  Forall without_bandwidth events -> passed_on p -> passed_on (reacts p events).
Proof.
  intros Hstub. revert p.
  induction Hstub as [|[peerId stats|] rest Hone _ IH]; intros p (Hb & Hr & Hc);
    [now repeat split | |]; apply IH.
  - cbn [without_bandwidth] in Hone. unfold passed_on.
    cbn [react connectionStats rendered_bandwidth adjustQuality_calls
         Room.onConnectionStatsUpdate bandwidth].
    rewrite Hone. now repeat split.
  - unfold passed_on. cbn [react]. unfold bandwidth_effect. rewrite Hb, Hr.
    cbn. now repeat split.
Qed.

(** A report without a bandwidth that waits for a render is passed on, as
    1000, by the first render. *)
Lemma awaiting_render_passes (events : list Event) (p : Page) :
  Forall without_bandwidth events -> awaiting_render p \/ passed_on p ->
  In Rendered events -> passed_on (reacts p events).
Proof.
  intros Hstub. revert p.
  induction Hstub as [|[peerId stats|] rest Hone Hrest IH]; intros p Hp Hin.
  - destruct Hin.
  - destruct Hin as [Heq | Hin]; [discriminate Heq|].
    cbn [without_bandwidth] in Hone.
    apply IH; [|exact Hin].
    destruct Hp as [(Hb & Hr & Hc) | (Hb & Hr & Hc)]; [left | right];
      unfold awaiting_render, passed_on;
      cbn [react connectionStats rendered_bandwidth adjustQuality_calls
           Room.onConnectionStatsUpdate bandwidth];
      rewrite Hone; now repeat split.
  - apply (passed_on_stays rest _ Hrest).
    destruct Hp as [(Hb & Hr & Hc) | (Hb & Hr & Hc)];
      unfold passed_on; cbn [react]; unfold bandwidth_effect; rewrite Hb, Hr, ?Hc;
      cbn; now repeat split.
Qed.

(** Before any report is rendered the page has passed nothing on. *)
Lemma mounted_or_told (events : list Event) (p : Page) :
  Forall without_bandwidth events ->
  p = mounted \/ awaiting_render p \/ passed_on p ->
  let q := reacts p events in
  q = mounted \/ awaiting_render q \/ passed_on q.
Proof.
  intros Hstub. revert p.
  induction Hstub as [|[peerId stats|] rest Hone _ IH]; intros p Hp; [exact Hp | |];
    apply IH.
  - cbn [without_bandwidth] in Hone.
    destruct Hp as [-> | [(Hb & Hr & Hc) | (Hb & Hr & Hc)]];
      [right; left | right; left | right; right];
      unfold awaiting_render, passed_on;
      cbn [react connectionStats rendered_bandwidth adjustQuality_calls
           Room.onConnectionStatsUpdate bandwidth mounted];
      rewrite Hone; now repeat split.
  - destruct Hp as [-> | [(Hb & Hr & Hc) | (Hb & Hr & Hc)]].
    + left. reflexivity.
    + right; right. unfold passed_on. cbn [react]. unfold bandwidth_effect.
      rewrite Hb, Hr, Hc. cbn. now repeat split.
    + right; right. unfold passed_on. cbn [react]. unfold bandwidth_effect.
      rewrite Hb, Hr. cbn. now repeat split.
Qed.

(** X21. Whatever the sampler measures, the quality settles on 240p.  The
    statistics object the session emits has no bandwidth field, so every
    report reads as 1000.  Whenever the page renders, as soon as one render
    follows a statistics report the page has passed exactly one value to
    [adjustQuality], 1000, and passes no other; the window of the quality
    manager is then the single sample 1000, and the timer that fires
    commits the 240p tier, whatever tier the manager started with. *)
Theorem stub_stats_settle_on_240p
    (hooks : list WebRTC.Hook) (events : list Event)
    (initialQuality : option VideoQuality) (t : Z) (h : handle) (w' : Loop) :
  let page := reacts mounted events in
  let w := fed (adjustQuality_calls page) (boot initialQuality) in
  reports_in events = reports_of hooks ->
  (exists before peerId stats after,
      events = before ++ Reported peerId stats :: after /\ In Rendered after) ->
  step w (t, Timeout h) = Some w' ->
  adjustQuality_calls page = [1000%float]
  /\ bandwidthHistory (manager w) = [1000%float]
  /\ getCurrentTier (manager w') = tier_240p.
Proof.
  intros page w Hreports (before & peerId & stats & after & Hevents & Hrendered) Hstep.
  assert (Hstub : Forall without_bandwidth events).
  { apply reports_in_stub. rewrite Hreports. apply reports_of_stub. }
  assert (Hcalls : adjustQuality_calls page = [1000%float]).
  { subst page. rewrite Hevents in Hstub |- *.
    apply List.Forall_app in Hstub as [Hbefore Hlater].
    apply List.Forall_cons_iff in Hlater as [Hone Hafter].
    rewrite reacts_app. change (Reported peerId stats :: after)
      with ([Reported peerId stats] ++ after). rewrite reacts_app.
    refine (proj2 (proj2 (awaiting_render_passes after _ Hafter _ Hrendered))).
    pose proof (mounted_or_told (before ++ [Reported peerId stats]) mounted) as Htold.
    rewrite reacts_app in Htold.
    destruct Htold as [Hm | Htold].
    - apply List.Forall_app. split; [exact Hbefore | now constructor].
    - now left.
    - exfalso. cbn [without_bandwidth] in Hone.
      apply (f_equal (fun p => bandwidth (connectionStats p))) in Hm.
      cbn [reacts fold_left react connectionStats Room.onConnectionStatsUpdate
           bandwidth mounted] in Hm.
      rewrite Hone in Hm. cbn in Hm.
      assert (E : PrimFloat.eqb 1000 0 = true) by (rewrite Hm; reflexivity).
      vm_compute in E. discriminate.
    - exact Htold. }
  assert (Hw : w = updateBandwidth 1000%float (boot initialQuality)).
  { subst w. rewrite Hcalls. reflexivity. }
  split; [exact Hcalls|]. split; [rewrite Hw; reflexivity|].
  assert (I : Loop_inv w).
  { rewrite Hw. apply updateBandwidth_inv, boot_inv. }
  rewrite (timeout_commits w w' t h I Hstep), Hw. reflexivity.
Qed.

Lemma stub_stats_settle_on_240p_witness :
  let cfg := {| stunServers := []; turnServers := None; maxPeers := 50 |} in
  let history := [CreatePeer "alice" true; CreatePeer "bob" false;
                  PeerConnect 1%positive; PeerConnect 2%positive;
                  Tick 1%positive; Tick 2%positive; Tick 1%positive] in
  let s := default (new_Session cfg) (execs (new_Session cfg) history) in
  let stub := report_of_stats (getConnectionStats 1%positive) in
  let events := [Reported "alice" stub; Reported "bob" stub; Rendered;
                 Reported "alice" stub; Rendered] in
  let page := reacts mounted events in
  let w := fed (adjustQuality_calls page) (boot (Some "1080p")) in
  reports_in events = reports_of (emitted s)
  /\ adjustQuality_calls page = [1000%float]
  /\ (getCurrentTier (manager w) = tier_1080p
      /\ option_map (fun w' => getCurrentTier (manager w')) (step w (2000%Z, Timeout 1%positive))
         = Some tier_240p).
Proof.
  intros cfg history s stub events page w.
  assert (Hreports : reports_in events = reports_of (emitted s)) by (vm_compute; reflexivity).
  assert (Hrendered : exists before peerId stats after,
            events = before ++ Reported peerId stats :: after /\ In Rendered after).
  { exists [], "alice", stub, [Reported "bob" stub; Rendered; Reported "alice" stub; Rendered].
    split; [reflexivity|]. right; left; reflexivity. }
  destruct (step w (2000%Z, Timeout 1%positive)) as [w'|] eqn:Hstep;
    [|vm_compute in Hstep; discriminate].
  destruct (stub_stats_settle_on_240p (emitted s) events (Some "1080p") 2000 1%positive w'
              Hreports Hrendered Hstep) as (Hcalls & _ & Htier).
  split; [exact Hreports|]. split; [exact Hcalls|].
  split; [vm_compute; reflexivity|].
  cbn [option_map]. f_equal. exact Htier.
Defined.

(** ** Initialising the session *)

Lemma setupLocalStream_flag (devices : Devices) (s : Session) :
  isInitialized (engine (snd (setupLocalStream devices s))) = isInitialized (engine s).
Proof.
  unfold setupLocalStream, getUserMedia. cbv zeta.
  destruct (devices (length (acquisitions s)) _) as [m|e]; [reflexivity|].
  cbn [acquisitions].
  destruct (devices (length (acquisitions s ++ _)) _) as [m|e']; [|reflexivity].
  unfold engine_setQuality.
  destruct (setQuality "audio-only" _) as [q changed]. reflexivity.
Qed.

(** X22. [initialize] acquires the capture once.  A call that returns
    without an error leaves the session initialised, and every later call,
    whatever the devices would answer, returns at once: no acquisition, no
    hook, no change.  A call that throws leaves the session as it was but
    for the two acquisitions it attempted, so that a later call tries
    again.  (Calls are taken one after the other: each has settled before
    the next one starts.) *)
Theorem initialize_once (devices : Devices) (s : Session) :
  match initialize devices s with
  | (None, s1) =>
      isInitialized (engine s1) = true
      /\ (forall devices', initialize devices' s1 = (None, s1))
      /\ (isInitialized (engine s) = false ->
          exists m, localStream (engine s1) = Some m
                    /\ last (emitted s1) = Some (onLocalStreamReady m))
  | (Some error, s1) =>
      isInitialized (engine s1) = false
      /\ engine s1 = engine s
      /\ emitted s1 = emitted s
      /\ instances s1 = instances s
      /\ length (acquisitions s1) = length (acquisitions s) + 2
  end.
Proof.
  unfold initialize at 1.
  destruct (isInitialized (engine s)) eqn:Hflag.
  - split; [exact Hflag|]. split; [|discriminate].
    intros devices'. unfold initialize. now rewrite Hflag.
  - pose proof (setupLocalStream_flag devices s) as Hkeep. rewrite Hflag in Hkeep.
    revert Hkeep. unfold setupLocalStream, getUserMedia. cbv zeta.
    destruct (devices (length (acquisitions s)) _) as [m|e].
    + intros _. split; [reflexivity|]. split.
      * intros devices'. reflexivity.
      * intros _. exists m. split; [reflexivity|].
        cbn [emitted emit with_isInitialized with_localStream with_engine].
        apply last_snoc.
    + cbn [acquisitions].
      destruct (devices (length (acquisitions s ++ _)) _) as [m|fallbackError].
      * intros _. split; [reflexivity|]. split.
        -- intros devices'. reflexivity.
        -- intros _. exists m. split.
           ++ unfold engine_setQuality.
              destruct (setQuality "audio-only" _) as [q changed]. reflexivity.
           ++ unfold engine_setQuality.
              destruct (setQuality "audio-only" _) as [q changed].
              cbn [emitted emit with_isInitialized with_localStream with_engine
                   with_qualityManager].
              apply last_snoc.
      * cbn [snd engine]. intros Hkeep.
        split; [exact Hkeep|]. split; [reflexivity|]. split; [reflexivity|].
        split; [reflexivity|].
        cbn [acquisitions]. rewrite !length_app. cbn [length]. lia.
Qed.
